(** * ClickUp Due Today: timer registry, idle monitor, due-today filter,
      notification scheduler

    A shallow embedding of the extension's popup script (timer start, stop,
    toggle, completion, persistence, effective elapsed time) and of its
    background script (idle listener, task fetching and filtering, due-soon
    notifications, install/startup/message handlers), followed by the
    properties of the specification stated over these definitions.

    Conventions.
    - Instants and durations are JavaScript numbers holding integral
      milliseconds; they are modelled as [Z].
    - [Date.now()] is an input of every function that reads the clock; two
      reads in one function are two inputs.
    - Outcomes of host and network calls ([fetch], [chrome.storage]) are
      inputs; calls issued to the host are recorded in a trace of [Effect]s.
    - A JavaScript object used as a dictionary is a [gmap string _]; the
      [Set] of notified ids is a [gset string]. *)

From Stdlib Require Import ZArith Lia Ascii String.
From stdpp Require Import base option list gmap sets strings pretty sorting.

Open Scope Z_scope.

(** ** JavaScript values: truthiness, [||], [parseInt] *)

Module JS.

(** [ToBoolean] of a number known not to be NaN. *)
Definition truthy_num (n : Z) : bool := negb (n =? 0).

(** [ToBoolean] of a field that holds a number, [null] or [undefined]. *)
Definition truthy (v : option Z) : bool :=
  match v with
  | Some n => truthy_num n
  | None => false
  end.

(** [ToBoolean] of a field that holds a string, [null] or [undefined]. *)
Definition truthy_str (v : option string) : bool :=
  match v with
  | Some EmptyString => false
  | Some (String _ _) => true
  | None => false
  end.

(** [n || d] for numbers [n] and [d]. *)
Definition or_num (n d : Z) : Z := if truthy_num n then n else d.

(** [v || null]. *)
Definition or_null (v : option Z) : option Z :=
  if truthy v then v else None.

(** White space skipped by [parseInt] (the ASCII part of StrWhiteSpaceChar:
    TAB, LF, VT, FF, CR, SP). *)
Definition is_ws (c : ascii) : bool :=
  let n := nat_of_ascii c in
  (Nat.eqb n 9 || Nat.eqb n 10 || Nat.eqb n 11 || Nat.eqb n 12
   || Nat.eqb n 13 || Nat.eqb n 32)%bool.

Fixpoint skip_ws (s : string) : string :=
  match s with
  | String c s' => if is_ws c then skip_ws s' else s
  | EmptyString => s
  end.

Definition digit_of (c : ascii) : option Z :=
  let n := Z.of_nat (nat_of_ascii c) in
  if ((48 <=? n) && (n <=? 57))%bool then Some (n - 48) else None.

(** Value of the longest prefix of decimal digits; [None] when it is
    empty. [acc] is the value of the digits read so far. *)
Fixpoint digits (acc : option Z) (s : string) : option Z :=
  match s with
  | String c s' =>
      match digit_of c with
      | Some d => digits (Some (10 * default 0 acc + d)) s'
      | None => acc
      end
  | EmptyString => acc
  end.

(** [parseInt(s, 10)]; [None] is NaN. The mathematical value is kept
    exact (a double rounds it above 2^53, monotonically). *)
Definition parseInt (s : string) : option Z :=
  match skip_ws s with
  | String "-"%char s' => Z.opp <$> digits None s'
  | String "+"%char s' => digits None s'
  | s' => digits None s'
  end.

(** [parseInt(v, 10)] of a field that holds a string or [null]:
    [ToString(null)] is ["null"], which has no digits. *)
Definition parseInt_field (v : option string) : option Z :=
  match v with
  | Some s => parseInt s
  | None => None
  end.

(** Comparisons with NaN are false. *)
Definition lt (a : option Z) (b : Z) : bool :=
  match a with Some x => x <? b | None => false end.
Definition le (a : option Z) (b : Z) : bool :=
  match a with Some x => x <=? b | None => false end.
Definition ge (a : option Z) (b : Z) : bool :=
  match a with Some x => b <=? x | None => false end.
Definition gt (a : option Z) (b : Z) : bool :=
  match a with Some x => b <? x | None => false end.

End JS.

(** ** ECMAScript local time, as used by [Date.prototype.setHours] *)

Module DateTime.

Definition msPerDay : Z := 86400000.
Definition msPerHour : Z := 3600000.
Definition msPerMinute : Z := 60000.
Definition msPerSecond : Z := 1000.

(** The host's time zone: [LocalTZA t true] is the UTC offset in effect at
    the UTC instant [t], [LocalTZA t false] the offset used to interpret
    the local time value [t] (ECMAScript, LocalTZA(t, isUTC)). *)
Record TimeZone := { LocalTZA : Z -> bool -> Z }.

Definition LocalTime (tz : TimeZone) (t : Z) : Z := t + LocalTZA tz t true.
Definition UTC (tz : TimeZone) (t : Z) : Z := t - LocalTZA tz t false.
Definition Day (t : Z) : Z := t / msPerDay.
Definition MakeTime (h m s ms : Z) : Z :=
  h * msPerHour + m * msPerMinute + s * msPerSecond + ms.
Definition MakeDate (day time : Z) : Z := day * msPerDay + time.

(** [d.setHours(h, m, s, ms)] on a Date whose time value is [t]: the new
    time value. *)
Definition setHours (tz : TimeZone) (t h m s ms : Z) : Z :=
  UTC tz (MakeDate (Day (LocalTime tz t)) (MakeTime h m s ms)).

(** A zone whose offset never changes. *)
Definition fixed_zone (offset : Z) : TimeZone :=
  {| LocalTZA := fun _ _ => offset |}.

(** A zone that moves from [before] to [after] at the UTC instant
    [transition] (a daylight-saving change); a local time that is skipped
    or repeated by the change is interpreted with the offset in effect
    before it. *)
Definition shifting_zone (before after transition : Z) : TimeZone :=
  {| LocalTZA := fun t isUTC =>
       if isUTC
       then (if t <? transition then before else after)
       else (if t <? transition + Z.max before after then before else after) |}.

End DateTime.

(** ** Data shared by the popup and the background script *)

(** A task as returned by the task API. [due_date] is a string of
    milliseconds or [null]; [teamName] is attached by the fetching code. *)
Record Task := mkTask {
  id : string;
  name : string;
  due_date : option string;
  teamName : option string
}.

(** One entry of [activeTimers]. A persisted entry has no [intervalId]. *)
Record Timer := mkTimer {
  startTime : Z;
  pausedDuration : Z;
  pausedAt : option Z;
  intervalId : option nat
}.

(** Outcome of an awaited [fetch]: the promise rejects, or resolves with a
    response whose [ok] flag is false or true. *)
Inductive Reply (A : Type) : Type :=
| Rejected
| HttpError
| HttpOk (body : A).
Arguments Rejected {A}.
Arguments HttpError {A}.
Arguments HttpOk {A} body.

Inductive Badge := BadgeRecording | BadgePaused | BadgeCount (n : nat) | BadgeBlank.

(** [message.type] of the inter-process messages. *)
Inductive Message :=
| SETTINGS_UPDATED
| UPDATE_BADGE
| GET_TASKS
| TIMER_STARTED
| TIMER_STOPPED.

(** Calls issued to the host, in the order the code issues them. *)
Inductive Effect :=
| HttpPutStatus (taskId status : string)
| HttpPostTime (taskId : string) (duration start end_ : Z)
| StorageLocalSet (timers : gmap string Timer)
| SendMessage (m : Message)
| SetInterval (iid : nat)
| ClearInterval (iid : nat)
| ConsoleError (what : string)
| Alert (msg : string)
| RemoveTaskElement (taskId : string)
| LoadTasks
| SetBadgeText (b : Badge)
| SetBadgeBackgroundColor (color : string)
| AlarmsCreate (alarm : string) (periodInMinutes : Z)
| IdleSetDetectionInterval (seconds : Z)
| NotificationsCreate (taskId : string) (taskName : string) (minutes : Z)
| SendResponse (tasks : list Task).

(** The [activeTimers] key of [chrome.storage.local]: absent until first
    written. *)
Abbreviation Storage := (option (gmap string Timer)).

(** ** Popup script *)

Module Popup.

(** The popup's script-level state that the timer code touches. *)
Record State := mkState {
  activeTimers : gmap string Timer;
  allTasks : list Task
}.

(** [getEffectiveElapsed(timerData)], with [now] the value of
    [Date.now()]. *)
Definition getEffectiveElapsed (now : Z) (timerData : Timer) : Z :=
  let elapsed := now - startTime timerData in
  let elapsed := elapsed - JS.or_num (pausedDuration timerData) 0 in
  let elapsed :=
    if JS.truthy (pausedAt timerData)
    then elapsed - (now - default 0 (pausedAt timerData))
    else elapsed in
  Z.max 0 elapsed.

(** The object written for one entry by [persistTimerState]. *)
Definition toSave (timerData : Timer) : Timer :=
  {| startTime := startTime timerData;
     pausedDuration := JS.or_num (pausedDuration timerData) 0;
     pausedAt := JS.or_null (pausedAt timerData);
     intervalId := None |}.

(** [persistTimerState()]: [writeOk] tells whether
    [chrome.storage.local.set] succeeds; a failure is caught and logged (the
    log entry is recorded next to the call it belongs to, although it is
    written when the promise settles). *)
Definition persistTimerState (writeOk : bool) (timers : gmap string Timer)
    (storage : Storage) : Storage * list Effect :=
  let timersToSave := toSave <$> timers in
  if writeOk
  then (Some timersToSave, [StorageLocalSet timersToSave])
  else (storage, [StorageLocalSet timersToSave;
                  ConsoleError "Error persisting timer state:"]).

(** The entry restored for one persisted entry by [loadPersistedTimers]. *)
Definition restore (timerData : Timer) : Timer :=
  {| startTime := startTime timerData;
     pausedDuration := JS.or_num (pausedDuration timerData) 0;
     pausedAt := JS.or_null (pausedAt timerData);
     intervalId := None |}.

(** [loadPersistedTimers()]: every persisted entry overwrites the in-memory
    entry of the same task id; a failed read is caught and logged. *)
Definition loadPersistedTimers (readOk : bool) (storage : Storage)
    (st : State) : State * list Effect :=
  if readOk
  then
    let persistedTimers := default ∅ storage in
    ({| activeTimers := (restore <$> persistedTimers) ∪ activeTimers st;
        allTasks := allTasks st |}, [])
  else (st, [ConsoleError "Error loading persisted timers:"]).

(** [clearInterval] guarded by [if (timer.intervalId)]. *)
Definition clearIfSet (timer : Timer) : list Effect :=
  match intervalId timer with
  | Some (S n) => [ClearInterval (S n)]
  | _ => []
  end.

(** The message sent after an entry was removed. *)
Definition timerStateMessage (timers : gmap string Timer) : Message :=
  if bool_decide (0 < size timers)%nat then TIMER_STARTED else TIMER_STOPPED.

(** [startTimer(taskId, button)]: [now] is [Date.now()], [iid] the id
    returned by [setInterval]. There is no check for an existing entry. *)
Definition startTimer (now : Z) (iid : nat) (writeOk : bool)
    (taskId : string) (st : State) (storage : Storage)
    : State * Storage * list Effect :=
  let timers :=
    <[taskId := {| startTime := now; pausedDuration := 0;
                   pausedAt := None; intervalId := Some iid |}]>
      (activeTimers st) in
  let '(storage', saved) := persistTimerState writeOk timers storage in
  ({| activeTimers := timers; allTasks := allTasks st |}, storage',
   [SetInterval iid] ++ saved ++ [SendMessage TIMER_STARTED]).

(** [stopTimer], up to the awaited [fetch]: [None] when there is no entry
    (the function returns at once), otherwise the calls issued, ending with
    the time-log request. [now] is the clock read inside
    [getEffectiveElapsed], [endNow] the one for the [end] field. *)
Definition stopTimer_request (now endNow : Z) (taskId : string) (st : State)
    : option (list Effect) :=
  match activeTimers st !! taskId with
  | None => None
  | Some timer =>
      let effectiveElapsed := getEffectiveElapsed now timer in
      Some (clearIfSet timer ++
            [HttpPostTime taskId effectiveElapsed (startTime timer) endNow])
  end.

(** [stopTimer], after the [fetch] settled with [logged]; [st] and
    [storage] are the state at that moment. *)
Definition stopTimer_settle (logged : Reply unit) (writeOk : bool)
    (taskId : string) (st : State) (storage : Storage)
    : State * Storage * list Effect :=
  let caught :=
    match logged with
    | Rejected => [ConsoleError "Error logging time:"]
    | _ => []
    end in
  let timers := delete taskId (activeTimers st) in
  let '(storage', saved) := persistTimerState writeOk timers storage in
  ({| activeTimers := timers; allTasks := allTasks st |}, storage',
   caught ++ saved ++ [SendMessage (timerStateMessage timers); LoadTasks]).

(** [stopTimer(taskId, button)] run without interleaving. *)
Definition stopTimer (now endNow : Z) (logged : Reply unit) (writeOk : bool)
    (taskId : string) (st : State) (storage : Storage)
    : State * Storage * list Effect :=
  match stopTimer_request now endNow taskId st with
  | None => (st, storage, [])
  | Some issued =>
      let '(st', storage', effs) :=
        stopTimer_settle logged writeOk taskId st storage in
      (st', storage', issued ++ effs)
  end.

(** [toggleTimer(taskId, button)]. *)
Definition toggleTimer (now endNow : Z) (iid : nat) (logged : Reply unit)
    (writeOk : bool) (taskId : string) (st : State) (storage : Storage)
    : State * Storage * list Effect :=
  match activeTimers st !! taskId with
  | Some _ => stopTimer now endNow logged writeOk taskId st storage
  | None => startTimer now iid writeOk taskId st storage
  end.

(** [completeTask(taskId, taskElement)]: [closed] is the outcome of the
    status update. A rejected request is reported and nothing else happens;
    otherwise the timer entry, if any, is dropped, and the task leaves the
    list when the two nested timeouts fire. *)
Definition completeTask (closed : Reply unit) (writeOk : bool)
    (taskId : string) (st : State) (storage : Storage)
    : State * Storage * list Effect :=
  let request := [HttpPutStatus taskId "closed"] in
  match closed with
  | Rejected =>
      (st, storage,
       request ++ [ConsoleError "Error completing task:";
                   Alert "Failed to complete task. Please try again."])
  | _ =>
      let '(timers, storage', stopped) :=
        match activeTimers st !! taskId with
        | Some timer =>
            let timers := delete taskId (activeTimers st) in
            let '(storage', saved) :=
              persistTimerState writeOk timers storage in
            (timers, storage',
             clearIfSet timer ++ saved
               ++ [SendMessage (timerStateMessage timers)])
        | None => (activeTimers st, storage, [])
        end in
      ({| activeTimers := timers;
          allTasks := filter (λ t, id t ≠ taskId) (allTasks st) |},
       storage',
       request ++ stopped
         ++ [RemoveTaskElement taskId; SendMessage UPDATE_BADGE])
  end.

End Popup.

(** ** Options page *)

Module Options.

(** The settings object built by the save handler from the two numeric
    inputs; the feature toggles are copied as they are. *)
Definition validIdleThreshold (idleThresholdInput : string) : Z :=
  match JS.parseInt idleThresholdInput with
  | None => 1
  | Some idleThreshold => if idleThreshold <? 1 then 1 else idleThreshold
  end.

Definition savedNotificationMinutes (notificationMinutesInput : string) : Z :=
  match JS.parseInt notificationMinutesInput with
  | None => 15
  | Some n => JS.or_num n 15
  end.

End Options.

(** ** Background script *)

Module Background.

Import DateTime.

Record Features := mkFeatures {
  overdue : bool;
  dueTime : bool;
  timeTracked : bool;
  completedCount : bool;
  grouping : bool;
  badge : bool;
  timeTracking : bool;
  snooze : bool;
  filters : bool;
  notifications : bool;
  idleDetection : option bool
}.

(** The settings record as the options page saves it; the two idle fields
    are absent from the background script's own defaults. *)
Record Settings := mkSettings {
  features : Features;
  notificationMinutes : Z;
  idleThresholdMinutes : option Z
}.

Definition defaultSettings : Settings :=
  {| features :=
       {| overdue := false; dueTime := true; timeTracked := true;
          completedCount := true; grouping := false; badge := true;
          timeTracking := true; snooze := true; filters := true;
          notifications := false; idleDetection := None |};
     notificationMinutes := 15;
     idleThresholdMinutes := None |}.

Definition IDLE_THRESHOLD_SECONDS : Z := 60.

(** What [chrome.storage.sync.get(['clickupApiKey', 'settings'])] yields. *)
Record SyncStorage := mkSync {
  clickupApiKey : option string;
  settings : option Settings
}.

Record Team := mkTeam { team_id : string; team_name : string }.

(** The query part of the task-list request. *)
Record TaskQuery := mkQuery {
  q_team : string;
  q_assignee : string;
  due_date_gt : option Z;
  due_date_lt : Z
}.

(** The remote task API as the background script sees it. [Rejected] also
    stands for a body that cannot be read; an absent [teams] or [tasks]
    property is [None]. *)
Record Remote := mkRemote {
  getUser : Reply string;
  getTeams : Reply (option (list Team));
  getTasks : TaskQuery -> Reply (option (list Task))
}.

(** Everything an event handler reads from outside the script. [sync] is
    [None] when the read of the synced bucket rejects; [localRead] and
    [localWrite] tell whether the local bucket can be read and written. *)
Record Host := mkHost {
  zone : TimeZone;
  remote : Remote;
  sync : option SyncStorage;
  localRead : bool;
  localWrite : bool
}.

(** Script-level state of the background process. *)
Record State := mkState {
  notifiedTasks : gset string;
  isTimerRecording : bool
}.

(** The states reported by [chrome.idle.onStateChanged]. *)
Inductive IdleState := active | idle | locked.

(** *** Idle listener *)

(** Body of the pausing loop for one entry. *)
Definition pauseTimer (now : Z) (t : Timer) : Timer :=
  if negb (JS.truthy (pausedAt t))
  then {| startTime := startTime t; pausedDuration := pausedDuration t;
          pausedAt := Some now; intervalId := intervalId t |}
  else t.

(** Body of the resuming loop for one entry. *)
Definition resumeTimer (now : Z) (t : Timer) : Timer :=
  if JS.truthy (pausedAt t)
  then
    let pausedFor := now - default 0 (pausedAt t) in
    {| startTime := startTime t;
       pausedDuration := JS.or_num (pausedDuration t) 0 + pausedFor;
       pausedAt := None; intervalId := intervalId t |}
  else t.

Definition pause_all (now : Z) (timers : gmap string Timer)
    : gmap string Timer := pauseTimer now <$> timers.

Definition resume_all (now : Z) (timers : gmap string Timer)
    : gmap string Timer := resumeTimer now <$> timers.

Definition showRecordingBadge : list Effect :=
  [SetBadgeText BadgeRecording; SetBadgeBackgroundColor "#f44336"].

(** Writing the map back; a rejected write throws into the listener's
    [catch], which skips the badge update [after]. *)
Definition writeBack (h : Host) (timers : gmap string Timer)
    (storage : Storage) (after : list Effect) : Storage * list Effect :=
  if localWrite h
  then (Some timers, StorageLocalSet timers :: after)
  else (storage, [StorageLocalSet timers;
                  ConsoleError "Error handling idle state change:"]).

(** The [chrome.idle.onStateChanged] listener. *)
Definition onStateChanged (h : Host) (now : Z) (newState : IdleState)
    (st : State) (storage : Storage) : Storage * list Effect :=
  if negb (localRead h)
  then (storage, [ConsoleError "Error handling idle state change:"])
  else
    let activeTimers := default ∅ storage in
    if bool_decide (size activeTimers = 0%nat)
    then (storage, [])
    else
      match newState with
      | idle | locked =>
          writeBack h (pause_all now activeTimers) storage
            [SetBadgeText BadgePaused; SetBadgeBackgroundColor "#ff9800"]
      | active =>
          writeBack h (resume_all now activeTimers) storage
            (if isTimerRecording st then showRecordingBadge else [])
      end.

(** *** Fetching the tasks due today *)

Definition todayStart (tz : TimeZone) (now : Z) : Z :=
  setHours tz now 0 0 0 0.

Definition todayEndMs (tz : TimeZone) (now : Z) : Z :=
  setHours tz (todayStart tz now) 23 59 59 999.

(** The predicate given to [data.tasks.filter]. *)
Definition dueFilter (includeOverdue : bool) (start endMs : Z) (task : Task)
    : bool :=
  if negb (JS.truthy_str (due_date task)) then false
  else
    let dueDate := JS.parseInt_field (due_date task) in
    if includeOverdue
    then JS.le dueDate endMs
    else JS.ge dueDate start && JS.le dueDate endMs.

Definition taskQuery (includeOverdue : bool) (start endMs : Z)
    (team : Team) (currentUserId : string) : TaskQuery :=
  {| q_team := team_id team;
     q_assignee := currentUserId;
     due_date_gt := if includeOverdue then None else Some (start - 1);
     due_date_lt := endMs + 1 |}.

Definition withTeamName (team : Team) (task : Task) : Task :=
  {| id := id task; name := name task; due_date := due_date task;
     teamName := Some (team_name team) |}.

(** The tasks one team contributes. *)
Definition teamTasks (r : Remote) (includeOverdue : bool) (start endMs : Z)
    (currentUserId : string) (team : Team) : list Task :=
  match getTasks r (taskQuery includeOverdue start endMs team currentUserId) with
  | HttpOk (Some tasks) =>
      List.map (withTeamName team)
        (List.filter (dueFilter includeOverdue start endMs) tasks)
  | _ => []
  end.

(** [fetchTasksWithKey(apiKey, includeOverdue)]; [now] is the time value of
    [new Date()]. *)
Definition fetchTasksWithKey (h : Host) (now : Z) (apiKey : option string)
    (includeOverdue : bool) : list Task :=
  if negb (JS.truthy_str apiKey) then []
  else
    match getUser (remote h) with
    | HttpOk currentUserId =>
        match getTeams (remote h) with
        | HttpOk (Some teams) =>
            let start := todayStart (zone h) now in
            let endMs := todayEndMs (zone h) now in
            List.flat_map
              (teamTasks (remote h) includeOverdue start endMs currentUserId)
              teams
        | _ => []
        end
    | _ => []
    end.

(** [fetchTasks()], called for the popup; [None] when the read of the
    synced bucket rejects and the promise with it. *)
Definition fetchTasks (h : Host) (now : Z) : option (list Task) :=
  match sync h with
  | None => None
  | Some s =>
      let currentSettings := default defaultSettings (settings s) in
      if negb (JS.truthy_str (clickupApiKey s)) then Some []
      else Some (fetchTasksWithKey h now (clickupApiKey s)
                   (overdue (features currentSettings)))
  end.

(** *** Badge *)

(** [updateBadgeCount()]. *)
Definition updateBadgeCount (h : Host) (now : Z) (st : State) : list Effect :=
  if isTimerRecording st then showRecordingBadge
  else
    match sync h with
    | None => [ConsoleError "Error updating badge:"; SetBadgeText BadgeBlank]
    | Some s =>
        let currentSettings := default defaultSettings (settings s) in
        if negb (JS.truthy_str (clickupApiKey s))
           || negb (badge (features currentSettings))
        then [SetBadgeText BadgeBlank]
        else
          let tasks :=
            fetchTasksWithKey h now (clickupApiKey s)
              (overdue (features currentSettings)) in
          if bool_decide (0 < length tasks)%nat
          then [SetBadgeText (BadgeCount (length tasks));
                SetBadgeBackgroundColor "#7b68ee"]
          else [SetBadgeText BadgeBlank]
    end.

(** [checkPersistedTimers()]. *)
Definition checkPersistedTimers (h : Host) (now : Z) (st : State)
    (storage : Storage) : State * list Effect :=
  if negb (localRead h)
  then (st, ConsoleError "Error checking persisted timers:"
            :: updateBadgeCount h now st)
  else
    let persistedTimers := default ∅ storage in
    if bool_decide (0 < size persistedTimers)%nat
    then ({| notifiedTasks := notifiedTasks st; isTimerRecording := true |},
          showRecordingBadge)
    else
      let st' := {| notifiedTasks := notifiedTasks st;
                    isTimerRecording := false |} in
      (st', updateBadgeCount h now st').

(** *** Due-soon notifications *)

Definition notifyBeforeMs (currentSettings : Settings) : Z :=
  JS.or_num (notificationMinutes currentSettings) 15 * 60 * 1000.

(** [Math.round(timeUntilDue / 60000)]. *)
Definition roundMinutes (timeUntilDue : Z) : Z :=
  (timeUntilDue + 30000) / 60000.

(** One iteration of the notifying loop: the set and the trace so far. A
    task with no due date is skipped; a due date that does not parse makes
    [timeUntilDue] NaN and both comparisons false. *)
Definition notifyStep (now before : Z) (acc : gset string * list Effect)
    (task : Task) : gset string * list Effect :=
  if negb (JS.truthy_str (due_date task)) then acc
  else
    let dueDate := JS.parseInt_field (due_date task) in
    let timeUntilDue := (λ d, d - now) <$> dueDate in
    if JS.gt timeUntilDue 0 && JS.le timeUntilDue before
       && negb (bool_decide (id task ∈ acc.1))
    then
      ({[id task]} ∪ acc.1,
       acc.2 ++ [NotificationsCreate (id task) (name task)
                   (roundMinutes (default 0 timeUntilDue))])
    else acc.

Definition notifyLoop (now before : Z) (tasks : list Task)
    (notified : gset string) : gset string * list Effect :=
  fold_left (notifyStep now before) tasks (notified, []).

(** The test of the cleaning loop: the id's task is gone, or is past due. *)
Definition evicted (now : Z) (tasks : list Task) (taskId : string) : bool :=
  match List.find (λ t, String.eqb (id t) taskId) tasks with
  | None => true
  | Some task =>
      JS.truthy_str (due_date task)
      && JS.lt (JS.parseInt_field (due_date task)) now
  end.

Definition sweep (now : Z) (tasks : list Task) (notified : gset string)
    : gset string :=
  filter (λ taskId, evicted now tasks taskId = false) notified.

(** One notification check over the fetched [tasks]. *)
Definition notificationTick (now before : Z) (tasks : list Task)
    (notified : gset string) : gset string * list Effect :=
  let '(notified', created) := notifyLoop now before tasks notified in
  (sweep now tasks notified', created).

(** [checkDueNotifications()]: [fetchNow] is the clock read by the fetch,
    [now] the one taken after it. *)
Definition checkDueNotifications (h : Host) (fetchNow now : Z) (st : State)
    : State * list Effect :=
  match sync h with
  | None => (st, [ConsoleError "Error checking notifications:"])
  | Some s =>
      let currentSettings := default defaultSettings (settings s) in
      if negb (JS.truthy_str (clickupApiKey s))
         || negb (notifications (features currentSettings))
      then (st, [])
      else
        let tasks := fetchTasksWithKey h fetchNow (clickupApiKey s) false in
        let '(notified, created) :=
          notificationTick now (notifyBeforeMs currentSettings) tasks
            (notifiedTasks st) in
        ({| notifiedTasks := notified;
            isTimerRecording := isTimerRecording st |}, created)
  end.

(** *** Listeners *)

(** [chrome.runtime.onInstalled]. *)
Definition onInstalled (h : Host) (now : Z) (st : State) (storage : Storage)
    : State * list Effect :=
  let '(st', effs) := checkPersistedTimers h now st storage in
  (st', [AlarmsCreate "updateBadge" 5; AlarmsCreate "checkNotifications" 1;
         IdleSetDetectionInterval IDLE_THRESHOLD_SECONDS] ++ effs).

(** [chrome.runtime.onStartup]. *)
Definition onStartup (h : Host) (now : Z) (st : State) (storage : Storage)
    : State * list Effect :=
  let '(st', effs) := checkPersistedTimers h now st storage in
  (st', IdleSetDetectionInterval IDLE_THRESHOLD_SECONDS :: effs).

(** [chrome.alarms.onAlarm]. *)
Definition onAlarm (h : Host) (fetchNow now : Z) (alarm : string) (st : State)
    : State * list Effect :=
  if String.eqb alarm "updateBadge" then (st, updateBadgeCount h fetchNow st)
  else if String.eqb alarm "checkNotifications"
       then checkDueNotifications h fetchNow now st
       else (st, []).

(** [chrome.runtime.onMessage]. *)
Definition onMessage (h : Host) (now : Z) (message : Message) (st : State)
    : State * list Effect :=
  match message with
  | SETTINGS_UPDATED => (st, updateBadgeCount h now st)
  | UPDATE_BADGE => (st, updateBadgeCount h now st)
  | GET_TASKS =>
      (st, match fetchTasks h now with
           | Some tasks => [SendResponse tasks]
           | None => []
           end)
  | TIMER_STARTED =>
      ({| notifiedTasks := notifiedTasks st; isTimerRecording := true |},
       showRecordingBadge)
  | TIMER_STOPPED =>
      let st' := {| notifiedTasks := notifiedTasks st;
                    isTimerRecording := false |} in
      (st', updateBadgeCount h now st')
  end.

End Background.

(** ** Notions used to state the properties *)

(** The formula of the data model for the effective elapsed time. *)
Definition spec_effective_elapsed (e : Timer) (now : Z) : Z :=
  Z.max 0
    (now - startTime e - pausedDuration e
     - match pausedAt e with
       | Some p => now - p
       | None => 0
       end).

(** A reading of the wall clock: milliseconds since the epoch, after it. *)
Definition instant (t : Z) : Prop := 0 < t.

(** The pause mark of an entry, when present, is a clock reading. *)
Definition pause_mark_ok (e : Timer) : Prop :=
  ∀ p, pausedAt e = Some p → instant p.

(** What one idle-state change at instant [ev.2] does to one entry. *)
Definition applyIdle (ev : Background.IdleState * Z) (t : Timer) : Timer :=
  match ev.1 with
  | Background.idle | Background.locked => Background.pauseTimer ev.2 t
  | Background.active => Background.resumeTimer ev.2 t
  end.

(** An entry after a sequence of idle-state changes. *)
Definition runIdle (evs : list (Background.IdleState * Z)) (t : Timer) : Timer :=
  fold_left (λ t ev, applyIdle ev t) evs t.

(** An entry is consistent at [now]: its start, its accumulated pauses and
    its current pause, if any, fit before [now] in this order. *)
Definition timer_ok (now : Z) (t : Timer) : Prop :=
  0 ≤ pausedDuration t
  ∧ match pausedAt t with
    | Some p => startTime t + pausedDuration t ≤ p ∧ p ≤ now
    | None => startTime t + pausedDuration t ≤ now
    end.

(** The instants of a sequence of state changes ascend from [lo] to [hi]. *)
Fixpoint chronological (lo : Z) (evs : list (Background.IdleState * Z))
    (hi : Z) : Prop :=
  match evs with
  | [] => lo ≤ hi
  | ev :: evs' => lo ≤ ev.2 ∧ chronological ev.2 evs' hi
  end.

(** The task is due within the notification window that opens at [now]. *)
Definition due_soon (now before : Z) (task : Task) : Prop :=
  ∃ d, JS.parseInt_field (due_date task) = Some d ∧ 0 < d - now ≤ before.

(** The task's due time has passed at [now]. *)
Definition past_due (now : Z) (task : Task) : Prop :=
  ∃ d, JS.parseInt_field (due_date task) = Some d ∧ d < now.

(** The ids of the notifications created in a trace. *)
Definition createdIds (effs : list Effect) : list string :=
  List.flat_map
    (λ e, match e with NotificationsCreate i _ _ => [i] | _ => [] end) effs.

Definition isTimeLog (e : Effect) : bool :=
  match e with HttpPostTime _ _ _ _ => true | _ => false end.

(** The thresholds with which a trace arms the idle detector. *)
Definition armings (effs : list Effect) : list Z :=
  List.flat_map
    (λ e, match e with IdleSetDetectionInterval s => [s] | _ => [] end) effs.

(** The due-today window of the glossary, from local midnight [t]. *)
Definition in_24h_window (t d : Z) : Prop := t ≤ d < t + 24 * 3600000.

(** The calendar day of [now] keeps the one UTC offset [off]: every local
    time of that day, 00:00:00.000 through 23:59:59.999, is read with
    [off], and [off] is in effect at every instant of the 24 hours that
    start at the day's local midnight. A daylight-saving change during the
    day rules this out, and so does one that skips the day's first hour. *)
Definition day_keeps_offset (tz : DateTime.TimeZone) (now off : Z) : Prop :=
  let midnight :=
    DateTime.MakeDate (DateTime.Day (DateTime.LocalTime tz now)) 0 in
  (∀ l, midnight ≤ l < midnight + DateTime.msPerDay →
        DateTime.LocalTZA tz l false = off)
  ∧ (∀ u, midnight - off ≤ u < midnight - off + DateTime.msPerDay →
        DateTime.LocalTZA tz u true = off).

(** A zone whose clocks jump from 00:00 to 01:00 at the start of
    2018-11-04: UTC-3 until 03:00 UTC of that day, UTC-2 after. *)
Definition midnight_change_zone : DateTime.TimeZone :=
  DateTime.shifting_zone (-10800000) (-7200000) 1541300400000.

(** A host in a zone that moves its clocks forward during the day: UTC-5
    until 2024-03-10 07:00 UTC, UTC-4 after; one team, whose task list is
    [tasks] whatever the query. *)
Definition spring_forward_host (tasks : list Task) : Background.Host :=
  {| Background.zone :=
       DateTime.shifting_zone (-18000000) (-14400000) 1710054000000;
     Background.remote :=
       {| Background.getUser := HttpOk "81";
          Background.getTeams :=
            HttpOk (Some [{| Background.team_id := "9001";
                             Background.team_name := "Home" |}]);
          Background.getTasks := λ _, HttpOk (Some tasks) |};
     Background.sync := None;
     Background.localRead := true;
     Background.localWrite := true |}.

(** Settings with the notification feature on and the given numbers. *)
Definition notifying_settings (minutes : Z) (idleMinutes : Z)
    : Background.Settings :=
  {| Background.features :=
       {| Background.overdue := false; Background.dueTime := true;
          Background.timeTracked := true; Background.completedCount := true;
          Background.grouping := false; Background.badge := true;
          Background.timeTracking := true; Background.snooze := true;
          Background.filters := true; Background.notifications := true;
          Background.idleDetection := Some true |};
     Background.notificationMinutes := minutes;
     Background.idleThresholdMinutes := Some idleMinutes |}.

(** A host in UTC with a stored key and the given settings. *)
Definition configured_host (cfg : Background.Settings) (tasks : list Task)
    : Background.Host :=
  {| Background.zone := DateTime.fixed_zone 0;
     Background.remote := Background.remote (spring_forward_host tasks);
     Background.sync :=
       Some {| Background.clickupApiKey := Some "pk_1";
               Background.settings := Some cfg |};
     Background.localRead := true;
     Background.localWrite := true |}.

(** The messages a trace sends to the other process, in order. *)
Definition sentMessages (effs : list Effect) : list Message :=
  List.flat_map (λ e, match e with SendMessage m => [m] | _ => [] end) effs.

(** The background state after the messages are delivered in order. *)
Definition deliver (h : Background.Host) (now : Z) (ms : list Message)
    (st : Background.State) : Background.State :=
  fold_left (λ st m, (Background.onMessage h now m st).1) ms st.

(** The badge texts a trace sets, in order. *)
Definition badgeTexts (effs : list Effect) : list Badge :=
  List.flat_map (λ e, match e with SetBadgeText b => [b] | _ => [] end) effs.

(** ** Popup script: list view, sorting, formatting, snoozing, loading *)

Module View.

(** A task object as the popup holds it: the task itself and the fields
    the list view reads. [priority] is [task.priority.priority] when the task
    has a priority; [isOverdue], [isCompleted] and [teamId] are attached by
    [loadTasks]. *)
Record Item := mkItem {
  task : Task;
  teamId : option string;
  priority : option string;
  time_estimate : option Z;
  statusType : option string;
  isOverdue : bool;
  isCompleted : bool
}.

(** The object literal [priorityOrder]. *)
Definition priorityOrder : list (string * Z) :=
  [("urgent", 0); ("high", 1); ("normal", 2); ("low", 3); ("null", 4)].

(** [(priorityOrder[aPriority] || 4)] with
    [aPriority = a.priority ? a.priority.priority : 'null']. *)
Definition priorityRank (a : Item) : Z :=
  let aPriority := default "null"%string (priority a) in
  match List.find (λ p, String.eqb p.1 aPriority) priorityOrder with
  | Some p => JS.or_num p.2 4
  | None => 4
  end.

(** A number as the due-time comparator meets it. *)
Inductive Num := Fin (z : Z) | Infinity | NaN.

(** [a.due_date ? parseInt(a.due_date, 10) : Infinity]. *)
Definition dueTime (a : Item) : Num :=
  if JS.truthy_str (due_date (task a))
  then match JS.parseInt_field (due_date (task a)) with
       | Some d => Fin d
       | None => NaN
       end
  else Infinity.

(** The sign of [aTime - bTime] as [sort] reads it: NaN counts as 0. *)
Definition compareNum (a b : Num) : Z :=
  match a, b with
  | Fin x, Fin y => x - y
  | Infinity, Fin _ => 1
  | Fin _, Infinity => -1
  | _, _ => 0
  end.

(** [a.time_estimate || 0]. *)
Definition estimate (a : Item) : Z :=
  match time_estimate a with
  | Some n => JS.or_num n 0
  | None => 0
  end.

(** [Array.prototype.sort] with a comparator: the stable sort. Each element
    goes before the first one that it does not follow. *)
Fixpoint insertBy (cmp : Item → Item → Z) (x : Item) (l : list Item)
    : list Item :=
  match l with
  | [] => [x]
  | y :: l' => if cmp x y <=? 0 then x :: l else y :: insertBy cmp x l'
  end.

Definition stableSort (cmp : Item → Item → Z) (l : list Item) : list Item :=
  foldr (insertBy cmp) [] l.

(** [sortTasks(tasks, sortBy)]; [localeCompare] is the host's collation. *)
Definition sortTasks (localeCompare : string → string → Z)
    (tasks : list Item) (sortBy : string) : list Item :=
  if String.eqb sortBy "priority"
  then stableSort (λ a b, priorityRank a - priorityRank b) tasks
  else if String.eqb sortBy "due-time"
  then stableSort (λ a b, compareNum (dueTime a) (dueTime b)) tasks
  else if String.eqb sortBy "estimate"
  then stableSort (λ a b, estimate b - estimate a) tasks
  else if String.eqb sortBy "name"
  then stableSort (λ a b, localeCompare (name (task a)) (name (task b))) tasks
  else tasks.

(** The tasks [renderTasks] shows: the workspace filter, then the sort. *)
Definition visibleTasks (localeCompare : string → string → Z)
    (selectedWorkspace sortBy : string) (tasks : list Item) : list Item :=
  let filteredTasks :=
    if String.eqb selectedWorkspace "all" then tasks
    else List.filter
           (λ t, match teamId t with
                 | Some w => String.eqb w selectedWorkspace
                 | None => false
                 end) tasks in
  sortTasks localeCompare filteredTasks sortBy.

(** [String(n).padStart(2, '0')]. *)
Definition padStart2 (s : string) : string :=
  match String.length s with
  | 0%nat => "00"
  | 1%nat => "0" +:+ s
  | _ => s
  end.

(** [formatTimer(ms)]; [String(n)] of an integer is its decimal notation. *)
Definition formatTimer (ms : Z) : string :=
  let seconds := ms / 1000 in
  let minutes := seconds / 60 in
  let hours := minutes / 60 in
  if 0 <? hours
  then pretty hours +:+ ":" +:+ padStart2 (pretty (Z.rem minutes 60))
       +:+ ":" +:+ padStart2 (pretty (Z.rem seconds 60))
  else pretty minutes +:+ ":" +:+ padStart2 (pretty (Z.rem seconds 60)).

(** [formatTimeEstimate(ms)]; [ms] is a number, [null] or [undefined]. *)
Definition formatTimeEstimate (ms : option Z) : option string :=
  if negb (JS.truthy ms) then None
  else
    let ms := default 0 ms in
    let hours := ms / 3600000 in
    let minutes := Z.rem ms 3600000 / 60000 in
    if (0 <? hours) && (0 <? minutes)
    then Some (pretty hours +:+ "h " +:+ pretty minutes +:+ "m")
    else if 0 <? hours then Some (pretty hours +:+ "h")
    else if 0 <? minutes then Some (pretty minutes +:+ "m")
    else None.

(** The total shown by [renderTasks] and [updateTaskCount]. *)
Definition totalEstimate (tasks : list Item) : option string :=
  formatTimeEstimate (Some (fold_left (λ sum t, sum + estimate t) tasks 0)).

End View.

(** The options page shows a stored number by assigning it to the input,
    only when it is truthy. *)
Definition shownNumber (n : Z) : option string :=
  if JS.truthy_num n then Some (pretty n) else None.

(** *** Snoozing *)

Module Snooze.

Import DateTime.

(** The civil calendar as far as [getDate] and [setDate] need it:
    [monthStart d] is the day number of the first day of the month that
    contains day [d] (ECMAScript, MakeDay and DateFromTime). *)
Record Calendar := { monthStart : Z → Z }.

(** The proleptic Gregorian calendar: day of the month of day number
    [day] (days since 1970-01-01), by the usual era decomposition. *)
Definition gregorianDate (day : Z) : Z :=
  let z := day + 719468 in
  let era := z / 146097 in
  let doe := z - era * 146097 in
  let yoe := (doe - doe / 1460 + doe / 36524 - doe / 146096) / 365 in
  let doy := doe - (365 * yoe + yoe / 4 - yoe / 100) in
  let mp := (5 * doy + 2) / 153 in
  doy - (153 * mp + 2) / 5 + 1.

Definition gregorian : Calendar :=
  {| monthStart := λ day, day - (gregorianDate day - 1) |}.

Definition TimeWithinDay (t : Z) : Z := t `mod` msPerDay.

(** [d.getDate()] on a Date whose time value is [t]. *)
Definition getDate (cal : Calendar) (tz : TimeZone) (t : Z) : Z :=
  let local := LocalTime tz t in
  Day local - monthStart cal (Day local) + 1.

(** [d.setDate(date)]: the new time value. *)
Definition setDate (cal : Calendar) (tz : TimeZone) (t date : Z) : Z :=
  let local := LocalTime tz t in
  UTC tz (MakeDate (monthStart cal (Day local) + date - 1)
            (TimeWithinDay local)).

(** The due date [snoozeTask] computes: [now] moved [days] days on, at
    9 AM. *)
Definition snoozedDueDate (cal : Calendar) (tz : TimeZone) (now days : Z) : Z :=
  let moved := setDate cal tz now (getDate cal tz now + days) in
  setHours tz moved 9 0 0 0.

(** The popup state that snoozing touches. *)
Record State := mkState {
  popup : Popup.State;
  currentSnoozeTaskId : option string
}.

(** Calls issued while snoozing: the due-date update, or a call of the
    common kind. *)
Inductive Call :=
| HttpPutDueDate (taskId : string) (due_date : Z)
| Host (e : Effect).

(** [openSnoozeModal(taskId, taskName)] and [closeSnoozeModal()]. *)
Definition openSnoozeModal (taskId : string) (st : State) : State :=
  {| popup := popup st; currentSnoozeTaskId := Some taskId |}.

Definition closeSnoozeModal (st : State) : State :=
  {| popup := popup st; currentSnoozeTaskId := None |}.

(** [snoozeTask(taskId, days)]: [updated] is the outcome of the request,
    [rendered] tells whether the task's element is in the document. *)
Definition snoozeTask (cal : Calendar) (tz : TimeZone) (now : Z)
    (updated : Reply unit) (rendered : bool) (taskId : option string)
    (days : Z) (st : State) : State * list Call :=
  if negb (JS.truthy_str taskId) then (st, [])
  else
    let id_ := default ""%string taskId in
    let request := [HttpPutDueDate id_ (snoozedDueDate cal tz now days)] in
    match updated with
    | Rejected =>
        (st, request ++ [Host (ConsoleError "Error snoozing task:");
                         Host (Alert "Failed to snooze task. Please try again.")])
    | _ =>
        if rendered
        then ({| popup :=
                   {| Popup.activeTimers := Popup.activeTimers (popup st);
                      Popup.allTasks :=
                        filter (λ t, id t ≠ id_) (Popup.allTasks (popup st)) |};
                 currentSnoozeTaskId := None |},
              request ++ [Host (RemoveTaskElement id_);
                          Host (SendMessage UPDATE_BADGE)])
        else (closeSnoozeModal st, request)
    end.

(** The handler of a snooze button: [snoozeTask(currentSnoozeTaskId, days)]. *)
Definition onSnoozeOption (cal : Calendar) (tz : TimeZone) (now : Z)
    (updated : Reply unit) (rendered : bool) (days : Z) (st : State)
    : State * list Call :=
  snoozeTask cal tz now updated rendered (currentSnoozeTaskId st) days st.

End Snooze.

(** *** Loading the tasks in the popup *)

Module Load.

Import DateTime View.

(** Outcome of [fetchAPI]: it throws an error that carries a message (a
    rejected fetch, ["API error: <status>"] for a response that is not ok, a
    body of the wrong shape), or yields what the caller reads from the
    body. *)
Inductive Api (A : Type) : Type :=
| Threw (message : string)
| Got (body : A).
Arguments Threw {A} message.
Arguments Got {A} body.

(** The remote task API as the popup sees it; the task query carries the
    [include_closed] flag besides the bounds. *)
Record Remote := mkRemote {
  getUser : Api string;
  getTeams : Api (option (list Background.Team));
  getSpaces : string → Api (option (list (string * string)));
  getTasks : Background.TaskQuery → bool → Api (option (list Item))
}.

(** The script-level state that [loadTasks] assigns. *)
Record State := mkState {
  teams : list Background.Team;
  spaces : gmap string string;
  allTasks : list Item
}.

(** What [loadTasks] does to the page and the host. *)
Inductive Call :=
| ShowLoading
| ShowError (message : string)
| LogError (what : string)
| LoadCompletedCount (userId : string) (todayStart todayEnd : Z)
| RenderTasks (tasks : list Item)
| UpdateBadge.

(** [err.message.includes('401')]. *)
Definition includes401 (message : string) : bool :=
  match String.index 0 "401" message with
  | Some _ => true
  | None => false
  end.

(** The message shown by the outer [catch]. *)
Definition failure (message : string) : list Call :=
  [ShowLoading; LogError "Error loading tasks:";
   ShowError (if includes401 message
              then "Invalid API key. Please check your settings."
              else "Failed to load tasks: " +:+ message)].

(** The space names collected for the breadcrumbs; a team whose spaces
    cannot be fetched is skipped. *)
Definition collectSpaces (r : Remote) (teams : list Background.Team)
    : gmap string string :=
  fold_left
    (λ spaces team,
       match getSpaces r (Background.team_id team) with
       | Got (Some found) =>
           fold_left (λ spaces space, <[space.1 := space.2]> spaces)
             found spaces
       | _ => spaces
       end) teams ∅.

(** The errors logged for the teams whose spaces, then whose tasks,
    cannot be fetched. *)
Definition teamErrors (r : Remote) (q : Background.Team → Background.TaskQuery)
    (includeCompleted : bool) (teams : list Background.Team) : list Call :=
  List.flat_map
    (λ team, match getSpaces r (Background.team_id team) with
             | Threw _ => [LogError "Error fetching spaces for team"]
             | Got _ => []
             end) teams
  ++ List.flat_map
       (λ team, match getTasks r (q team) includeCompleted with
                | Threw _ => [LogError "Error fetching tasks for team"]
                | Got _ => []
                end) teams.

(** The fields attached to a task that passed the filter. *)
Definition annotate (team : Background.Team) (start : Z) (t : Item) : Item :=
  {| task := Background.withTeamName team (task t);
     teamId := Some (Background.team_id team);
     priority := priority t;
     time_estimate := time_estimate t;
     statusType := statusType t;
     isOverdue := JS.lt (JS.parseInt_field (due_date (task t))) start;
     isCompleted :=
       match statusType t with
       | Some type => String.eqb type "closed"
       | None => false
       end |}.

(** The tasks one team contributes to the list. *)
Definition teamItems (r : Remote) (includeOverdue includeCompleted : bool)
    (start endMs : Z) (currentUserId : string) (team : Background.Team)
    : list Item :=
  match getTasks r
          (Background.taskQuery includeOverdue start endMs team currentUserId)
          includeCompleted with
  | Got (Some tasks) =>
      List.map (annotate team start)
        (List.filter
           (λ t, Background.dueFilter includeOverdue start endMs (task t))
           tasks)
  | _ => []
  end.

(** [loadTasks()]: [featureOverdue] and [featureCompletedCount] are the
    settings, [overdueChecked] and [completedChecked] the two toggles of the
    filter bar; [now] is the time value of [new Date()]. *)
Definition loadTasks (tz : TimeZone) (now : Z) (r : Remote)
    (featureOverdue featureCompletedCount overdueChecked completedChecked : bool)
    (st : State) : State * list Call :=
  match getUser r with
  | Threw message => (st, failure message)
  | Got currentUserId =>
      match getTeams r with
      | Threw message => (st, failure message)
      | Got teamsResponse =>
          let teams := default [] teamsResponse in
          match teams with
          | [] =>
              ({| teams := []; spaces := spaces st; allTasks := allTasks st |},
               [ShowLoading; ShowError "No workspaces found."])
          | _ =>
              let start := Background.todayStart tz now in
              let endMs := Background.todayEndMs tz now in
              let includeOverdue := featureOverdue || overdueChecked in
              let loaded :=
                List.flat_map
                  (teamItems r includeOverdue completedChecked start endMs
                     currentUserId) teams in
              ({| teams := teams; spaces := collectSpaces r teams;
                  allTasks := loaded |},
               [ShowLoading]
               ++ teamErrors r
                    (λ team, Background.taskQuery includeOverdue start endMs
                               team currentUserId) completedChecked teams
               ++ (if featureCompletedCount
                   then [LoadCompletedCount currentUserId start endMs]
                   else [])
               ++ [RenderTasks loaded; UpdateBadge])
          end
      end
  end.

End Load.

(** The popup and the background ask the same server: a task request of
    the popup that leaves closed tasks out is answered with the tasks the
    background gets for the same query, or both get nothing. *)
Definition sameAnswer (popup : Load.Api (option (list View.Item)))
    (background : Reply (option (list Task))) : Prop :=
  match popup, background with
  | Load.Got (Some items), HttpOk (Some tasks) =>
      tasks = List.map View.task items
  | Load.Got (Some _), _ | _, HttpOk (Some _) => False
  | _, _ => True
  end.

(** Reading a timer text: the number written by the leading digits of
    [s] ([acc] is the value read so far) and what follows it. *)
Fixpoint readNumber (acc : option Z) (s : string) : option Z * string :=
  match s with
  | String c s' =>
      match JS.digit_of c with
      | Some d => readNumber (Some (10 * default 0 acc + d)) s'
      | None => (acc, s)
      end
  | EmptyString => (acc, s)
  end.

(** The seconds a text of the form [m:ss] or [h:mm:ss] stands for. *)
Definition readTimer (s : string) : option Z :=
  match readNumber None s with
  | (Some a, String ":" s1) =>
      match readNumber None s1 with
      | (Some b, EmptyString) => Some (a * 60 + b)
      | (Some b, String ":" s2) =>
          match readNumber None s2 with
          | (Some c, EmptyString) => Some (a * 3600 + b * 60 + c)
          | _ => None
          end
      | _ => None
      end
  | _ => None
  end.

(** * Properties *)

(** Case analysis on the truthiness test of the number [n]. *)
Ltac case_truthy n :=
  unfold JS.truthy_num; destruct (Z.eqb_spec n 0); simpl.

Section EffectiveElapsed.

Lemma or_num_zero n : JS.or_num n 0 = n.
Proof. unfold JS.or_num. case_truthy n; lia. Qed.

Lemma truthy_Some p : p ≠ 0 → JS.truthy (Some p) = true.
Proof. intros Hp. simpl. by case_truthy p. Qed.

Lemma truthy_instant e p :
  pause_mark_ok e → pausedAt e = Some p → JS.truthy (pausedAt e) = true.
Proof.
  intros Hok Hp. rewrite Hp. apply truthy_Some.
  specialize (Hok p Hp). unfold instant in Hok. lia.
Qed.

(** On a running entry the elapsed time is the clamped difference. *)
Lemma elapsed_running now e :
  pausedAt e = None →
  Popup.getEffectiveElapsed now e
  = Z.max 0 (now - startTime e - pausedDuration e).
Proof.
  intros Hp. unfold Popup.getEffectiveElapsed. rewrite Hp, or_num_zero. done.
Qed.

(** On a paused entry the clock cancels out. *)
Lemma elapsed_paused now e p :
  pausedAt e = Some p → p ≠ 0 →
  Popup.getEffectiveElapsed now e
  = Z.max 0 (p - startTime e - pausedDuration e).
Proof.
  intros Hp Hnz. unfold Popup.getEffectiveElapsed.
  rewrite Hp, or_num_zero, truthy_Some by done. simpl. f_equal. lia.
Qed.

(** Persisting an entry and restoring it do not change what is read from
    it. *)
Lemma elapsed_toSave now e :
  Popup.getEffectiveElapsed now (Popup.toSave e)
  = Popup.getEffectiveElapsed now e.
Proof.
  unfold Popup.getEffectiveElapsed, Popup.toSave, JS.or_null. simpl.
  rewrite !or_num_zero. by destruct (JS.truthy (pausedAt e)) eqn:Ht; rewrite ?Ht.
Qed.

Lemma elapsed_restore now e :
  Popup.getEffectiveElapsed now (Popup.restore e)
  = Popup.getEffectiveElapsed now e.
Proof. apply elapsed_toSave. Qed.

Lemma elapsed_nonneg now e : 0 ≤ Popup.getEffectiveElapsed now e.
Proof. unfold Popup.getEffectiveElapsed. lia. Qed.

Lemma stopTimer_request_Some now endNow taskId st e :
  Popup.activeTimers st !! taskId = Some e →
  Popup.stopTimer_request now endNow taskId st
  = Some (Popup.clearIfSet e
          ++ [HttpPostTime taskId (Popup.getEffectiveElapsed now e)
                (startTime e) endNow]).
Proof. intros He. unfold Popup.stopTimer_request. by rewrite He. Qed.

End EffectiveElapsed.

(** C1. For every timer entry whose pause mark, when set, is a clock
    reading, and every instant [now] (in particular every [now] not before
    the start), [getEffectiveElapsed] equals
    [now - start_time - paused_duration - (paused_at set ? now - paused_at : 0)]
    clamped below at 0; and the duration carried by the time-log request
    that [stopTimer] issues for the entry is this same value. *)
Theorem effective_elapsed_formula (e : Timer) (now : Z) :
  pause_mark_ok e →
  startTime e ≤ now →
  Popup.getEffectiveElapsed now e = spec_effective_elapsed e now
  ∧ ∀ taskId st endNow,
      Popup.activeTimers st !! taskId = Some e →
      Popup.stopTimer_request now endNow taskId st
      = Some (Popup.clearIfSet e
              ++ [HttpPostTime taskId (spec_effective_elapsed e now)
                    (startTime e) endNow]).
Proof.
  intros Hok _.
  assert (Heq : Popup.getEffectiveElapsed now e = spec_effective_elapsed e now).
  { unfold spec_effective_elapsed. destruct (pausedAt e) as [p|] eqn:Hp.
    - specialize (Hok p Hp). unfold instant in Hok.
      rewrite (elapsed_paused now e p) by (done || lia). f_equal. lia.
    - rewrite elapsed_running by done. f_equal. lia. }
  split; [exact Heq|].
  intros taskId st endNow He.
  rewrite <- Heq. by apply stopTimer_request_Some.
Qed.

Lemma effective_elapsed_formula_witness :
  let e := {| startTime := 1000; pausedDuration := 200;
              pausedAt := Some 5000; intervalId := None |} in
  Popup.getEffectiveElapsed 9000 e = 3800
  ∧ spec_effective_elapsed e 9000 = 3800.
Proof.
  intros e.
  assert (Hok : pause_mark_ok e).
  { intros p Hp. injection Hp as <-. unfold instant. lia. }
  assert (Hle : startTime e ≤ 9000) by (simpl; lia).
  destruct (effective_elapsed_formula e 9000 Hok Hle) as [H _].
  split; [rewrite H|]; reflexivity.
Defined.

(** ** Starting, toggling and stopping *)

Section StartStop.

Lemma startTimer_entry now iid writeOk taskId st storage :
  Popup.activeTimers (Popup.startTimer now iid writeOk taskId st storage).1.1
    !! taskId
  = Some {| startTime := now; pausedDuration := 0; pausedAt := None;
            intervalId := Some iid |}.
Proof.
  unfold Popup.startTimer, Popup.persistTimerState.
  destruct writeOk; simpl; apply lookup_insert_eq.
Qed.

Lemma stopTimer_settle_removes logged writeOk taskId st storage :
  Popup.activeTimers
    (Popup.stopTimer_settle logged writeOk taskId st storage).1.1 !! taskId
  = None.
Proof.
  unfold Popup.stopTimer_settle, Popup.persistTimerState.
  destruct writeOk; simpl; apply lookup_delete_eq.
Qed.

Lemma stopTimer_removes now endNow logged writeOk taskId st storage :
  Popup.activeTimers
    (Popup.stopTimer now endNow logged writeOk taskId st storage).1.1
    !! taskId = None.
Proof.
  unfold Popup.stopTimer, Popup.stopTimer_request.
  destruct (Popup.activeTimers st !! taskId) as [e|] eqn:He; [|done].
  pose proof (stopTimer_settle_removes logged writeOk taskId st storage) as H.
  destruct (Popup.stopTimer_settle logged writeOk taskId st storage)
    as [[st' storage'] effs].
  exact H.
Qed.

(** What [stopTimer] leaves behind and issues when the entry exists. *)
Lemma stopTimer_unfold now endNow logged writeOk taskId st storage e :
  Popup.activeTimers st !! taskId = Some e →
  let timers := delete taskId (Popup.activeTimers st) in
  let saved := Popup.toSave <$> timers in
  Popup.stopTimer now endNow logged writeOk taskId st storage
  = ({| Popup.activeTimers := timers; Popup.allTasks := Popup.allTasks st |},
     if writeOk then Some saved else storage,
     (Popup.clearIfSet e
      ++ [HttpPostTime taskId (Popup.getEffectiveElapsed now e)
            (startTime e) endNow])
     ++ match logged with
        | Rejected => [ConsoleError "Error logging time:"]
        | _ => []
        end
     ++ (if writeOk
         then [StorageLocalSet saved]
         else [StorageLocalSet saved;
               ConsoleError "Error persisting timer state:"])
     ++ [SendMessage (Popup.timerStateMessage timers); LoadTasks]).
Proof.
  intros He timers saved.
  unfold Popup.stopTimer. rewrite (stopTimer_request_Some _ _ _ _ e He).
  unfold Popup.stopTimer_settle, Popup.persistTimerState.
  destruct writeOk; reflexivity.
Qed.

End StartStop.

(** C2, as stated, fails: with an entry for ["t1"] in the map, a second
    [startTimer] for ["t1"] replaces the entry (new start time, new interval
    id) and [toggleTimer] removes it; neither leaves it unchanged. *)
Lemma second_start_changes_entry :
  let st0 := {| Popup.activeTimers := ∅; Popup.allTasks := [] |} in
  let r1 := Popup.startTimer 1000 1 true "t1" st0 None in
  let r2 := Popup.startTimer 5000 2 true "t1" r1.1.1 r1.1.2 in
  let r3 := Popup.toggleTimer 5000 5000 2 (HttpOk ()) true "t1" r1.1.1 r1.1.2 in
  Popup.activeTimers r1.1.1 !! "t1"
  = Some {| startTime := 1000; pausedDuration := 0; pausedAt := None;
            intervalId := Some 1%nat |}
  ∧ Popup.activeTimers r2.1.1 !! "t1"
    = Some {| startTime := 5000; pausedDuration := 0; pausedAt := None;
              intervalId := Some 2%nat |}
  ∧ Popup.activeTimers r2.1.1 !! "t1" ≠ Popup.activeTimers r1.1.1 !! "t1"
  ∧ Popup.activeTimers r3.1.1 !! "t1" = None.
Proof.
  intros st0 r1 r2 r3.
  assert (H1 : Popup.activeTimers r1.1.1 !! "t1"
               = Some {| startTime := 1000; pausedDuration := 0;
                         pausedAt := None; intervalId := Some 1%nat |})
    by apply startTimer_entry.
  assert (H2 : Popup.activeTimers r2.1.1 !! "t1"
               = Some {| startTime := 5000; pausedDuration := 0;
                         pausedAt := None; intervalId := Some 2%nat |})
    by apply startTimer_entry.
  split; [exact H1|]. split; [exact H2|]. split.
  - rewrite H1, H2. discriminate.
  - unfold r3, Popup.toggleTimer. rewrite H1. apply stopTimer_removes.
Qed.

(** C2, amended. For a task id that already has an entry, [toggleTimer]
    (the only caller of [startTimer]) does not start a second timer: it runs
    [stopTimer], which issues the time-log request and removes the entry.
    [startTimer] is reached only when no entry exists; it then creates the
    entry with [start_time = now], [paused_duration = 0] and no pause mark,
    and hands the full map to storage. *)
Theorem toggle_guards_start (now endNow : Z) (iid : nat) (logged : Reply unit)
    (writeOk : bool) (taskId : string) (st : Popup.State) (storage : Storage) :
  (∀ e, Popup.activeTimers st !! taskId = Some e →
     Popup.toggleTimer now endNow iid logged writeOk taskId st storage
     = Popup.stopTimer now endNow logged writeOk taskId st storage
     ∧ Popup.activeTimers
         (Popup.toggleTimer now endNow iid logged writeOk taskId st storage).1.1
         !! taskId = None
     ∧ In (HttpPostTime taskId (Popup.getEffectiveElapsed now e)
             (startTime e) endNow)
          (Popup.toggleTimer now endNow iid logged writeOk taskId st storage).2)
  ∧ (Popup.activeTimers st !! taskId = None →
     let timers :=
       <[taskId := {| startTime := now; pausedDuration := 0;
                      pausedAt := None; intervalId := Some iid |}]>
         (Popup.activeTimers st) in
     Popup.toggleTimer now endNow iid logged writeOk taskId st storage
     = Popup.startTimer now iid writeOk taskId st storage
     ∧ Popup.activeTimers
         (Popup.toggleTimer now endNow iid logged writeOk taskId st storage).1.1
       = timers
     ∧ In (StorageLocalSet (Popup.toSave <$> timers))
          (Popup.toggleTimer now endNow iid logged writeOk taskId st storage).2).
Proof.
  split.
  - intros e He.
    assert (Ht : Popup.toggleTimer now endNow iid logged writeOk taskId st storage
                 = Popup.stopTimer now endNow logged writeOk taskId st storage).
    { unfold Popup.toggleTimer. by rewrite He. }
    rewrite Ht. split; [done|]. split; [apply stopTimer_removes|].
    rewrite (stopTimer_unfold _ _ _ _ _ _ _ e He). simpl.
    apply in_or_app. left. apply in_or_app. right. by left.
  - intros Hnone timers.
    assert (Ht : Popup.toggleTimer now endNow iid logged writeOk taskId st storage
                 = Popup.startTimer now iid writeOk taskId st storage).
    { unfold Popup.toggleTimer. by rewrite Hnone. }
    rewrite Ht. split; [done|].
    unfold Popup.startTimer, Popup.persistTimerState.
    destruct writeOk; simpl; (split; [done|]); right; by left.
Qed.

(** C3. For every timer entry, [stopTimer] removes the entry from the
    active-timers map and hands the map without it to storage whatever the
    outcome of the time-log request (rejected, error status or success);
    when the write succeeds the persisted map has no entry for the task
    either. The same holds from whatever state the popup is in when the
    request settles. *)
Theorem stop_removes_even_if_log_fails (now endNow : Z) (logged : Reply unit)
    (writeOk : bool) (taskId : string) (st : Popup.State) (storage : Storage)
    (e : Timer) :
  Popup.activeTimers st !! taskId = Some e →
  let r := Popup.stopTimer now endNow logged writeOk taskId st storage in
  let saved := Popup.toSave <$> delete taskId (Popup.activeTimers st) in
  Popup.activeTimers r.1.1 !! taskId = None
  ∧ Popup.activeTimers r.1.1 = delete taskId (Popup.activeTimers st)
  ∧ In (StorageLocalSet saved) r.2
  ∧ saved !! taskId = None
  ∧ (writeOk = true → r.1.2 = Some saved)
  ∧ ∀ st' storage',
      Popup.activeTimers
        (Popup.stopTimer_settle logged writeOk taskId st' storage').1.1
        !! taskId = None.
Proof.
  intros He r saved.
  split; [apply stopTimer_removes|].
  unfold r. rewrite (stopTimer_unfold _ _ _ _ _ _ _ e He). simpl.
  split; [done|]. split.
  - apply in_or_app. right. apply in_or_app. right.
    apply in_or_app. left. destruct writeOk; by left.
  - split; [subst saved; by rewrite lookup_fmap, lookup_delete_eq|].
    split; [by intros ->|].
    intros st' storage'. apply stopTimer_settle_removes.
Qed.

Lemma stop_removes_even_if_log_fails_witness :
  let e := {| startTime := 1000; pausedDuration := 0; pausedAt := None;
              intervalId := Some 7%nat |} in
  let st := {| Popup.activeTimers := {["t1" := e]}; Popup.allTasks := [] |} in
  Popup.activeTimers
    (Popup.stopTimer 9000 9000 Rejected true "t1" st (Some {["t1" := e]})).1.1
    !! "t1" = None.
Proof.
  intros e st.
  assert (He : Popup.activeTimers st !! "t1" = Some e) by apply lookup_singleton_eq.
  exact (proj1 (stop_removes_even_if_log_fails 9000 9000 Rejected true "t1" st
                  (Some {["t1" := e]}) e He)).
Defined.

(** ** Pausing and resuming *)

Section PauseResume.

Lemma pauseTimer_paused now e :
  JS.truthy (pausedAt e) = true → Background.pauseTimer now e = e.
Proof. intros H. unfold Background.pauseTimer. by rewrite H. Qed.

Lemma pauseTimer_running now e :
  JS.truthy (pausedAt e) = false →
  Background.pauseTimer now e
  = {| startTime := startTime e; pausedDuration := pausedDuration e;
       pausedAt := Some now; intervalId := intervalId e |}.
Proof. intros H. unfold Background.pauseTimer. by rewrite H. Qed.

Lemma resumeTimer_running now e :
  JS.truthy (pausedAt e) = false → Background.resumeTimer now e = e.
Proof. intros H. unfold Background.resumeTimer. by rewrite H. Qed.

Lemma resumeTimer_paused now e p :
  pausedAt e = Some p → p ≠ 0 →
  Background.resumeTimer now e
  = {| startTime := startTime e;
       pausedDuration := pausedDuration e + (now - p);
       pausedAt := None; intervalId := intervalId e |}.
Proof.
  intros Hp Hnz. unfold Background.resumeTimer.
  rewrite Hp, truthy_Some, or_num_zero by done. done.
Qed.

Lemma pauseTimer_twice now1 now2 e :
  now1 ≠ 0 →
  Background.pauseTimer now2 (Background.pauseTimer now1 e)
  = Background.pauseTimer now1 e.
Proof.
  intros Hnz. destruct (JS.truthy (pausedAt e)) eqn:Ht.
  - rewrite (pauseTimer_paused now1 e) by done. by apply pauseTimer_paused.
  - rewrite (pauseTimer_running now1) by done.
    apply pauseTimer_paused. simpl. by apply (truthy_Some now1).
Qed.

Lemma resumeTimer_twice now1 now2 e :
  Background.resumeTimer now2 (Background.resumeTimer now1 e)
  = Background.resumeTimer now1 e.
Proof.
  destruct (JS.truthy (pausedAt e)) eqn:Ht.
  - apply resumeTimer_running. unfold Background.resumeTimer. by rewrite Ht.
  - rewrite (resumeTimer_running now1 e) by done. by apply resumeTimer_running.
Qed.

Lemma pause_all_twice now1 now2 (timers : gmap string Timer) :
  now1 ≠ 0 →
  Background.pause_all now2 (Background.pause_all now1 timers)
  = Background.pause_all now1 timers.
Proof.
  intros Hnz. unfold Background.pause_all.
  rewrite <- map_fmap_compose. apply map_fmap_ext. intros k e _. simpl.
  by apply pauseTimer_twice.
Qed.

Lemma resume_all_twice now1 now2 (timers : gmap string Timer) :
  Background.resume_all now2 (Background.resume_all now1 timers)
  = Background.resume_all now1 timers.
Proof.
  unfold Background.resume_all.
  rewrite <- map_fmap_compose. apply map_fmap_ext. intros k e _. simpl.
  apply resumeTimer_twice.
Qed.

(** Pausing keeps the pause mark a clock reading. *)
Lemma pause_mark_ok_apply ev e :
  instant ev.2 → pause_mark_ok e → pause_mark_ok (applyIdle ev e).
Proof.
  intros Hi Hok. destruct ev as [s now]. simpl in Hi.
  assert (Hpause : pause_mark_ok (Background.pauseTimer now e)).
  { unfold Background.pauseTimer. destruct (JS.truthy (pausedAt e)); simpl; [done|].
    intros p Hp. simpl in Hp. by injection Hp as <-. }
  destruct s; unfold applyIdle; simpl; try done.
  unfold Background.resumeTimer. destruct (JS.truthy (pausedAt e)); [|done].
  intros p Hp. discriminate.
Qed.

Lemma pause_mark_ok_run evs e :
  Forall (λ ev, instant ev.2) evs → pause_mark_ok e →
  pause_mark_ok (runIdle evs e).
Proof.
  unfold runIdle. revert e.
  induction evs as [|ev evs IH]; intros e Hall Hok; simpl; [done|].
  inversion Hall; subst. apply IH; [done|]. by apply pause_mark_ok_apply.
Qed.

(** A state change at [now] does not move the elapsed time read at [now]. *)
Lemma applyIdle_continuous s now e :
  instant now → pause_mark_ok e →
  Popup.getEffectiveElapsed now (applyIdle (s, now) e)
  = Popup.getEffectiveElapsed now e.
Proof.
  unfold instant. intros Hi Hok.
  assert (Hpause : Popup.getEffectiveElapsed now (Background.pauseTimer now e)
                   = Popup.getEffectiveElapsed now e).
  { destruct (pausedAt e) as [p|] eqn:Hp.
    - rewrite pauseTimer_paused; [done|]. by apply (truthy_instant e p).
    - rewrite pauseTimer_running by (by rewrite Hp).
      rewrite (elapsed_paused now _ now) by (simpl; done || lia).
      rewrite elapsed_running by done. simpl. f_equal. }
  destruct s; unfold applyIdle; simpl; try done.
  destruct (pausedAt e) as [p|] eqn:Hp.
  - pose proof (Hok p Hp) as Hpos. unfold instant in Hpos.
    rewrite (resumeTimer_paused now e p) by (done || lia).
    rewrite elapsed_running by done.
    rewrite (elapsed_paused now e p) by (done || lia).
    simpl. f_equal. lia.
  - rewrite resumeTimer_running; [done|]. by rewrite Hp.
Qed.

(** The listener applies the per-entry change to every persisted entry. *)
Lemma onStateChanged_entries h now s st (timers : gmap string Timer) :
  Background.localRead h = true → Background.localWrite h = true →
  (Background.onStateChanged h now s st (Some timers)).1
  = Some (applyIdle (s, now) <$> timers).
Proof.
  intros Hr Hw. unfold Background.onStateChanged. rewrite Hr. simpl.
  case_bool_decide as Hsz.
  - apply map_size_empty_iff in Hsz. subst timers. simpl. by rewrite fmap_empty.
  - unfold Background.writeBack. rewrite Hw.
    destruct s; simpl; done.
Qed.

(** A repeated state report leaves the persisted map as the first one
    left it. *)
Lemma onStateChanged_repeated h now1 now2 s st (timers : gmap string Timer) :
  Background.localRead h = true → Background.localWrite h = true →
  now1 ≠ 0 →
  let storage1 := (Background.onStateChanged h now1 s st (Some timers)).1 in
  (Background.onStateChanged h now2 s st storage1).1 = storage1.
Proof.
  intros Hr Hw Hnz storage1. unfold storage1.
  rewrite (onStateChanged_entries h now1) by done.
  rewrite (onStateChanged_entries h now2) by done. f_equal.
  destruct s.
  - apply (resume_all_twice now1 now2).
  - by apply (pause_all_twice now1 now2).
  - by apply (pause_all_twice now1 now2).
Qed.

End PauseResume.

Section ElapsedOverTime.

Lemma elapsed_within_state now1 now2 e :
  pause_mark_ok e → now1 ≤ now2 →
  Popup.getEffectiveElapsed now1 e ≤ Popup.getEffectiveElapsed now2 e.
Proof.
  intros Hok Hle. destruct (pausedAt e) as [p|] eqn:Hp.
  - pose proof (Hok p Hp) as Hpos. unfold instant in Hpos.
    rewrite (elapsed_paused now1 e p), (elapsed_paused now2 e p) by (done || lia).
    lia.
  - rewrite !elapsed_running by done. lia.
Qed.

(** Read before, between and after a chronological sequence of state
    changes, the elapsed time never goes down. *)
Lemma elapsed_along_timeline evs : ∀ e now1 now2,
  pause_mark_ok e → Forall (λ ev, instant ev.2) evs →
  chronological now1 evs now2 →
  Popup.getEffectiveElapsed now1 e
  ≤ Popup.getEffectiveElapsed now2 (runIdle evs e).
Proof.
  induction evs as [|[s t] evs IH]; intros e now1 now2 Hok Hall Hchr.
  - simpl in *. by apply elapsed_within_state.
  - destruct Hchr as [Hlo Hrest]. simpl in Hlo, Hrest.
    inversion Hall as [|? ? Hi Hall']; subst. simpl in Hi.
    change (runIdle ((s, t) :: evs) e) with (runIdle evs (applyIdle (s, t) e)).
    transitivity (Popup.getEffectiveElapsed t e);
      [by apply elapsed_within_state|].
    rewrite <- (applyIdle_continuous s t e) by done.
    apply IH; [|done..]. by apply (pause_mark_ok_apply (s, t)).
Qed.

End ElapsedOverTime.

(** C4. For every timer entry and every sequence of pause/resume
    transitions applied to it (all marks being clock readings): while the
    resulting entry is running, the effective elapsed time is non-decreasing
    in [now]; while it is paused, it does not depend on [now]; a further
    transition at an instant leaves the value read at that instant unchanged;
    hence along any chronological sequence of transitions the value read
    never decreases. *)
Theorem elapsed_monotone_then_frozen (e : Timer)
    (evs : list (Background.IdleState * Z)) (now1 now2 : Z) :
  pause_mark_ok e →
  Forall (λ ev, instant ev.2) evs →
  now1 ≤ now2 →
  let e' := runIdle evs e in
  (pausedAt e' = None →
     Popup.getEffectiveElapsed now1 e' ≤ Popup.getEffectiveElapsed now2 e')
  ∧ (is_Some (pausedAt e') →
     Popup.getEffectiveElapsed now1 e' = Popup.getEffectiveElapsed now2 e')
  ∧ (∀ s now, instant now →
     Popup.getEffectiveElapsed now (applyIdle (s, now) e')
     = Popup.getEffectiveElapsed now e')
  ∧ (chronological now1 evs now2 →
     Popup.getEffectiveElapsed now1 e ≤ Popup.getEffectiveElapsed now2 e').
Proof.
  intros Hok Hall Hle e'.
  assert (Hok' : pause_mark_ok e') by (by apply pause_mark_ok_run).
  split; [intros _; by apply elapsed_within_state|].
  split.
  - intros [p Hp]. pose proof (Hok' p Hp) as Hpos. unfold instant in Hpos.
    rewrite (elapsed_paused now1 e' p), (elapsed_paused now2 e' p)
      by (done || lia). done.
  - split; [intros s now Hi; by apply applyIdle_continuous|].
    intros Hchr. by apply elapsed_along_timeline.
Qed.

Lemma elapsed_monotone_then_frozen_witness :
  let e := {| startTime := 1000; pausedDuration := 0; pausedAt := None;
              intervalId := None |} in
  let evs := [(Background.idle, 4000); (Background.active, 9000);
              (Background.locked, 12000)] in
  Popup.getEffectiveElapsed 13000 (runIdle evs e)
  = Popup.getEffectiveElapsed 20000 (runIdle evs e).
Proof.
  intros e evs.
  assert (Hok : pause_mark_ok e) by (intros p Hp; discriminate).
  assert (Hall : Forall (λ ev : Background.IdleState * Z, instant ev.2) evs).
  { repeat constructor. }
  assert (Hle : 13000 ≤ 20000) by lia.
  destruct (elapsed_monotone_then_frozen e evs 13000 20000 Hok Hall Hle)
    as (_ & Hfrozen & _).
  apply Hfrozen. by eexists.
Defined.

(** C5. Pausing and resuming are idempotent on every entry of the map
    (all marks being clock readings): [pause_all] leaves an entry whose pause
    mark is set unchanged, [resume_all] leaves an entry whose pause mark is
    unset unchanged; so a second [pause_all] after a [pause_all], and a
    second [resume_all] after a [resume_all], change nothing. *)
Theorem pause_resume_idempotent (timers : gmap string Timer) (now1 now2 : Z) :
  instant now1 →
  (∀ k e, timers !! k = Some e → pause_mark_ok e) →
  (∀ k e, timers !! k = Some e → is_Some (pausedAt e) →
     Background.pause_all now2 timers !! k = Some e)
  ∧ (∀ k e, timers !! k = Some e → pausedAt e = None →
     Background.resume_all now2 timers !! k = Some e)
  ∧ Background.pause_all now2 (Background.pause_all now1 timers)
    = Background.pause_all now1 timers
  ∧ Background.resume_all now2 (Background.resume_all now1 timers)
    = Background.resume_all now1 timers.
Proof.
  unfold instant. intros Hi Hok. unfold Background.pause_all, Background.resume_all.
  split.
  { intros k e Hk [p Hp]. rewrite lookup_fmap, Hk. simpl. f_equal.
    apply pauseTimer_paused. apply (truthy_instant e p); [by eapply Hok|done]. }
  split.
  { intros k e Hk Hp. rewrite lookup_fmap, Hk. simpl. f_equal.
    apply resumeTimer_running. by rewrite Hp. }
  split; [apply pause_all_twice; lia | apply resume_all_twice].
Qed.

Lemma pause_resume_idempotent_witness :
  let running := {| startTime := 1000; pausedDuration := 0; pausedAt := None;
                    intervalId := None |} in
  let paused := {| startTime := 2000; pausedDuration := 500;
                   pausedAt := Some 6000; intervalId := None |} in
  let timers : gmap string Timer := <["a" := running]> {["b" := paused]} in
  Background.pause_all 9000 (Background.pause_all 7000 timers)
  = Background.pause_all 7000 timers.
Proof.
  intros running paused timers.
  assert (Hi : instant 7000) by (unfold instant; lia).
  assert (Hok : ∀ k e, timers !! k = Some e → pause_mark_ok e).
  { intros k e Hk p Hp. unfold timers in Hk.
    apply lookup_insert_Some in Hk as [[_ <-]|[_ Hk]]; [discriminate|].
    apply lookup_singleton_Some in Hk as [_ <-].
    injection Hp as <-. unfold instant. lia. }
  exact (proj1 (proj2 (proj2 (pause_resume_idempotent timers 7000 9000 Hi Hok)))).
Defined.

(** ** The due-today window *)

Section DueToday.

Import DateTime Background.

Lemma parseInt_field_truthy v d :
  JS.parseInt_field v = Some d → JS.truthy_str v = true.
Proof. destruct v as [[|c s]|]; simpl; [discriminate|done|discriminate]. Qed.

(** The filter on a task whose due date parses to [d]. *)
Lemma dueFilter_numeric includeOverdue start endMs task d :
  JS.parseInt_field (due_date task) = Some d →
  dueFilter includeOverdue start endMs task = true
  ↔ if includeOverdue then d ≤ endMs else start ≤ d ≤ endMs.
Proof.
  intros Hd. unfold dueFilter.
  rewrite (parseInt_field_truthy _ _ Hd), Hd. simpl.
  destruct includeOverdue.
  - apply Z.leb_le.
  - rewrite andb_true_iff, !Z.leb_le. done.
Qed.

(** The filter rejects a task with no due date, an empty one, or one that
    does not parse. *)
Lemma dueFilter_true_numeric includeOverdue start endMs task :
  dueFilter includeOverdue start endMs task = true →
  ∃ d, JS.parseInt_field (due_date task) = Some d.
Proof.
  unfold dueFilter.
  destruct (JS.truthy_str (due_date task)); simpl; [|discriminate].
  destruct (JS.parseInt_field (due_date task)) as [d|]; [by eexists|].
  by destruct includeOverdue.
Qed.

(** Every task of the result was returned for some team and passed the
    filter, and conversely. *)
Lemma fetchTasksWithKey_In h now apiKey includeOverdue uid teams x :
  JS.truthy_str apiKey = true →
  getUser (remote h) = HttpOk uid →
  getTeams (remote h) = HttpOk (Some teams) →
  let start := todayStart (zone h) now in
  let endMs := todayEndMs (zone h) now in
  In x (fetchTasksWithKey h now apiKey includeOverdue)
  ↔ ∃ team tasks task,
      In team teams
      ∧ getTasks (remote h) (taskQuery includeOverdue start endMs team uid)
        = HttpOk (Some tasks)
      ∧ In task tasks
      ∧ dueFilter includeOverdue start endMs task = true
      ∧ x = withTeamName team task.
Proof.
  intros Hkey Hu Ht start endMs.
  unfold fetchTasksWithKey. rewrite Hkey, Hu, Ht. simpl.
  rewrite in_flat_map. fold start endMs. split.
  - intros (team & Hteam & Hx). unfold teamTasks in Hx.
    destruct (getTasks (remote h) _) as [| |[tasks|]] eqn:Hq; try done.
    apply in_map_iff in Hx as (task & <- & Hin).
    apply filter_In in Hin as [Hin Hf].
    by exists team, tasks, task.
  - intros (team & tasks & task & Hteam & Hq & Hin & Hf & ->).
    exists team. split; [done|]. unfold teamTasks. rewrite Hq.
    apply in_map. by apply filter_In.
Qed.

(** The result is empty without a key, a user or a list of teams. *)
Lemma fetchTasksWithKey_no_key h now includeOverdue apiKey :
  JS.truthy_str apiKey = false →
  fetchTasksWithKey h now apiKey includeOverdue = [].
Proof. intros H. unfold fetchTasksWithKey. by rewrite H. Qed.

(** In a zone with a constant offset the day that starts at local midnight
    ends 24 hours minus one millisecond later, and contains [now]. *)
Lemma fixed_zone_day off now :
  todayEndMs (fixed_zone off) now
  = todayStart (fixed_zone off) now + 24 * 3600000 - 1
  ∧ todayStart (fixed_zone off) now ≤ now
    < todayStart (fixed_zone off) now + 24 * 3600000.
Proof.
  unfold todayEndMs, todayStart, setHours, UTC, LocalTime, MakeDate, MakeTime,
    Day, msPerDay, msPerHour, msPerMinute, msPerSecond. simpl.
  replace ((now + off) `div` 86400000 * 86400000 + (0 * 3600000 + 0 * 60000 + 0 * 1000 + 0) - off + off)
    with ((now + off) `div` 86400000 * 86400000) by lia.
  rewrite Z.div_mul by lia.
  pose proof (Z.div_mod (now + off) 86400000 ltac:(lia)) as Hdm.
  pose proof (Z.mod_pos_bound (now + off) 86400000 ltac:(lia)) as Hb.
  lia.
Qed.

(** On a day that keeps one offset, the day that starts at local midnight
    ends 24 hours minus one millisecond later. *)
Lemma day_keeps_offset_day tz now off :
  day_keeps_offset tz now off →
  todayStart tz now = MakeDate (Day (LocalTime tz now)) 0 - off
  ∧ todayEndMs tz now = todayStart tz now + 24 * 3600000 - 1.
Proof.
  intros [Hlocal Hutc].
  set (day := Day (LocalTime tz now)) in *.
  assert (Hday : 0 < msPerDay) by (unfold msPerDay; lia).
  assert (Ht : todayStart tz now = MakeDate day 0 - off).
  { unfold todayStart, setHours, UTC. fold day.
    change (MakeTime 0 0 0 0) with 0.
    rewrite (Hlocal (MakeDate day 0)) by lia. done. }
  split; [exact Ht|].
  unfold todayEndMs, setHours, UTC. rewrite Ht.
  assert (Hlt : LocalTime tz (MakeDate day 0 - off) = MakeDate day 0).
  { unfold LocalTime. rewrite (Hutc (MakeDate day 0 - off)) by lia. lia. }
  rewrite Hlt.
  assert (Hd : Day (MakeDate day 0) = day).
  { unfold Day, MakeDate. rewrite Z.add_0_r. by apply Z.div_mul, Z.neq_sym, Z.lt_neq. }
  rewrite Hd.
  change (MakeTime 23 59 59 999) with 86399999.
  assert (Hl : MakeDate day 86399999 = MakeDate day 0 + 86399999)
    by (unfold MakeDate; lia).
  rewrite (Hlocal (MakeDate day 86399999))
    by (rewrite Hl; unfold msPerDay; lia).
  rewrite Hl. lia.
Qed.

(** Every day keeps its offset in a zone without changes. *)
Lemma fixed_zone_keeps_offset off now :
  day_keeps_offset (fixed_zone off) now off.
Proof. by split. Qed.

(** So does a day away from the change in a zone with daylight saving:
    2024-03-12, two days after the clocks moved to UTC-4. *)
Lemma ordinary_day_keeps_offset :
  day_keeps_offset (shifting_zone (-18000000) (-14400000) 1710054000000)
    1710262800000 (-14400000).
Proof.
  assert (Hm : MakeDate (Day (LocalTime
                 (shifting_zone (-18000000) (-14400000) 1710054000000)
                 1710262800000)) 0 = 1710201600000) by reflexivity.
  unfold day_keeps_offset. rewrite Hm. unfold msPerDay. simpl.
  split; intros x Hx.
  - destruct (Z.ltb_spec x (1710054000000 + Z.max (-18000000) (-14400000)));
      [lia|done].
  - destruct (Z.ltb_spec x 1710054000000); [lia|done].
Qed.

(** A day whose first hour is skipped is 23 hours long although one offset
    is in effect from its first to its last instant: on 2018-11-04 in
    [midnight_change_zone] the day starts at 01:00 local time. It does not
    keep its offset, because its midnight is read with the offset before
    the change. *)
Lemma day_without_its_first_hour :
  let tz := midnight_change_zone in
  let now := 1541343600000 in
  let t := todayStart tz now in
  let e := todayEndMs tz now in
  t = 1541300400000
  ∧ e = t + 23 * 3600000 - 1
  ∧ LocalTZA tz t true = -7200000
  ∧ LocalTZA tz e true = -7200000
  ∧ ¬ ∃ off, day_keeps_offset tz now off.
Proof.
  intros tz now t e.
  split; [reflexivity|]. split; [reflexivity|].
  split; [reflexivity|]. split; [reflexivity|].
  intros [off [Hlocal _]].
  assert (Hm : MakeDate (Day (LocalTime tz now)) 0 = 1541289600000)
    by reflexivity.
  rewrite Hm in Hlocal.
  pose proof (Hlocal 1541289600000 ltac:(unfold msPerDay; lia)) as H0.
  pose proof (Hlocal 1541375999999 ltac:(unfold msPerDay; lia)) as H1.
  vm_compute in H0, H1. lia.
Qed.

End DueToday.

(** C6, as stated, fails on a day that is not 24 hours long. On
    2024-03-10 in a zone that moves from UTC-5 to UTC-4 at 07:00 UTC, local
    midnight is [t = 1710046800000] and the day ends 23 hours later; a task
    due at [t + 23h30] lies in [[t, t+24h)] but is in neither result set. *)
Lemma short_day_excludes_task_within_24h :
  let task := {| id := "86a"; name := "Water the plants";
                 due_date := Some "1710131400000"; teamName := None |} in
  let h := spring_forward_host [task] in
  let now := 1710090000000 in
  let t := Background.todayStart (Background.zone h) now in
  t = 1710046800000
  ∧ Background.todayEndMs (Background.zone h) now = t + 23 * 3600000 - 1
  ∧ JS.parseInt_field (due_date task) = Some 1710131400000
  ∧ in_24h_window t 1710131400000
  ∧ Background.fetchTasksWithKey h now (Some "pk_1") false = []
  ∧ Background.fetchTasksWithKey h now (Some "pk_1") true = [].
Proof.
  intros task h now t.
  assert (Ht : t = 1710046800000) by reflexivity.
  split; [exact Ht|]. rewrite Ht.
  split; [reflexivity|]. split; [reflexivity|].
  split; [unfold in_24h_window; lia|].
  split; reflexivity.
Qed.

(** C6, amended. Let [t] be local midnight and [e] the instant of local
    23:59:59.999 of the same calendar day. For every task returned for one
    of the user's teams whose due date is the number [d]: without
    overdue-inclusion it is in the result iff [t ≤ d ≤ e], with
    overdue-inclusion iff [d ≤ e]; every task of the result has a due date
    that parses. On a day that keeps one offset ([day_keeps_offset]: no
    change during the day and none that skips its first hour), in whatever
    zone, [e = t + 24h - 1ms], so the window is [[t, t+24h)], respectively
    [d < t + 24h]. *)
Theorem due_today_window (h : Background.Host) (now : Z)
    (apiKey : option string) (includeOverdue : bool) (uid : string)
    (teams : list Background.Team) (team : Background.Team)
    (tasks : list Task) (task : Task) (d : Z) :
  let t := Background.todayStart (Background.zone h) now in
  let e := Background.todayEndMs (Background.zone h) now in
  JS.truthy_str apiKey = true →
  Background.getUser (Background.remote h) = HttpOk uid →
  Background.getTeams (Background.remote h) = HttpOk (Some teams) →
  In team teams →
  Background.getTasks (Background.remote h)
    (Background.taskQuery includeOverdue t e team uid) = HttpOk (Some tasks) →
  In task tasks →
  JS.parseInt_field (due_date task) = Some d →
  (In (Background.withTeamName team task)
      (Background.fetchTasksWithKey h now apiKey includeOverdue)
   ↔ if includeOverdue then d ≤ e else t ≤ d ≤ e)
  ∧ (∀ x, In x (Background.fetchTasksWithKey h now apiKey includeOverdue) →
       ∃ dx, JS.parseInt_field (due_date x) = Some dx
             ∧ if includeOverdue then dx ≤ e else t ≤ dx ≤ e)
  ∧ (∀ offset, day_keeps_offset (Background.zone h) now offset →
       e = t + 24 * 3600000 - 1
       ∧ (In (Background.withTeamName team task)
             (Background.fetchTasksWithKey h now apiKey includeOverdue)
          ↔ if includeOverdue then d < t + 24 * 3600000
            else in_24h_window t d)).
Proof.
  intros t e Hkey Hu Hteams Hteam Hq Hin Hd.
  assert (Hmem : In (Background.withTeamName team task)
                   (Background.fetchTasksWithKey h now apiKey includeOverdue)
                 ↔ if includeOverdue then d ≤ e else t ≤ d ≤ e).
  { rewrite (fetchTasksWithKey_In h now apiKey includeOverdue uid teams) by done.
    fold t e. rewrite <- (dueFilter_numeric includeOverdue t e task d Hd).
    split.
    - intros (team' & tasks' & task' & _ & _ & _ & Hf & Heq).
      assert (Hdue : due_date task = due_date task').
      { by apply (f_equal due_date) in Heq. }
      unfold Background.dueFilter in *. by rewrite Hdue.
    - intros Hf. by exists team, tasks, task. }
  split; [exact Hmem|]. split.
  - intros x Hx.
    apply (fetchTasksWithKey_In h now apiKey includeOverdue uid teams) in Hx;
      [|done..].
    destruct Hx as (team' & tasks' & task' & _ & _ & _ & Hf & ->).
    destruct (dueFilter_true_numeric _ _ _ _ Hf) as [dx Hdx].
    exists dx. split; [exact Hdx|].
    by apply (dueFilter_numeric includeOverdue _ _ task' dx Hdx).
  - intros offset Hz.
    destruct (day_keeps_offset_day _ _ _ Hz) as [_ He'].
    fold t e in He'.
    split; [exact He'|]. rewrite Hmem. unfold in_24h_window.
    destruct includeOverdue; lia.
Qed.

Lemma due_today_window_witness :
  let task := {| id := "86a"; name := "Water the plants";
                 due_date := Some "1710216000001"; teamName := None |} in
  let team := {| Background.team_id := "9001";
                 Background.team_name := "Home" |} in
  let h := spring_forward_host [task] in
  In (Background.withTeamName team task)
     (Background.fetchTasksWithKey h 1710262800000 (Some "pk_1") false)
  ↔ in_24h_window 1710216000000 1710216000001.
Proof.
  intros task team h.
  pose proof (due_today_window h 1710262800000 (Some "pk_1") false "81"
                [team] team [task] task 1710216000001
                eq_refl eq_refl eq_refl (or_introl eq_refl) eq_refl
                (or_introl eq_refl) eq_refl) as (_ & _ & Hday).
  exact (proj2 (Hday (-14400000) ordinary_day_keeps_offset)).
Defined.

(** ** Due-soon notifications *)

Section Notifications.

Import Background.

Lemma createdIds_app effs1 effs2 :
  createdIds (effs1 ++ effs2) = createdIds effs1 ++ createdIds effs2.
Proof. unfold createdIds. apply flat_map_app. Qed.

(** The two outcomes of one iteration of the notifying loop. *)
Lemma notifyStep_cases now before acc task :
  (due_soon now before task ∧ (id task ∉ acc.1)
   ∧ ∃ m, notifyStep now before acc task
          = ({[id task]} ∪ acc.1,
             acc.2 ++ [NotificationsCreate (id task) (name task) m]))
  ∨ (¬ (due_soon now before task ∧ (id task ∉ acc.1))
     ∧ notifyStep now before acc task = acc).
Proof.
  unfold notifyStep, due_soon.
  destruct (JS.truthy_str (due_date task)) eqn:Htr; simpl.
  2:{ right. split; [|done]. intros [(d & Hd & _) _].
      apply parseInt_field_truthy in Hd. congruence. }
  destruct (JS.parseInt_field (due_date task)) as [d|] eqn:Hd; simpl.
  2:{ right. split; [|done]. by intros [(d & Hd' & _) _]. }
  destruct (Z.ltb_spec 0 (d - now)) as [Hlo|Hlo]; simpl.
  2:{ right. split; [|done]. intros [(d' & Hd' & Hw) _].
      injection Hd' as <-. lia. }
  destruct (Z.leb_spec (d - now) before) as [Hhi|Hhi]; simpl.
  2:{ right. split; [|done]. intros [(d' & Hd' & Hw) _].
      injection Hd' as <-. lia. }
  case_bool_decide as Hin; simpl.
  - right. split; [|done]. by intros [_ Hn].
  - left. split; [by exists d|]. split; [done|]. by eexists.
Qed.

(** The notifying loop: what it adds to the trace and to the set. *)
Lemma notifyLoop_spec now before tasks : ∀ acc,
  ∃ created,
    (fold_left (notifyStep now before) tasks acc).2 = acc.2 ++ created
    ∧ (fold_left (notifyStep now before) tasks acc).1
      = acc.1 ∪ list_to_set (createdIds created)
    ∧ NoDup (createdIds created)
    ∧ ∀ i, (In i (createdIds created)
            ↔ (i ∉ acc.1)
              ∧ ∃ task, In task tasks ∧ id task = i
                        ∧ due_soon now before task).
Proof.
  induction tasks as [|task tasks IH]; intros acc.
  - exists []. simpl. rewrite app_nil_r. split; [done|].
    split; [by rewrite (right_id_L ∅ (∪))|]. split; [constructor|].
    intros i. split; [done|]. by intros (_ & t & [] & _).
  - simpl.
    destruct (notifyStep_cases now before acc task)
      as [(Hsoon & Hfresh & m & ->)|[Hno ->]].
    + destruct (IH ({[id task]} ∪ acc.1,
                    acc.2 ++ [NotificationsCreate (id task) (name task) m]))
        as (created & Htrace & Hset & Hnd & Hmem).
      simpl in *.
      exists (NotificationsCreate (id task) (name task) m :: created).
      split; [by rewrite Htrace, <- app_assoc|].
      split; [rewrite Hset; simpl; apply set_eq; intros i;
              rewrite !elem_of_union; tauto|].
      split.
      * simpl. constructor; [|done]. intros Hin.
        apply list_elem_of_In, Hmem in Hin as [Hni _].
        by apply Hni, elem_of_union_l, elem_of_singleton.
      * intros i. simpl. rewrite Hmem. split.
        -- intros [<-|(Hni & t & Hin & Hid & Hs)].
           ++ split; [done|]. exists task. by repeat split; try left.
           ++ split; [intros Hi; by apply Hni, elem_of_union_r|].
              exists t. by repeat split; try right.
        -- intros (Hni & t & [<-|Hin] & Hid & Hs); [by left|].
           destruct (decide (id task = i)) as [Heq|Hne]; [by left|].
           right. split; [|by exists t].
           intros [Hsing|Hacc]%elem_of_union; [|done].
           apply elem_of_singleton in Hsing. congruence.
    + destruct (IH acc) as (created & Htrace & Hset & Hnd & Hmem).
      exists created. split; [done|]. split; [done|]. split; [done|].
      intros i. rewrite Hmem. split.
      * intros (Hni & t & Hin & Hid & Hs). split; [done|].
        exists t. by repeat split; try right.
      * intros (Hni & t & [<-|Hin] & Hid & Hs).
        -- exfalso. apply Hno. split; [done|]. by rewrite Hid.
        -- split; [done|]. by exists t.
Qed.

(** The test of the cleaning loop, read back. *)
Lemma evicted_true_iff now tasks i :
  evicted now tasks i = true
  ↔ (List.find (λ t, String.eqb (id t) i) tasks = None
     ∨ ∃ task, List.find (λ t, String.eqb (id t) i) tasks = Some task
               ∧ past_due now task).
Proof.
  unfold evicted, past_due.
  destruct (List.find _ tasks) as [task|]; [|by split; [left|]].
  split.
  - intros H. apply andb_true_iff in H as [_ H]. right. exists task.
    split; [done|].
    destruct (JS.parseInt_field (due_date task)) as [d|]; [|done].
    exists d. split; [done|]. simpl in H. lia.
  - intros [|(t & Heq & d & Hd & Hlt)]; [done|]. injection Heq as <-.
    rewrite (parseInt_field_truthy _ _ Hd), Hd. simpl. lia.
Qed.

Lemma find_id_absent tasks i :
  (∀ task, In task tasks → id task ≠ i) →
  List.find (λ t, String.eqb (id t) i) tasks = None.
Proof.
  intros Habs. destruct (List.find _ tasks) as [t|] eqn:Hf; [|done].
  apply find_some in Hf as [Hin Heq]. apply String.eqb_eq in Heq.
  by destruct (Habs t Hin).
Qed.

(** With distinct ids, the task found for an id is the task with that id. *)
Lemma find_id_unique tasks task :
  NoDup (List.map id tasks) → In task tasks →
  List.find (λ t, String.eqb (id t) (id task)) tasks = Some task.
Proof.
  induction tasks as [|t tasks IH]; intros Hnd Hin; [done|].
  simpl in *. inversion Hnd as [|? ? Hni Hnd']; subst.
  destruct Hin as [->|Hin].
  - by rewrite String.eqb_refl.
  - destruct (String.eqb_spec (id t) (id task)) as [Heq|Hne]; [|by apply IH].
    exfalso. apply Hni, list_elem_of_In. rewrite Heq. by apply in_map.
Qed.

Lemma evicted_false_iff now tasks i :
  evicted now tasks i = false
  ↔ ∃ task, List.find (λ t, String.eqb (id t) i) tasks = Some task
            ∧ ¬ past_due now task.
Proof.
  rewrite <- not_true_iff_false, evicted_true_iff.
  destruct (List.find _ tasks) as [task|] eqn:Hf.
  - split.
    + intros Hn. exists task. split; [done|]. intros Hp. apply Hn. right.
      by exists task.
    + intros (t & Heq & Hn) [|(t' & Heq' & Hp)]; [done|]. congruence.
  - split; [intros Hn; destruct Hn; by left|]. by intros (t & Heq & _).
Qed.

Lemma notifyBeforeMs_minutes cfg :
  1 ≤ notificationMinutes cfg →
  notifyBeforeMs cfg = notificationMinutes cfg * 60000.
Proof.
  intros Hnm. unfold notifyBeforeMs, JS.or_num.
  case_truthy (notificationMinutes cfg); lia.
Qed.

(** The check when the feature is on and a key is stored. *)
Lemma checkDueNotifications_enabled h fetchNow now st s :
  sync h = Some s →
  JS.truthy_str (clickupApiKey s) = true →
  notifications (features (default defaultSettings (settings s))) = true →
  let tasks := fetchTasksWithKey h fetchNow (clickupApiKey s) false in
  let before := notifyBeforeMs (default defaultSettings (settings s)) in
  checkDueNotifications h fetchNow now st
  = ({| notifiedTasks :=
          sweep now tasks (notifyLoop now before tasks (notifiedTasks st)).1;
        isTimerRecording := isTimerRecording st |},
     (notifyLoop now before tasks (notifiedTasks st)).2).
Proof.
  intros Hs Hkey Hon tasks before. unfold checkDueNotifications.
  rewrite Hs, Hkey, Hon. simpl. fold tasks before.
  unfold notificationTick.
  by destruct (notifyLoop now before tasks (notifiedTasks st)).
Qed.

(** No check ever notifies an id that is already in the set. *)
Lemma created_are_fresh h fetchNow now st i :
  In i (createdIds (checkDueNotifications h fetchNow now st).2) →
  i ∉ notifiedTasks st.
Proof.
  destruct (sync h) as [s|] eqn:Hs.
  2:{ unfold checkDueNotifications. rewrite Hs. simpl. done. }
  destruct (JS.truthy_str (clickupApiKey s)) eqn:Hkey.
  2:{ unfold checkDueNotifications. rewrite Hs, Hkey. simpl. done. }
  destruct (notifications (features (default defaultSettings (settings s))))
    eqn:Hon.
  2:{ unfold checkDueNotifications. rewrite Hs, Hkey, Hon. simpl. done. }
  rewrite (checkDueNotifications_enabled h fetchNow now st s) by done. simpl.
  unfold notifyLoop.
  destruct (notifyLoop_spec now
              (notifyBeforeMs (default defaultSettings (settings s)))
              (fetchTasksWithKey h fetchNow (clickupApiKey s) false)
              (notifiedTasks st, []))
    as (created & Htrace & _ & _ & Hmem).
  rewrite Htrace. simpl. intros Hin. by apply Hmem in Hin as [Hni _].
Qed.

End Notifications.

(** C7. On a notification tick (feature on, key stored,
    [notification_minutes ≥ 1]) over the fetched due-today tasks: a
    notification is created for exactly the ids that are not in the
    notified set and have a fetched task due within
    [(0, notification_minutes * 60000]] ms of [now], once each; each of these
    ids is added to the set; the set is then swept, keeping an id only if a
    fetched task has it and that task is not past due, so every id whose
    task is absent or past due is evicted. With distinct task ids, an id
    notified on this tick stays in the set, and no later tick, whatever it
    fetches, notifies it again while it is there. *)
Theorem notification_tick_exact_and_deduplicated (h : Background.Host)
    (fetchNow now : Z) (st : Background.State) (s : Background.SyncStorage) :
  let cfg := default Background.defaultSettings (Background.settings s) in
  let tasks :=
    Background.fetchTasksWithKey h fetchNow (Background.clickupApiKey s) false in
  let before := Background.notificationMinutes cfg * 60000 in
  let r := Background.checkDueNotifications h fetchNow now st in
  Background.sync h = Some s →
  JS.truthy_str (Background.clickupApiKey s) = true →
  Background.notifications (Background.features cfg) = true →
  1 ≤ Background.notificationMinutes cfg →
  (∀ i, In i (createdIds r.2)
        ↔ (i ∉ Background.notifiedTasks st)
          ∧ ∃ task, In task tasks ∧ id task = i ∧ due_soon now before task)
  ∧ NoDup (createdIds r.2)
  ∧ (∀ i, i ∈ Background.notifiedTasks r.1
          ↔ (i ∈ Background.notifiedTasks st ∨ In i (createdIds r.2))
            ∧ ∃ task,
                List.find (λ t, String.eqb (id t) i) tasks = Some task
                ∧ ¬ past_due now task)
  ∧ (∀ i, (∀ task, In task tasks → id task ≠ i) →
          i ∉ Background.notifiedTasks r.1)
  ∧ (NoDup (List.map id tasks) →
     (∀ task, In task tasks → past_due now task →
              id task ∉ Background.notifiedTasks r.1)
     ∧ ∀ i, In i (createdIds r.2) →
            i ∈ Background.notifiedTasks r.1
            ∧ ∀ h' fetchNow' now',
                ¬ In i (createdIds
                          (Background.checkDueNotifications h' fetchNow' now'
                             r.1).2)).
Proof.
  intros cfg tasks before r Hs Hkey Hon Hnm.
  assert (Hr : r = ({| Background.notifiedTasks :=
                         Background.sweep now tasks
                           (Background.notifyLoop now before tasks
                              (Background.notifiedTasks st)).1;
                       Background.isTimerRecording :=
                         Background.isTimerRecording st |},
                    (Background.notifyLoop now before tasks
                       (Background.notifiedTasks st)).2)).
  { unfold r. rewrite (checkDueNotifications_enabled h fetchNow now st s) by done.
    fold cfg tasks. by rewrite (notifyBeforeMs_minutes cfg Hnm). }
  destruct (notifyLoop_spec now before tasks (Background.notifiedTasks st, []))
    as (created & Htrace & Hset & Hnd & Hmem).
  simpl in Htrace, Hset, Hmem.
  assert (Hr2 : r.2 = created) by (by rewrite Hr).
  assert (Hr1 : ∀ i, i ∈ Background.notifiedTasks r.1
                     ↔ (i ∈ Background.notifiedTasks st ∨ In i (createdIds r.2))
                       ∧ Background.evicted now tasks i = false).
  { intros i. rewrite Hr2, Hr. simpl. unfold Background.sweep.
    rewrite elem_of_filter. unfold Background.notifyLoop. rewrite Hset.
    rewrite elem_of_union, elem_of_list_to_set, list_elem_of_In. tauto. }
  split; [intros i; rewrite Hr2; apply Hmem|].
  split; [by rewrite Hr2|].
  split; [intros i; by rewrite Hr1, evicted_false_iff|].
  split.
  { intros i Habs Hin. apply Hr1 in Hin as [_ Hev].
    apply evicted_false_iff in Hev as (task & Hf & _).
    by rewrite (find_id_absent tasks i Habs) in Hf. }
  intros Huniq. split.
  - intros task Hin Hpast Hmemb. apply Hr1 in Hmemb as [_ Hev].
    apply evicted_false_iff in Hev as (task' & Hf & Hnp).
    rewrite (find_id_unique tasks task Huniq Hin) in Hf. by injection Hf as <-.
  - intros i Hin.
    assert (Hkept : i ∈ Background.notifiedTasks r.1).
    { apply Hr1. split; [by right|].
      rewrite Hr2 in Hin. apply Hmem in Hin as (_ & task & Hint & <- & Hsoon).
      apply evicted_false_iff. exists task.
      split; [by apply find_id_unique|].
      destruct Hsoon as (d & Hd & Hw). intros (d' & Hd' & Hlt).
      rewrite Hd in Hd'. injection Hd' as <-. lia. }
    split; [exact Hkept|].
    intros h' fetchNow' now' Hagain.
    by apply created_are_fresh in Hagain.
Qed.

Lemma notification_tick_exact_and_deduplicated_witness :
  let task := {| id := "86a"; name := "Water the plants";
                 due_date := Some "1710090600000"; teamName := None |} in
  let h := configured_host (notifying_settings 15 1) [task] in
  let st := {| Background.notifiedTasks := ∅;
               Background.isTimerRecording := false |} in
  let r := Background.checkDueNotifications h 1710090000000 1710090000000 st in
  In "86a" (createdIds r.2)
  ∧ ¬ In "86a" (createdIds
                  (Background.checkDueNotifications h 1710090060000
                     1710090060000 r.1).2).
Proof.
  intros task h st r.
  pose proof (notification_tick_exact_and_deduplicated h 1710090000000
                1710090000000 st
                {| Background.clickupApiKey := Some "pk_1";
                   Background.settings := Some (notifying_settings 15 1) |}
                eq_refl eq_refl eq_refl ltac:(simpl; lia))
    as (Hexact & _ & _ & _ & Hdedup).
  assert (Hfired : In "86a" (createdIds r.2)).
  { apply Hexact. split; [apply not_elem_of_empty|].
    exists {| id := "86a"; name := "Water the plants";
              due_date := Some "1710090600000"; teamName := Some "Home" |}.
    split; [by left|]. split; [done|].
    exists 1710090600000. split; [reflexivity|]. simpl. lia. }
  split; [exact Hfired|].
  assert (Huniq : NoDup (List.map id
                    (Background.fetchTasksWithKey h 1710090000000
                       (Some "pk_1") false))).
  { apply NoDup_singleton. }
  exact (proj2 (proj2 (Hdedup Huniq) "86a" Hfired) h 1710090060000 1710090060000).
Defined.

(** ** Completing a task *)

Section Completion.

Lemma persistTimerState_no_log writeOk timers storage :
  Forall (λ e, isTimeLog e = false)
    (Popup.persistTimerState writeOk timers storage).2.
Proof.
  unfold Popup.persistTimerState. destruct writeOk; simpl; repeat constructor.
Qed.

Lemma clearIfSet_no_log timer :
  Forall (λ e, isTimeLog e = false) (Popup.clearIfSet timer).
Proof.
  unfold Popup.clearIfSet. destruct (intervalId timer) as [[|n]|];
    repeat constructor.
Qed.

End Completion.

(** C8, on the code. [completeTask] never issues a time-log request: with
    a running timer and a settled status update it clears the interval,
    deletes the entry, persists the map and notifies the background, and the
    accrued time is dropped; for the same entry [stopTimer] does issue the
    request. At the concrete input below the trace is the one shown. *)
Theorem completeTask_drops_elapsed_time :
  (∀ closed writeOk taskId st storage,
     Forall (λ e, isTimeLog e = false)
       (Popup.completeTask closed writeOk taskId st storage).2)
  ∧ (let e := {| startTime := 1000; pausedDuration := 0; pausedAt := None;
                 intervalId := Some 7%nat |} in
     let st := {| Popup.activeTimers := {["t1" := e]};
                  Popup.allTasks :=
                    [{| id := "t1"; name := "Water the plants";
                        due_date := Some "1710090600000";
                        teamName := Some "Home" |}] |} in
     Popup.completeTask (HttpOk ()) true "t1" st (Some {["t1" := e]})
     = ({| Popup.activeTimers := ∅; Popup.allTasks := [] |}, Some ∅,
        [HttpPutStatus "t1" "closed"; ClearInterval 7;
         StorageLocalSet ∅; SendMessage TIMER_STOPPED;
         RemoveTaskElement "t1"; SendMessage UPDATE_BADGE])
     ∧ (Popup.stopTimer 61000 61000 (HttpOk ()) true "t1" st
          (Some {["t1" := e]})).2
       = [ClearInterval 7; HttpPostTime "t1" 60000 1000 61000;
          StorageLocalSet ∅; SendMessage TIMER_STOPPED; LoadTasks]).
Proof.
  split.
  - intros closed writeOk taskId st storage. unfold Popup.completeTask.
    destruct closed; simpl; [repeat constructor| |].
    all: destruct (Popup.activeTimers st !! taskId) as [timer|];
      [|repeat constructor].
    all: pose proof (persistTimerState_no_log writeOk
                       (delete taskId (Popup.activeTimers st)) storage) as Hp.
    all: destruct (Popup.persistTimerState writeOk
                     (delete taskId (Popup.activeTimers st)) storage)
           as [storage' saved]; simpl in *.
    all: constructor; [done|].
    all: repeat (apply Forall_app; split); try done;
           [apply clearIfSet_no_log | repeat constructor..].
  - split; vm_compute; reflexivity.
Qed.

(** ** Arming the idle detector *)

Section IdleThreshold.

Import Background.

Lemma armings_app effs1 effs2 :
  armings (effs1 ++ effs2) = armings effs1 ++ armings effs2.
Proof. unfold armings. apply flat_map_app. Qed.

Lemma armings_updateBadgeCount h now st : armings (updateBadgeCount h now st) = [].
Proof.
  unfold updateBadgeCount, showRecordingBadge.
  destruct (isTimerRecording st); [done|].
  destruct (sync h) as [s|]; [|done].
  destruct (negb _ || negb _); [done|].
  by case_bool_decide.
Qed.

Lemma armings_checkPersistedTimers h now st storage :
  armings (checkPersistedTimers h now st storage).2 = [].
Proof.
  unfold checkPersistedTimers.
  destruct (localRead h); simpl; [|apply armings_updateBadgeCount].
  case_bool_decide; simpl; [done|apply armings_updateBadgeCount].
Qed.

Lemma armings_notifyLoop now before tasks : ∀ acc,
  armings acc.2 = [] →
  armings (fold_left (notifyStep now before) tasks acc).2 = [].
Proof.
  induction tasks as [|task tasks IH]; intros acc Hacc; [done|].
  simpl. apply IH.
  destruct (notifyStep_cases now before acc task) as [(_ & _ & m & ->)|[_ ->]];
    [|done].
  simpl. by rewrite armings_app, Hacc.
Qed.

Lemma armings_checkDueNotifications h fetchNow now st :
  armings (checkDueNotifications h fetchNow now st).2 = [].
Proof.
  unfold checkDueNotifications.
  destruct (sync h) as [s|]; [|done].
  destruct (negb _ || negb _); [done|].
  unfold notificationTick.
  pose proof (armings_notifyLoop now
                (notifyBeforeMs (default defaultSettings (settings s)))
                (fetchTasksWithKey h fetchNow (clickupApiKey s) false)
                (notifiedTasks st, []) eq_refl) as Hloop.
  fold (notifyLoop now (notifyBeforeMs (default defaultSettings (settings s)))
          (fetchTasksWithKey h fetchNow (clickupApiKey s) false)
          (notifiedTasks st)) in Hloop.
  by destruct (notifyLoop _ _ _ _).
Qed.

Lemma armings_onStateChanged h now s st storage :
  armings (onStateChanged h now s st storage).2 = [].
Proof.
  unfold onStateChanged, writeBack, showRecordingBadge.
  destruct (localRead h); simpl; [|done].
  case_bool_decide; [done|].
  destruct s, (localWrite h), (isTimerRecording st); done.
Qed.

End IdleThreshold.

(** C9, on the code. The background script arms the idle detector with
    the constant 60 seconds on install and on startup, whatever
    [idle_threshold_minutes] the stored settings hold, and no other handler
    (settings-changed message included) re-arms it. With a stored threshold
    of 5 minutes the detector is armed with 60 seconds, not 300. *)
Theorem idle_detector_ignores_setting :
  (∀ h now fetchNow st storage message alarm newState,
     armings (Background.onInstalled h now st storage).2 = [60]
     ∧ armings (Background.onStartup h now st storage).2 = [60]
     ∧ armings (Background.onMessage h now message st).2 = []
     ∧ armings (Background.onAlarm h fetchNow now alarm st).2 = []
     ∧ armings (Background.onStateChanged h now newState st storage).2 = [])
  ∧ (let cfg := notifying_settings 15 (Options.validIdleThreshold "5") in
     let h := configured_host cfg [] in
     let st := {| Background.notifiedTasks := ∅;
                  Background.isTimerRecording := false |} in
     Background.idleThresholdMinutes cfg = Some 5
     ∧ armings (Background.onInstalled h 1710090000000 st None).2 = [60]
     ∧ (Background.onMessage h 1710090000000 SETTINGS_UPDATED st).2
       = [SetBadgeText BadgeBlank]).
Proof.
  split.
  - intros h now fetchNow st storage message alarm newState.
    split.
    { unfold Background.onInstalled.
      pose proof (armings_checkPersistedTimers h now st storage) as Hc.
      destruct (Background.checkPersistedTimers h now st storage) as [st' effs].
      simpl in *. by rewrite Hc. }
    split.
    { unfold Background.onStartup.
      pose proof (armings_checkPersistedTimers h now st storage) as Hc.
      destruct (Background.checkPersistedTimers h now st storage) as [st' effs].
      simpl in *. by rewrite Hc. }
    split.
    { destruct message; simpl; try apply armings_updateBadgeCount; try done.
      by destruct (Background.fetchTasks h now). }
    split.
    { unfold Background.onAlarm.
      destruct (String.eqb alarm "updateBadge"); simpl;
        [apply armings_updateBadgeCount|].
      destruct (String.eqb alarm "checkNotifications"); simpl;
        [apply armings_checkDueNotifications|done]. }
    apply armings_onStateChanged.
  - split; [reflexivity|]. split; vm_compute; reflexivity.
Qed.

(** ** What the time-log request carries *)

Section LoggedDuration.

Lemma timer_ok_start now iid :
  timer_ok now {| startTime := now; pausedDuration := 0; pausedAt := None;
                  intervalId := Some iid |}.
Proof. unfold timer_ok. simpl. lia. Qed.

Lemma timer_ok_later now now' e : timer_ok now e → now ≤ now' → timer_ok now' e.
Proof.
  unfold timer_ok. intros [Hpd Hp] Hle. split; [done|].
  destruct (pausedAt e); lia.
Qed.

(** A state change at a later instant keeps the entry consistent. *)
Lemma timer_ok_apply now s t e :
  timer_ok now e → now ≤ t → timer_ok t (applyIdle (s, t) e).
Proof.
  unfold timer_ok. intros [Hpd Hp] Hle.
  assert (Hpause : 0 ≤ pausedDuration (Background.pauseTimer t e)
                   ∧ match pausedAt (Background.pauseTimer t e) with
                     | Some p => startTime (Background.pauseTimer t e)
                                 + pausedDuration (Background.pauseTimer t e) ≤ p
                                 ∧ p ≤ t
                     | None => startTime (Background.pauseTimer t e)
                               + pausedDuration (Background.pauseTimer t e) ≤ t
                     end).
  { unfold Background.pauseTimer.
    destruct (pausedAt e) as [p|] eqn:Hpa; simpl.
    - case_truthy p; [|rewrite Hpa]; lia.
    - lia. }
  destruct s; unfold applyIdle; simpl; try exact Hpause.
  unfold Background.resumeTimer.
  destruct (pausedAt e) as [p|] eqn:Hpa; simpl.
  - case_truthy p; [rewrite Hpa|rewrite or_num_zero]; lia.
  - rewrite Hpa. lia.
Qed.

(** Every entry reached from [startTimer] through a chronological sequence
    of state changes is consistent. *)
Lemma timer_ok_run evs : ∀ e now1 now2,
  timer_ok now1 e → chronological now1 evs now2 →
  timer_ok now2 (runIdle evs e).
Proof.
  induction evs as [|[s t] evs IH]; intros e now1 now2 Hok Hchr.
  - simpl in *. by apply (timer_ok_later now1).
  - destruct Hchr as [Hlo Hrest]. simpl in Hlo, Hrest.
    change (runIdle ((s, t) :: evs) e) with (runIdle evs (applyIdle (s, t) e)).
    apply (IH _ t); [|done]. by apply (timer_ok_apply now1).
Qed.


End LoggedDuration.



Lemma toggle_guards_start_witness :
  let e := {| startTime := 1000; pausedDuration := 0; pausedAt := None;
              intervalId := Some 7%nat |} in
  let st := {| Popup.activeTimers := {["t1" := e]}; Popup.allTasks := [] |} in
  Popup.toggleTimer 5000 5000 8 (HttpOk ()) true "t1" st None
  = Popup.stopTimer 5000 5000 (HttpOk ()) true "t1" st None.
Proof.
  intros e st.
  assert (He : Popup.activeTimers st !! "t1" = Some e) by apply lookup_singleton_eq.
  exact (proj1 (proj1 (toggle_guards_start 5000 5000 8 (HttpOk ()) true "t1"
                         st None) e He)).
Defined.

(** * Further properties of the code *)

(** ** The timer map in the popup *)

Section TimerMap.

Lemma persistTimerState_sends_nothing writeOk timers storage :
  sentMessages (Popup.persistTimerState writeOk timers storage).2 = [].
Proof. unfold Popup.persistTimerState. by destruct writeOk. Qed.

Lemma sentMessages_app effs1 effs2 :
  sentMessages (effs1 ++ effs2) = sentMessages effs1 ++ sentMessages effs2.
Proof. unfold sentMessages. apply flat_map_app. Qed.

Lemma clearIfSet_sends_nothing timer :
  sentMessages (Popup.clearIfSet timer) = [].
Proof. unfold Popup.clearIfSet. by destruct (intervalId timer) as [[|n]|]. Qed.

Lemma startTimer_unfold now iid writeOk taskId st storage :
  let timers :=
    <[taskId := {| startTime := now; pausedDuration := 0; pausedAt := None;
                   intervalId := Some iid |}]> (Popup.activeTimers st) in
  let saved := Popup.toSave <$> timers in
  Popup.startTimer now iid writeOk taskId st storage
  = ({| Popup.activeTimers := timers; Popup.allTasks := Popup.allTasks st |},
     if writeOk then Some saved else storage,
     [SetInterval iid]
     ++ (if writeOk
         then [StorageLocalSet saved]
         else [StorageLocalSet saved;
               ConsoleError "Error persisting timer state:"])
     ++ [SendMessage TIMER_STARTED]).
Proof.
  intros timers saved. unfold Popup.startTimer, Popup.persistTimerState.
  by destruct writeOk.
Qed.

Lemma toSave_idempotent e : Popup.toSave (Popup.toSave e) = Popup.toSave e.
Proof.
  unfold Popup.toSave, JS.or_null. simpl. rewrite !or_num_zero. f_equal.
  destruct (JS.truthy (pausedAt e)) eqn:Ht; [by rewrite Ht|done].
Qed.

Lemma timerStateMessage_nonempty (timers : gmap string Timer) :
  Popup.timerStateMessage timers
  = if bool_decide (timers = ∅) then TIMER_STOPPED else TIMER_STARTED.
Proof.
  unfold Popup.timerStateMessage.
  destruct (decide (timers = ∅)) as [->|Hne].
  - rewrite map_size_empty. by rewrite bool_decide_eq_false_2 by lia.
  - rewrite (bool_decide_eq_false_2 (timers = ∅)) by done.
    assert (size timers ≠ 0%nat) by (by intros ?%map_size_empty_iff).
    by rewrite bool_decide_eq_true_2 by lia.
Qed.

End TimerMap.

(** X1. In the popup's own map [startTimer] and [stopTimer] change only the
    entry of their task, and [stopTimer] for a task that has no entry does
    nothing at all (no request, no write, no message). The persisted map is
    not updated entry by entry: each call writes the popup's whole map, so
    after a successful write the store holds exactly the popup's entries,
    and the persisted entry of every other task is the popup's copy of it,
    whatever the store held before; after a failed write the store is as
    before. *)
Theorem start_stop_touch_only_their_task (now endNow : Z) (iid : nat)
    (logged : Reply unit) (writeOk : bool) (taskId : string)
    (st : Popup.State) (storage : Storage) :
  let started := Popup.startTimer now iid writeOk taskId st storage in
  let stopped :=
    Popup.stopTimer now endNow logged writeOk taskId st storage in
  (∀ other, other ≠ taskId →
     Popup.activeTimers started.1.1 !! other = Popup.activeTimers st !! other
     ∧ Popup.activeTimers stopped.1.1 !! other
       = Popup.activeTimers st !! other)
  ∧ (Popup.activeTimers st !! taskId = None → stopped = (st, storage, []))
  ∧ (writeOk = false → started.1.2 = storage ∧ stopped.1.2 = storage)
  ∧ (writeOk = true →
     started.1.2 = Some (Popup.toSave <$> Popup.activeTimers started.1.1)
     ∧ (∀ other, other ≠ taskId →
          default ∅ started.1.2 !! other
          = Popup.toSave <$> Popup.activeTimers st !! other)
     ∧ (is_Some (Popup.activeTimers st !! taskId) →
        stopped.1.2 = Some (Popup.toSave <$> Popup.activeTimers stopped.1.1)
        ∧ ∀ other, other ≠ taskId →
            default ∅ stopped.1.2 !! other
            = Popup.toSave <$> Popup.activeTimers st !! other)).
Proof.
  intros started stopped.
  assert (Hnone : Popup.activeTimers st !! taskId = None →
                  stopped = (st, storage, [])).
  { intros He. unfold stopped, Popup.stopTimer, Popup.stopTimer_request.
    by rewrite He. }
  assert (Hstart : started
    = ({| Popup.activeTimers :=
            <[taskId := {| startTime := now; pausedDuration := 0;
                           pausedAt := None; intervalId := Some iid |}]>
              (Popup.activeTimers st);
          Popup.allTasks := Popup.allTasks st |},
       if writeOk
       then Some (Popup.toSave <$>
                    <[taskId := {| startTime := now; pausedDuration := 0;
                                   pausedAt := None; intervalId := Some iid |}]>
                      (Popup.activeTimers st))
       else storage,
       started.2)).
  { unfold started. by rewrite startTimer_unfold. }
  assert (Hstop : ∀ e, Popup.activeTimers st !! taskId = Some e →
    stopped.1
    = ({| Popup.activeTimers := delete taskId (Popup.activeTimers st);
          Popup.allTasks := Popup.allTasks st |},
       if writeOk
       then Some (Popup.toSave <$> delete taskId (Popup.activeTimers st))
       else storage)).
  { intros e He. unfold stopped.
    by rewrite (stopTimer_unfold _ _ _ _ _ _ _ e He). }
  split; [|split; [exact Hnone|split]].
  - intros other Hne. split.
    + rewrite Hstart. simpl. by apply lookup_insert_ne.
    + destruct (Popup.activeTimers st !! taskId) as [e|] eqn:He.
      * rewrite (Hstop e eq_refl). simpl. by apply lookup_delete_ne.
      * by rewrite (Hnone eq_refl).
  - intros ->. split.
    + by rewrite Hstart.
    + destruct (Popup.activeTimers st !! taskId) as [e|] eqn:He.
      * by rewrite (Hstop e eq_refl).
      * by rewrite (Hnone eq_refl).
  - intros ->. split; [by rewrite Hstart|]. split.
    + intros other Hne. rewrite Hstart. simpl.
      rewrite lookup_fmap. by rewrite lookup_insert_ne.
    + intros [e He]. rewrite (Hstop e He). simpl. split; [done|].
      intros other Hne. rewrite lookup_fmap. by rewrite lookup_delete_ne.
Qed.

(** The overwriting at work. The popup loaded the timers of tasks ["a"]
    and ["b"]; since then the idle listener added a pause of five minutes
    to both persisted entries. Stopping ["a"] in the popup leaves the
    popup's entry of ["b"] alone and writes it over the persisted one,
    whose pause is gone. *)
Example stop_overwrites_persisted_pause :
  let loaded := {| startTime := 1000; pausedDuration := 0; pausedAt := None;
                   intervalId := Some 3%nat |} in
  let paused := {| startTime := 1000; pausedDuration := 300000;
                   pausedAt := None; intervalId := None |} in
  let st := {| Popup.activeTimers := <["a" := loaded]> {["b" := loaded]};
               Popup.allTasks := [] |} in
  let storage := Some (<["a" := paused]> {["b" := paused]}) in
  let r := Popup.stopTimer 900000 900000 (HttpOk ()) true "a" st storage in
  Popup.activeTimers r.1.1 !! "b" = Some loaded
  ∧ pausedDuration <$> (default ∅ storage !! "b") = Some 300000
  ∧ pausedDuration <$> (default ∅ r.1.2 !! "b") = Some 0.
Proof. repeat split; vm_compute; reflexivity. Qed.

(** X2. Starting a timer for a task without an entry at [t0] and stopping
    it (no idle pause in between) gives back the map as it was, logs the
    duration [max 0 (t1 - t0)] with start [t0], and clears the interval that
    the start had set (interval ids are non-zero). *)
Theorem start_then_stop_round_trip (t0 t1 endNow : Z) (iid : nat)
    (logged : Reply unit) (w0 w1 : bool) (taskId : string)
    (st : Popup.State) (storage : Storage) :
  Popup.activeTimers st !! taskId = None →
  let r0 := Popup.startTimer t0 iid w0 taskId st storage in
  let r1 := Popup.stopTimer t1 endNow logged w1 taskId r0.1.1 r0.1.2 in
  r1.1.1 = st
  ∧ In (HttpPostTime taskId (Z.max 0 (t1 - t0)) t0 endNow) r1.2
  ∧ (iid ≠ 0%nat → In (SetInterval iid) r0.2 ∧ In (ClearInterval iid) r1.2)
  ∧ (w1 = true → r1.1.2 = Some (Popup.toSave <$> Popup.activeTimers st)).
Proof.
  intros Hfree r0 r1.
  set (e := {| startTime := t0; pausedDuration := 0; pausedAt := None;
               intervalId := Some iid |}).
  assert (Hr0 : Popup.activeTimers r0.1.1 !! taskId = Some e)
    by apply startTimer_entry.
  assert (Hmap : delete taskId (Popup.activeTimers r0.1.1) = Popup.activeTimers st).
  { unfold r0. rewrite startTimer_unfold. simpl.
    rewrite delete_insert_eq. by apply delete_id. }
  assert (Htasks : Popup.allTasks r0.1.1 = Popup.allTasks st).
  { unfold r0. by rewrite startTimer_unfold. }
  unfold r1. rewrite (stopTimer_unfold _ _ _ _ _ _ _ e Hr0). simpl.
  rewrite Hmap, Htasks. split; [by destruct st|].
  split.
  { apply in_or_app. left. apply in_or_app. right. left.
    unfold Popup.getEffectiveElapsed, e. simpl. rewrite or_num_zero.
    by replace (t1 - t0 - 0) with (t1 - t0) by lia. }
  split.
  { intros Hiid. split.
    - unfold r0. rewrite startTimer_unfold. by left.
    - apply in_or_app. left. apply in_or_app. left.
      unfold Popup.clearIfSet. simpl. destruct iid; [done|by left]. }
  by intros ->.
Qed.

Lemma start_then_stop_round_trip_witness :
  let st := {| Popup.activeTimers := ∅; Popup.allTasks := [] |} in
  let r0 := Popup.startTimer 1000 3 true "t1" st None in
  let r1 := Popup.stopTimer 61000 61000 (HttpOk ()) true "t1" r0.1.1 r0.1.2 in
  r1.1.1 = st ∧ In (HttpPostTime "t1" 60000 1000 61000) r1.2.
Proof.
  intros st r0 r1.
  destruct (start_then_stop_round_trip 1000 61000 61000 3 (HttpOk ()) true true
              "t1" st None (lookup_empty "t1")) as (Hst & Hlog & _).
  split; [exact Hst|exact Hlog].
Defined.

(** X3. Timers survive closing and reopening the popup: after
    [persistTimerState] wrote the map, [loadPersistedTimers] in a fresh popup
    restores an entry for exactly the same task ids, each with the same start
    time and accumulated pause, no interval, and the same effective elapsed
    time at every instant (the pause mark too when it is a clock reading).
    With nothing persisted yet, loading changes nothing. *)
Theorem timers_survive_reopening (timers : gmap string Timer)
    (storage : Storage) (tasks : list Task) :
  let fresh := {| Popup.activeTimers := ∅; Popup.allTasks := tasks |} in
  let storage' := (Popup.persistTimerState true timers storage).1 in
  let st' := (Popup.loadPersistedTimers true storage' fresh).1 in
  dom (Popup.activeTimers st') = dom timers
  ∧ (∀ k e, timers !! k = Some e →
       ∃ e', Popup.activeTimers st' !! k = Some e'
             ∧ startTime e' = startTime e
             ∧ pausedDuration e' = pausedDuration e
             ∧ intervalId e' = None
             ∧ (pause_mark_ok e → pausedAt e' = pausedAt e)
             ∧ ∀ now, Popup.getEffectiveElapsed now e'
                      = Popup.getEffectiveElapsed now e)
  ∧ Popup.loadPersistedTimers true None fresh = (fresh, []).
Proof.
  intros fresh storage' st'.
  assert (Hst : Popup.activeTimers st' = Popup.toSave <$> timers).
  { unfold st', storage', Popup.loadPersistedTimers, Popup.persistTimerState.
    simpl. rewrite (right_id_L ∅ (∪)), <- map_fmap_compose.
    apply map_fmap_ext. intros k e _. simpl. apply toSave_idempotent. }
  split; [by rewrite Hst, dom_fmap_L|]. split.
  - intros k e Hk. exists (Popup.toSave e).
    split; [by rewrite Hst, lookup_fmap, Hk|].
    split; [done|]. split; [simpl; apply or_num_zero|]. split; [done|].
    split; [|intros now; apply elapsed_toSave].
    intros Hok. simpl. unfold JS.or_null.
    destruct (pausedAt e) as [p|] eqn:Hp; [|done].
    by rewrite <- Hp, (truthy_instant e p Hok Hp).
  - unfold Popup.loadPersistedTimers, fresh. simpl.
    by rewrite fmap_empty, (left_id_L ∅ (∪)).
Qed.

(** ** Messages between the popup and the background *)

Section RecordingFlag.

Import Background.

Lemma onMessage_notified h now m st :
  notifiedTasks (onMessage h now m st).1 = notifiedTasks st.
Proof. by destruct m. Qed.

Lemma deliver_one h now m st : deliver h now [m] st = (onMessage h now m st).1.
Proof. done. Qed.

End RecordingFlag.

(** X4. The background's recording flag follows the popup's timer map:
    delivering the messages that [startTimer] sends sets the flag; delivering
    those that [stopTimer] or [completeTask] send after removing an entry
    sets it exactly when timers remain; completing a task that has no timer
    leaves the flag as it was. The notified set is never touched. *)
Theorem recording_flag_follows_timer_map (h : Background.Host) (now : Z)
    (t tEnd : Z) (iid : nat) (reply : Reply unit) (writeOk : bool)
    (taskId : string) (st : Popup.State) (storage : Storage)
    (bg : Background.State) :
  let started := Popup.startTimer t iid writeOk taskId st storage in
  let stopped := Popup.stopTimer t tEnd reply writeOk taskId st storage in
  let completed := Popup.completeTask reply writeOk taskId st storage in
  let flag effs :=
    Background.isTimerRecording (deliver h now (sentMessages effs) bg) in
  flag started.2 = true
  ∧ (is_Some (Popup.activeTimers st !! taskId) →
     flag stopped.2
     = negb (bool_decide (Popup.activeTimers stopped.1.1 = ∅))
     ∧ (reply ≠ Rejected →
        flag completed.2
        = negb (bool_decide (Popup.activeTimers completed.1.1 = ∅))))
  ∧ (Popup.activeTimers st !! taskId = None →
     flag completed.2 = Background.isTimerRecording bg)
  ∧ Background.notifiedTasks (deliver h now (sentMessages stopped.2) bg)
    = Background.notifiedTasks bg.
Proof.
  intros started stopped completed flag.
  assert (Hmsg : ∀ timers : gmap string Timer,
            Background.isTimerRecording
              (Background.onMessage h now (Popup.timerStateMessage timers) bg).1
            = negb (bool_decide (timers = ∅))).
  { intros timers. rewrite timerStateMessage_nonempty.
    by destruct (bool_decide (timers = ∅)). }
  split.
  { unfold flag, started. rewrite startTimer_unfold. simpl.
    rewrite !sentMessages_app. by destruct writeOk. }
  split.
  { intros [e He]. split.
    - unfold flag, stopped. rewrite (stopTimer_unfold _ _ _ _ _ _ _ e He).
      simpl. rewrite !sentMessages_app, clearIfSet_sends_nothing. simpl.
      destruct reply, writeOk; simpl; apply Hmsg.
    - intros Hrep. unfold flag, completed, Popup.completeTask.
      rewrite He. unfold Popup.persistTimerState.
      destruct reply; [done| |]; destruct writeOk; simpl;
        rewrite !sentMessages_app, clearIfSet_sends_nothing; simpl;
        apply Hmsg. }
  split.
  { intros He. unfold flag, completed, Popup.completeTask. rewrite He.
    by destruct reply. }
  destruct (Popup.activeTimers st !! taskId) as [e|] eqn:He.
  - unfold stopped. rewrite (stopTimer_unfold _ _ _ _ _ _ _ e He). simpl.
    rewrite !sentMessages_app, clearIfSet_sends_nothing. simpl.
    destruct reply, writeOk; simpl; apply onMessage_notified.
  - unfold stopped, Popup.stopTimer, Popup.stopTimer_request. by rewrite He.
Qed.

(** ** The idle listener on the persisted map *)

Section IdleListener.

Import Background.

Lemma applyIdle_start ev e : startTime (applyIdle ev e) = startTime e.
Proof.
  destruct ev as [[] t]; unfold applyIdle, pauseTimer, resumeTimer; simpl;
    by destruct (JS.truthy (pausedAt e)).
Qed.

Lemma applyIdle_interval ev e : intervalId (applyIdle ev e) = intervalId e.
Proof.
  destruct ev as [[] t]; unfold applyIdle, pauseTimer, resumeTimer; simpl;
    by destruct (JS.truthy (pausedAt e)).
Qed.

(** On a consistent entry a later state change never lowers the
    accumulated pause. *)
Lemma applyIdle_paused_grows now s t e :
  timer_ok now e → now ≤ t →
  pausedDuration e ≤ pausedDuration (applyIdle (s, t) e).
Proof.
  unfold timer_ok. intros [Hpd Hp] Hle.
  destruct s; unfold applyIdle, pauseTimer, resumeTimer; simpl.
  - destruct (pausedAt e) as [p|]; simpl; [|lia].
    case_truthy p; [lia|]. rewrite or_num_zero. lia.
  - destruct (JS.truthy (pausedAt e)); simpl; lia.
  - destruct (JS.truthy (pausedAt e)); simpl; lia.
Qed.

(** The listener either leaves the persisted value or writes the map of
    the changed entries. *)
Lemma onStateChanged_cases h now s st storage :
  (onStateChanged h now s st storage).1 = storage
  ∨ (localRead h = true ∧ localWrite h = true
     ∧ (onStateChanged h now s st storage).1
       = Some (applyIdle (s, now) <$> default ∅ storage)).
Proof.
  unfold onStateChanged, writeBack.
  destruct (localRead h); simpl; [|by left].
  case_bool_decide; [by left|].
  destruct (localWrite h); [right|by destruct s; left].
  by destruct s.
Qed.

End IdleListener.

(** X5. An idle window is not counted: when the listener pauses the
    persisted timers at [t1] (idle or locked) and resumes them at [t2], every
    timer that was running comes out running, with the same start time, its
    accumulated pause raised by [t2 - t1], and an effective elapsed time that
    at every instant is the one it would have had [t2 - t1] earlier. *)
Theorem idle_window_is_not_counted (h : Background.Host) (t1 t2 : Z)
    (s : Background.IdleState) (st : Background.State)
    (timers : gmap string Timer) :
  instant t1 →
  s ≠ Background.active →
  Background.localRead h = true →
  Background.localWrite h = true →
  let paused := (Background.onStateChanged h t1 s st (Some timers)).1 in
  let resumed :=
    (Background.onStateChanged h t2 Background.active st paused).1 in
  ∀ k e, timers !! k = Some e → pausedAt e = None →
    ∃ e', default ∅ resumed !! k = Some e'
          ∧ pausedAt e' = None
          ∧ startTime e' = startTime e
          ∧ pausedDuration e' = pausedDuration e + (t2 - t1)
          ∧ ∀ now, Popup.getEffectiveElapsed now e'
                   = Popup.getEffectiveElapsed (now - (t2 - t1)) e.
Proof.
  intros Hi Hs Hr Hw paused resumed k e Hk Hp. unfold instant in Hi.
  assert (Hpause : applyIdle (s, t1) e
                   = {| startTime := startTime e;
                        pausedDuration := pausedDuration e;
                        pausedAt := Some t1; intervalId := intervalId e |}).
  { destruct s; [done| |]; unfold applyIdle; simpl;
      apply pauseTimer_running; by rewrite Hp. }
  assert (Hresume : applyIdle (Background.active, t2) (applyIdle (s, t1) e)
                    = {| startTime := startTime e;
                         pausedDuration := pausedDuration e + (t2 - t1);
                         pausedAt := None; intervalId := intervalId e |}).
  { rewrite Hpause. unfold applyIdle. simpl.
    by rewrite (resumeTimer_paused t2 _ t1) by (simpl; done || lia). }
  exists (applyIdle (Background.active, t2) (applyIdle (s, t1) e)).
  split.
  { unfold resumed, paused.
    rewrite (onStateChanged_entries h t1) by done.
    rewrite (onStateChanged_entries h t2) by done. simpl.
    by rewrite !lookup_fmap, Hk. }
  rewrite Hresume. simpl. split; [done|]. split; [done|]. split; [done|].
  intros now. rewrite !elapsed_running by done. simpl. f_equal. lia.
Qed.

Lemma idle_window_is_not_counted_witness :
  let e := {| startTime := 1000; pausedDuration := 0; pausedAt := None;
              intervalId := None |} in
  let h := configured_host (notifying_settings 15 1) [] in
  let st := {| Background.notifiedTasks := ∅;
               Background.isTimerRecording := true |} in
  let paused :=
    (Background.onStateChanged h 60000 Background.idle st
       (Some {["a" := e]})).1 in
  let resumed :=
    (Background.onStateChanged h 360000 Background.active st paused).1 in
  ∃ e', default ∅ resumed !! "a" = Some e'
        ∧ pausedDuration e' = 300000
        ∧ Popup.getEffectiveElapsed 400000 e' = 99000.
Proof.
  intros e h st paused resumed.
  destruct (idle_window_is_not_counted h 60000 360000 Background.idle st
              {["a" := e]} ltac:(unfold instant; lia) ltac:(discriminate)
              eq_refl eq_refl "a" e (lookup_singleton_eq "a" e) eq_refl)
    as (e' & Hk & _ & _ & Hpd & Hel).
  exists e'. split; [exact Hk|]. split; [exact Hpd|].
  rewrite Hel. reflexivity.
Defined.

(** X6. The idle listener never adds or removes a timer and never changes a
    start time or an interval id: the persisted map has the same task ids
    before and after. With no persisted timer it writes nothing and leaves
    the badge alone; when the local bucket cannot be read or written the
    persisted value stays as it was. *)
Theorem idle_listener_keeps_entries (h : Background.Host) (now : Z)
    (s : Background.IdleState) (st : Background.State) (storage : Storage) :
  let r := Background.onStateChanged h now s st storage in
  dom (default ∅ r.1) = dom (default ∅ storage)
  ∧ (∀ k e, default ∅ storage !! k = Some e →
       ∃ e', default ∅ r.1 !! k = Some e'
             ∧ startTime e' = startTime e ∧ intervalId e' = intervalId e
             ∧ (e' = e ∨ e' = applyIdle (s, now) e))
  ∧ (Background.localRead h = true → default ∅ storage = ∅ →
     r = (storage, []))
  ∧ (Background.localRead h = false ∨ Background.localWrite h = false →
     r.1 = storage).
Proof.
  intros r.
  destruct (onStateChanged_cases h now s st storage) as [Hsame|(Hr & Hw & Hnew)].
  - fold r in Hsame. split; [by rewrite Hsame|]. split.
    { intros k e Hk. exists e. rewrite Hsame. by repeat split; try left. }
    split.
    { intros Hr Hempty. unfold r, Background.onStateChanged.
      rewrite Hr, Hempty. simpl. by rewrite map_size_empty. }
    done.
  - fold r in Hnew. rewrite Hnew. simpl.
    split; [by rewrite dom_fmap_L|]. split.
    { intros k e Hk. exists (applyIdle (s, now) e).
      rewrite lookup_fmap, Hk. simpl.
      split; [done|]. split; [apply applyIdle_start|].
      split; [apply applyIdle_interval|by right]. }
    split.
    { intros _ Hempty. unfold r, Background.onStateChanged.
      rewrite Hr, Hempty. simpl. by rewrite map_size_empty. }
    intros [Hf|Hf]; congruence.
Qed.

(** X7. Along any chronological sequence of idle, locked and active
    reports, an entry that is consistent stays consistent, keeps its start
    time, and its accumulated pause never decreases. *)
Theorem accumulated_pause_never_decreases
    (evs : list (Background.IdleState * Z)) (e : Timer) (now1 now2 : Z) :
  timer_ok now1 e →
  chronological now1 evs now2 →
  timer_ok now2 (runIdle evs e)
  ∧ startTime (runIdle evs e) = startTime e
  ∧ pausedDuration e ≤ pausedDuration (runIdle evs e).
Proof.
  revert e now1. induction evs as [|[s t] evs IH]; intros e now1 Hok Hchr.
  - simpl in *. split; [by apply (timer_ok_later now1)|]. split; [done|lia].
  - destruct Hchr as [Hlo Hrest]. simpl in Hlo, Hrest.
    change (runIdle ((s, t) :: evs) e) with (runIdle evs (applyIdle (s, t) e)).
    destruct (IH (applyIdle (s, t) e) t) as (Hok' & Hstart & Hpd);
      [by apply (timer_ok_apply now1)|done|].
    split; [done|]. split; [by rewrite Hstart, applyIdle_start|].
    pose proof (applyIdle_paused_grows now1 s t e Hok Hlo). lia.
Qed.

Lemma accumulated_pause_never_decreases_witness :
  let e := {| startTime := 1000; pausedDuration := 0; pausedAt := None;
              intervalId := None |} in
  let evs := [(Background.idle, 4000); (Background.active, 9000);
              (Background.locked, 12000); (Background.active, 20000)] in
  0 ≤ pausedDuration (runIdle evs e).
Proof.
  intros e evs.
  assert (Hok : timer_ok 1000 e) by (unfold timer_ok; simpl; lia).
  assert (Hchr : chronological 1000 evs 20000) by (simpl; lia).
  exact (proj2 (proj2 (accumulated_pause_never_decreases evs e 1000 20000
                         Hok Hchr))).
Defined.

(** ** The badge *)

Section Badge.

Import Background.

Lemma badgeTexts_app effs1 effs2 :
  badgeTexts (effs1 ++ effs2) = badgeTexts effs1 ++ badgeTexts effs2.
Proof. unfold badgeTexts. apply flat_map_app. Qed.

End Badge.

(** X8. [updateBadgeCount] sets the badge text exactly once, and never to
    the paused mark. While a timer is recording the text is the recording
    mark, whatever the host answers. Otherwise the badge is cleared when the
    settings cannot be read, when no key is stored, when the badge feature
    is off, and when the one fetch it makes (stored key, stored overdue
    choice) yields no task; and when a key is stored, the feature is on and
    that fetch yields tasks, their number is shown. So a number on the
    badge is positive and is the number of fetched tasks. *)
Theorem badge_shows_recording_or_positive_count (h : Background.Host)
    (now : Z) (st : Background.State) :
  ∃ b, badgeTexts (Background.updateBadgeCount h now st) = [b]
       ∧ b ≠ BadgePaused
       ∧ (Background.isTimerRecording st = true → b = BadgeRecording)
       ∧ (Background.isTimerRecording st = false →
          (Background.sync h = None → b = BadgeBlank)
          ∧ ∀ s, Background.sync h = Some s →
              let on :=
                Background.badge
                  (Background.features
                     (default Background.defaultSettings
                        (Background.settings s))) in
              let tasks :=
                Background.fetchTasksWithKey h now
                  (Background.clickupApiKey s)
                  (Background.overdue
                     (Background.features
                        (default Background.defaultSettings
                           (Background.settings s)))) in
              (JS.truthy_str (Background.clickupApiKey s) = false →
               b = BadgeBlank)
              ∧ (on = false → b = BadgeBlank)
              ∧ (tasks = [] → b = BadgeBlank)
              ∧ (JS.truthy_str (Background.clickupApiKey s) = true →
                 on = true → tasks ≠ [] → b = BadgeCount (length tasks))
              ∧ (∀ n, b = BadgeCount n → (0 < n)%nat ∧ n = length tasks)).
Proof.
  unfold Background.updateBadgeCount, Background.showRecordingBadge.
  destruct (Background.isTimerRecording st) eqn:Hrec.
  { exists BadgeRecording. by repeat split. }
  destruct (Background.sync h) as [s|] eqn:Hs.
  2:{ exists BadgeBlank. repeat split; try done. }
  destruct (JS.truthy_str (Background.clickupApiKey s)) eqn:Hkey; simpl.
  2:{ exists BadgeBlank. split; [done|]. split; [done|]. split; [done|].
      intros _. split; [done|]. intros s' [= <-]. rewrite Hkey.
      repeat split; done. }
  destruct (Background.badge _) eqn:Hon; simpl.
  2:{ exists BadgeBlank. split; [done|]. split; [done|]. split; [done|].
      intros _. split; [done|]. intros s' [= <-]. rewrite Hkey, Hon.
      repeat split; done. }
  case_bool_decide as Hlen.
  - eexists. split; [done|]. split; [done|]. split; [done|].
    intros _. split; [done|]. intros s' [= <-]. rewrite Hkey, Hon.
    split; [done|]. split; [done|]. split.
    { intros Hnil. rewrite Hnil in Hlen. simpl in Hlen. lia. }
    split; [done|]. by intros n [= <-].
  - exists BadgeBlank. split; [done|]. split; [done|]. split; [done|].
    intros _. split; [done|]. intros s' [= <-]. rewrite Hkey, Hon.
    split; [done|]. split; [done|]. split; [done|]. split; [|done].
    intros _ _ Hne. destruct (Background.fetchTasksWithKey _ _ _ _); [done|].
    simpl in Hlen. lia.
Qed.

(** X9. On install and on browser start the recording flag is set from the
    persisted map: when the local bucket can be read, the flag is on exactly
    when a timer is persisted, and then the recording mark is the badge;
    when it cannot be read, the state is left as it was. Neither handler
    touches the notified set. *)
Theorem startup_restores_recording_flag (h : Background.Host) (now : Z)
    (st : Background.State) (storage : Storage) :
  let installed := Background.onInstalled h now st storage in
  let started := Background.onStartup h now st storage in
  installed.1 = started.1
  ∧ badgeTexts installed.2 = badgeTexts started.2
  ∧ (Background.localRead h = true →
     Background.isTimerRecording started.1
     = negb (bool_decide (default ∅ storage = ∅))
     ∧ (default ∅ storage ≠ ∅ → badgeTexts started.2 = [BadgeRecording]))
  ∧ (Background.localRead h = false → started.1 = st)
  ∧ Background.notifiedTasks started.1 = Background.notifiedTasks st.
Proof.
  intros installed started.
  unfold installed, started, Background.onInstalled, Background.onStartup,
    Background.checkPersistedTimers.
  destruct (Background.localRead h); simpl.
  - assert (Hsz : bool_decide (0 < size (default ∅ storage))%nat
                  = negb (bool_decide (default ∅ storage = ∅))).
    { destruct (decide (default ∅ storage = ∅)) as [->|Hne].
      - rewrite map_size_empty, (bool_decide_eq_true_2 (∅ = ∅)) by done.
        by rewrite bool_decide_eq_false_2 by lia.
      - rewrite (bool_decide_eq_false_2 (_ = ∅)) by done.
        assert (size (default ∅ storage) ≠ 0%nat)
          by (by intros ?%map_size_empty_iff).
        by rewrite bool_decide_eq_true_2 by lia. }
    rewrite Hsz.
    destruct (bool_decide (default ∅ storage = ∅)) eqn:Hd; simpl.
    + split; [done|]. split; [done|]. split; [|done].
      intros _. split; [done|]. intros Hne.
      by apply bool_decide_eq_true_1 in Hd.
    + split; [done|]. split; [done|]. split; [|done]. by intros _.
  - split; [done|]. split; [done|]. split; [done|]. by split.
Qed.

(** ** Fetching the tasks *)

(** X10. [fetchTasksWithKey] never fails: without a key, or when the user
    or the team list cannot be fetched (or has no teams), the result is
    empty. A team whose task request fails contributes nothing and does not
    stop the others: the result is the concatenation, in the order of the
    teams, of what each team contributes. *)
Theorem fetch_tolerates_failures (h : Background.Host) (now : Z)
    (apiKey : option string) (includeOverdue : bool) :
  let result := Background.fetchTasksWithKey h now apiKey includeOverdue in
  let r := Background.remote h in
  let start := Background.todayStart (Background.zone h) now in
  let endMs := Background.todayEndMs (Background.zone h) now in
  (JS.truthy_str apiKey = false
   ∨ (∀ uid, Background.getUser r ≠ HttpOk uid)
   ∨ (∀ teams, Background.getTeams r ≠ HttpOk (Some teams))
   ∨ Background.getTeams r = HttpOk (Some []) →
   result = [])
  ∧ ∀ uid before team after,
      JS.truthy_str apiKey = true →
      Background.getUser r = HttpOk uid →
      Background.getTeams r = HttpOk (Some (before ++ team :: after)) →
      let contribution :=
        Background.teamTasks r includeOverdue start endMs uid in
      result
      = List.flat_map contribution before ++ contribution team
        ++ List.flat_map contribution after
      ∧ ((∀ tasks,
            Background.getTasks r
              (Background.taskQuery includeOverdue start endMs team uid)
            ≠ HttpOk (Some tasks)) →
         result
         = List.flat_map contribution before
           ++ List.flat_map contribution after).
Proof.
  intros result r start endMs. split.
  - intros Hfail. unfold result, Background.fetchTasksWithKey. fold r.
    destruct (JS.truthy_str apiKey) eqn:Hkey; simpl; [|done].
    destruct (Background.getUser r) as [| |uid] eqn:Hu; try done.
    destruct (Background.getTeams r) as [| |[teams|]] eqn:Ht; try done.
    destruct Hfail as [Hf|[Hf|[Hf|Hf]]].
    + discriminate.
    + by destruct (Hf uid).
    + by destruct (Hf teams).
    + by injection Hf as ->.
  - intros uid before team after Hkey Hu Ht contribution.
    assert (Hres : result
                   = List.flat_map contribution before ++ contribution team
                     ++ List.flat_map contribution after).
    { unfold result, Background.fetchTasksWithKey. fold r.
      rewrite Hkey, Hu, Ht. simpl. fold start endMs contribution.
      by rewrite flat_map_app. }
    split; [exact Hres|].
    intros Hbad. rewrite Hres.
    assert (Hnone : contribution team = []).
    { unfold contribution, Background.teamTasks.
      destruct (Background.getTasks r _) as [| |[tasks|]] eqn:Hq; try done.
      by destruct (Hbad tasks). }
    by rewrite Hnone.
Qed.

(** X11. The bounds sent in the task query and the filter applied to the
    answer describe the same window: for a due date that parses to [d], the
    filter accepts the task exactly when [d] lies strictly between the
    query's [due_date_gt] (absent with overdue-inclusion) and [due_date_lt].
    The query names the team and the current user. *)
Theorem query_bounds_match_filter (includeOverdue : bool) (start endMs : Z)
    (team : Background.Team) (uid : string) (task : Task) (d : Z) :
  JS.parseInt_field (due_date task) = Some d →
  let q := Background.taskQuery includeOverdue start endMs team uid in
  (Background.dueFilter includeOverdue start endMs task = true
   ↔ match Background.due_date_gt q with
     | Some lo => lo < d
     | None => True
     end ∧ d < Background.due_date_lt q)
  ∧ (Background.due_date_gt q = None ↔ includeOverdue = true)
  ∧ Background.q_team q = Background.team_id team
  ∧ Background.q_assignee q = uid.
Proof.
  intros Hd q. split.
  - rewrite (dueFilter_numeric includeOverdue start endMs task d Hd).
    unfold q, Background.taskQuery. simpl. destruct includeOverdue; lia.
  - unfold q, Background.taskQuery. simpl.
    split; [|done]. by destruct includeOverdue.
Qed.

Lemma query_bounds_match_filter_witness :
  let task := {| id := "86a"; name := "Water the plants";
                 due_date := Some "1710046800000"; teamName := None |} in
  let team := {| Background.team_id := "9001";
                 Background.team_name := "Home" |} in
  Background.dueFilter false 1710046800000 1710133199999 task = true
  ↔ 1710046799999 < 1710046800000 ∧ 1710046800000 < 1710133200000.
Proof.
  intros task team.
  exact (proj1 (query_bounds_match_filter false 1710046800000 1710133199999
                  team "81" task 1710046800000 eq_refl)).
Defined.

(** X12. [fetchTasksWithKey] neither invents nor alters tasks: every task of
    the result is a task the remote returned for one of the user's teams,
    with the same id, name and due date, and carries that team's name. *)
Theorem fetched_tasks_come_from_a_team (h : Background.Host) (now : Z)
    (apiKey : option string) (includeOverdue : bool) (x : Task) :
  In x (Background.fetchTasksWithKey h now apiKey includeOverdue) →
  ∃ uid teams team tasks task,
    Background.getUser (Background.remote h) = HttpOk uid
    ∧ Background.getTeams (Background.remote h) = HttpOk (Some teams)
    ∧ In team teams
    ∧ Background.getTasks (Background.remote h)
        (Background.taskQuery includeOverdue
           (Background.todayStart (Background.zone h) now)
           (Background.todayEndMs (Background.zone h) now) team uid)
      = HttpOk (Some tasks)
    ∧ In task tasks
    ∧ id x = id task ∧ name x = name task ∧ due_date x = due_date task
    ∧ teamName x = Some (Background.team_name team).
Proof.
  intros Hx.
  destruct (JS.truthy_str apiKey) eqn:Hkey.
  2:{ by rewrite fetchTasksWithKey_no_key in Hx. }
  destruct (Background.getUser (Background.remote h)) as [| |uid] eqn:Hu.
  1,2: unfold Background.fetchTasksWithKey in Hx; by rewrite Hkey, Hu in Hx.
  destruct (Background.getTeams (Background.remote h)) as [| |[teams|]] eqn:Ht.
  1,2,4: unfold Background.fetchTasksWithKey in Hx; by rewrite Hkey, Hu, Ht in Hx.
  apply (fetchTasksWithKey_In h now apiKey includeOverdue uid teams) in Hx;
    [|done..].
  destruct Hx as (team & tasks & task & Hteam & Hq & Hin & _ & ->).
  by exists uid, teams, team, tasks, task.
Qed.

Lemma fetched_tasks_come_from_a_team_witness :
  let task := {| id := "86a"; name := "Water the plants";
                 due_date := Some "1710090600000"; teamName := None |} in
  let h := configured_host (notifying_settings 15 1) [task] in
  let x := {| id := "86a"; name := "Water the plants";
              due_date := Some "1710090600000"; teamName := Some "Home" |} in
  ∃ uid teams team tasks task',
    Background.getUser (Background.remote h) = HttpOk uid
    ∧ Background.getTeams (Background.remote h) = HttpOk (Some teams)
    ∧ In team teams
    ∧ Background.getTasks (Background.remote h)
        (Background.taskQuery false
           (Background.todayStart (Background.zone h) 1710090000000)
           (Background.todayEndMs (Background.zone h) 1710090000000) team uid)
      = HttpOk (Some tasks)
    ∧ In task' tasks
    ∧ id x = id task' ∧ name x = name task' ∧ due_date x = due_date task'
    ∧ teamName x = Some (Background.team_name team).
Proof.
  intros task h x.
  exact (fetched_tasks_come_from_a_team h 1710090000000 (Some "pk_1") false x
           (or_introl eq_refl)).
Defined.

(** ** More on the notification check *)

Section NotificationCheck.

Import Background.

(** What a check with the feature on creates, for the window it uses. *)
Lemma created_iff h fetchNow now st s i :
  sync h = Some s →
  JS.truthy_str (clickupApiKey s) = true →
  notifications (features (default defaultSettings (settings s))) = true →
  In i (createdIds (checkDueNotifications h fetchNow now st).2)
  ↔ (i ∉ notifiedTasks st)
    ∧ ∃ task,
        In task (fetchTasksWithKey h fetchNow (clickupApiKey s) false)
        ∧ id task = i
        ∧ due_soon now (notifyBeforeMs (default defaultSettings (settings s)))
            task.
Proof.
  intros Hs Hkey Hon.
  rewrite (checkDueNotifications_enabled h fetchNow now st s) by done. simpl.
  unfold notifyLoop.
  destruct (notifyLoop_spec now
              (notifyBeforeMs (default defaultSettings (settings s)))
              (fetchTasksWithKey h fetchNow (clickupApiKey s) false)
              (notifiedTasks st, []))
    as (created & Htrace & _ & _ & Hmem).
  rewrite Htrace. simpl. apply Hmem.
Qed.

(** One iteration of the notifying loop, with what it appends. *)
Lemma notifyStep_appends now before acc task :
  notifyStep now before acc task = acc
  ∨ ∃ d, JS.parseInt_field (due_date task) = Some d
         ∧ 0 < d - now ≤ before
         ∧ (notifyStep now before acc task).2
           = acc.2 ++ [NotificationsCreate (id task) (name task)
                         (roundMinutes (d - now))].
Proof.
  unfold notifyStep.
  destruct (JS.truthy_str (due_date task)); simpl; [|by left].
  destruct (JS.parseInt_field (due_date task)) as [d|]; simpl; [|by left].
  destruct (Z.ltb_spec 0 (d - now)); simpl; [|by left].
  destruct (Z.leb_spec (d - now) before); simpl; [|by left].
  case_bool_decide; simpl; [by left|].
  right. exists d. by repeat split.
Qed.

(** Every call in the trace of the loop notifies one of the tasks, with
    its name and the rounded minutes left. *)
Lemma notifyLoop_trace now before (all : list Task) tasks : ∀ acc,
  (∀ task, In task tasks → In task all) →
  let P e :=
    ∃ task d, In task all
              ∧ JS.parseInt_field (due_date task) = Some d
              ∧ 0 < d - now ≤ before
              ∧ e = NotificationsCreate (id task) (name task)
                      (roundMinutes (d - now)) in
  Forall P acc.2 →
  Forall P (fold_left (notifyStep now before) tasks acc).2.
Proof.
  induction tasks as [|task tasks IH]; intros acc Hsub P Hacc; [done|].
  simpl. apply IH; [intros t Ht; apply Hsub; by right|].
  destruct (notifyStep_appends now before acc task) as [->|(d & Hd & Hw & ->)];
    [done|].
  apply Forall_app. split; [done|]. constructor; [|constructor].
  exists task, d. split; [apply Hsub; by left|done].
Qed.

Lemma roundMinutes_bounds x nm :
  0 < x ≤ nm * 60000 → 0 ≤ roundMinutes x ≤ nm.
Proof.
  intros Hx. unfold roundMinutes. split.
  - apply Z.div_pos; lia.
  - assert ((x + 30000) `div` 60000 < nm + 1); [|lia].
    apply Z.div_lt_upper_bound; lia.
Qed.

End NotificationCheck.

(** X13. When the fetch of a notification check yields no task (network
    down, request refused, nothing due), the check creates nothing and
    empties the notified set; so after such a check a task that was already
    notified is notified again by the next check in which it is fetched and
    due soon. *)
Theorem failed_fetch_forgets_notified (h down : Background.Host)
    (fetchNow1 now1 fetchNow2 now2 : Z) (st : Background.State)
    (s s' : Background.SyncStorage) (task : Task) :
  let cfg := default Background.defaultSettings (Background.settings s) in
  let cfg' := default Background.defaultSettings (Background.settings s') in
  Background.sync down = Some s' →
  JS.truthy_str (Background.clickupApiKey s') = true →
  Background.notifications (Background.features cfg') = true →
  Background.fetchTasksWithKey down fetchNow1 (Background.clickupApiKey s')
    false = [] →
  Background.sync h = Some s →
  JS.truthy_str (Background.clickupApiKey s) = true →
  Background.notifications (Background.features cfg) = true →
  In task (Background.fetchTasksWithKey h fetchNow2
             (Background.clickupApiKey s) false) →
  due_soon now2 (Background.notifyBeforeMs cfg) task →
  let r1 := Background.checkDueNotifications down fetchNow1 now1 st in
  let r2 := Background.checkDueNotifications h fetchNow2 now2 r1.1 in
  r1 = ({| Background.notifiedTasks := ∅;
           Background.isTimerRecording := Background.isTimerRecording st |},
        [])
  ∧ In (id task) (createdIds r2.2).
Proof.
  intros cfg cfg' Hs' Hkey' Hon' Hempty Hs Hkey Hon Hin Hsoon r1 r2.
  assert (Hr1 : r1 = ({| Background.notifiedTasks := ∅;
                         Background.isTimerRecording :=
                           Background.isTimerRecording st |}, [])).
  { unfold r1.
    rewrite (checkDueNotifications_enabled down fetchNow1 now1 st s') by done.
    rewrite Hempty. simpl. f_equal. f_equal.
    unfold Background.sweep. apply set_eq. intros i.
    rewrite elem_of_filter. split; [by intros [Hev _]|].
    intros Hi. by apply not_elem_of_empty in Hi. }
  split; [exact Hr1|].
  unfold r2. apply (created_iff h fetchNow2 now2 r1.1 s); [done..|].
  rewrite Hr1. simpl. split; [apply not_elem_of_empty|by exists task].
Qed.

Lemma failed_fetch_forgets_notified_witness :
  let task := {| id := "86a"; name := "Water the plants";
                 due_date := Some "1710090600000"; teamName := Some "Home" |} in
  let h := configured_host (notifying_settings 15 1)
             [{| id := "86a"; name := "Water the plants";
                 due_date := Some "1710090600000"; teamName := None |}] in
  let down := configured_host (notifying_settings 15 1) [] in
  let st := {| Background.notifiedTasks := {["86a"]};
               Background.isTimerRecording := false |} in
  let r1 := Background.checkDueNotifications down 1710090000000 1710090000000
              st in
  let r2 := Background.checkDueNotifications h 1710090060000 1710090060000
              r1.1 in
  In "86a" (createdIds r2.2).
Proof.
  intros task h down st r1 r2.
  assert (Hsoon : due_soon 1710090060000
                    (Background.notifyBeforeMs (notifying_settings 15 1)) task).
  { exists 1710090600000. split; [reflexivity|]. vm_compute. by split. }
  exact (proj2 (failed_fetch_forgets_notified h down 1710090000000
                  1710090000000 1710090060000 1710090060000 st
                  {| Background.clickupApiKey := Some "pk_1";
                     Background.settings := Some (notifying_settings 15 1) |}
                  {| Background.clickupApiKey := Some "pk_1";
                     Background.settings := Some (notifying_settings 15 1) |}
                  task eq_refl eq_refl eq_refl eq_refl eq_refl eq_refl eq_refl
                  (or_introl eq_refl) Hsoon)).
Defined.

(** X14. Every notification a check creates is for a fetched task, under
    that task's id and name, and announces the minutes left rounded to the
    nearest minute; with [notification_minutes ≥ 1] this number lies between
    0 and [notification_minutes]. A check that is switched off, has no key
    or cannot read its settings creates nothing and leaves the notified set
    as it is. *)
Theorem notifications_name_fetched_tasks (h : Background.Host)
    (fetchNow now : Z) (st : Background.State) :
  let r := Background.checkDueNotifications h fetchNow now st in
  (∀ e, In e r.2 →
     e = ConsoleError "Error checking notifications:"
     ∨ ∃ s task d,
         Background.sync h = Some s
         ∧ In task (Background.fetchTasksWithKey h fetchNow
                      (Background.clickupApiKey s) false)
         ∧ JS.parseInt_field (due_date task) = Some d
         ∧ e = NotificationsCreate (id task) (name task)
                 (Background.roundMinutes (d - now))
         ∧ (1 ≤ Background.notificationMinutes
                  (default Background.defaultSettings (Background.settings s)) →
            0 ≤ Background.roundMinutes (d - now)
            ≤ Background.notificationMinutes
                (default Background.defaultSettings (Background.settings s))))
  ∧ (Background.sync h = None
     ∨ (∃ s, Background.sync h = Some s
             ∧ (JS.truthy_str (Background.clickupApiKey s) = false
                ∨ Background.notifications
                    (Background.features
                       (default Background.defaultSettings
                          (Background.settings s))) = false)) →
     r.1 = st ∧ createdIds r.2 = []).
Proof.
  intros r. split.
  - intros e He. unfold r, Background.checkDueNotifications in He.
    destruct (Background.sync h) as [s|] eqn:Hs.
    2:{ left. by destruct He as [<-|[]]. }
    destruct (negb _ || negb _); [done|].
    unfold Background.notificationTick in He.
    pose proof (notifyLoop_trace now
                  (Background.notifyBeforeMs
                     (default Background.defaultSettings (Background.settings s)))
                  (Background.fetchTasksWithKey h fetchNow
                     (Background.clickupApiKey s) false)
                  (Background.fetchTasksWithKey h fetchNow
                     (Background.clickupApiKey s) false)
                  (Background.notifiedTasks st, [])
                  (λ t Ht, Ht) (Forall_nil_2 _)) as Hall.
    fold (Background.notifyLoop now
            (Background.notifyBeforeMs
               (default Background.defaultSettings (Background.settings s)))
            (Background.fetchTasksWithKey h fetchNow
               (Background.clickupApiKey s) false)
            (Background.notifiedTasks st)) in Hall.
    destruct (Background.notifyLoop _ _ _ _) as [notified created].
    simpl in He, Hall. rewrite Forall_forall in Hall.
    apply list_elem_of_In, Hall in He as (task & d & Hin & Hd & Hw & ->).
    right. exists s, task, d. split; [done|]. split; [done|].
    split; [done|]. split; [done|].
    intros Hnm. apply roundMinutes_bounds.
    by rewrite <- notifyBeforeMs_minutes.
  - intros Hoff. unfold r, Background.checkDueNotifications.
    destruct Hoff as [->|(s & -> & Hoff)]; [done|].
    by destruct Hoff as [->| ->]; simpl; rewrite ?orb_true_r.
Qed.

(** ** The numbers saved by the options page *)

(** X15. The idle threshold saved by the options page is always at least
    1: an input that does not parse, or parses below 1, is saved as 1, and
    an input that parses to [n ≥ 1] is saved as [n]. The notification lead
    time is checked less: it is never saved as 0 (that and an input that
    does not parse become 15), but any other number, negative ones included,
    is saved as it is. *)
Theorem saved_numbers_are_validated (input : string) :
  1 ≤ Options.validIdleThreshold input
  ∧ (∀ n, JS.parseInt input = Some n → 1 ≤ n →
          Options.validIdleThreshold input = n)
  ∧ (JS.parseInt input = None ∨ (∃ n, JS.parseInt input = Some n ∧ n < 1) →
     Options.validIdleThreshold input = 1)
  ∧ Options.savedNotificationMinutes input ≠ 0
  ∧ (∀ n, JS.parseInt input = Some n → n ≠ 0 →
          Options.savedNotificationMinutes input = n)
  ∧ (JS.parseInt input = None ∨ JS.parseInt input = Some 0 →
     Options.savedNotificationMinutes input = 15).
Proof.
  unfold Options.validIdleThreshold, Options.savedNotificationMinutes, JS.or_num.
  destruct (JS.parseInt input) as [n|].
  - destruct (Z.ltb_spec n 1).
    + split; [lia|]. split; [intros m [= <-]; lia|]. split; [done|].
      case_truthy n.
      * split; [done|]. split; [intros m [= <-]; done|]. done.
      * split; [done|]. split; [by intros m [= <-]|].
        intros [|[=]]; done.
    + split; [lia|]. split; [by intros m [= <-]|].
      split; [intros [|(m & [= <-] & ?)]; [done|lia]|].
      case_truthy n.
      * split; [done|]. split; [intros m [= <-]; done|]. done.
      * split; [done|]. split; [by intros m [= <-]|].
        intros [|[=]]; done.
  - split; [done|]. split; [done|]. split; [done|].
    split; [done|]. by split.
Qed.

(** X16. A negative notification lead time silently switches the
    notifications off: with the feature on, a key stored and tasks due at
    any time, a check whose settings hold a negative [notificationMinutes]
    creates no notification. *)
Theorem negative_lead_time_never_notifies (h : Background.Host)
    (fetchNow now : Z) (st : Background.State) (s : Background.SyncStorage)
    (cfg : Background.Settings) :
  Background.sync h = Some s →
  Background.settings s = Some cfg →
  Background.notificationMinutes cfg < 0 →
  createdIds (Background.checkDueNotifications h fetchNow now st).2 = [].
Proof.
  intros Hs Hcfg Hneg.
  destruct (createdIds _) as [|i l] eqn:Hc; [done|].
  exfalso.
  assert (Hin : In i (createdIds
                        (Background.checkDueNotifications h fetchNow now st).2))
    by (rewrite Hc; by left).
  destruct (JS.truthy_str (Background.clickupApiKey s)) eqn:Hkey.
  2:{ unfold Background.checkDueNotifications in Hin.
      by rewrite Hs, Hkey in Hin. }
  destruct (Background.notifications
              (Background.features
                 (default Background.defaultSettings (Background.settings s))))
    eqn:Hon.
  2:{ unfold Background.checkDueNotifications in Hin.
      by rewrite Hs, Hkey, Hon in Hin. }
  apply (created_iff h fetchNow now st s i Hs Hkey Hon) in Hin
    as (_ & task & _ & _ & d & _ & Hw).
  rewrite Hcfg in Hw. simpl in Hw.
  unfold Background.notifyBeforeMs, JS.or_num in Hw.
  revert Hw. case_truthy (Background.notificationMinutes cfg); lia.
Qed.

Lemma negative_lead_time_never_notifies_witness :
  let task := {| id := "86a"; name := "Water the plants";
                 due_date := Some "1710090600000"; teamName := None |} in
  let cfg := notifying_settings (Options.savedNotificationMinutes "-5") 1 in
  let h := configured_host cfg [task] in
  let st := {| Background.notifiedTasks := ∅;
               Background.isTimerRecording := false |} in
  createdIds
    (Background.checkDueNotifications h 1710090000000 1710090000000 st).2 = [].
Proof.
  intros task cfg h st.
  exact (negative_lead_time_never_notifies h 1710090000000 1710090000000 st
           {| Background.clickupApiKey := Some "pk_1";
              Background.settings := Some cfg |} cfg eq_refl eq_refl
           ltac:(vm_compute; reflexivity)).
Defined.

(** ** Completing a task *)

(** X17. [completeTask] treats every settled status update as a success,
    an error status included: the task leaves the list (the other tasks stay,
    in their order), and in the popup's own map its timer entry is dropped
    while the other entries are untouched. The store is not written when the
    task had no timer; when it had one, the popup's whole map is written, so
    after a successful write the store holds exactly the popup's remaining
    entries, whatever it held for them before. Only a rejected request
    (network failure) changes nothing and raises the alert. *)
Theorem completeTask_outcomes (closed : Reply unit) (writeOk : bool)
    (taskId : string) (st : Popup.State) (storage : Storage) :
  let r := Popup.completeTask closed writeOk taskId st storage in
  (closed = Rejected →
     r.1 = (st, storage)
     ∧ In (Alert "Failed to complete task. Please try again.") r.2)
  ∧ (closed ≠ Rejected →
     Popup.allTasks r.1.1 = filter (λ t, id t ≠ taskId) (Popup.allTasks st)
     ∧ (∀ t, t ∈ Popup.allTasks r.1.1 ↔ t ∈ Popup.allTasks st ∧ id t ≠ taskId)
     ∧ Popup.activeTimers r.1.1 = delete taskId (Popup.activeTimers st)
     ∧ (∀ other, other ≠ taskId →
          Popup.activeTimers r.1.1 !! other = Popup.activeTimers st !! other)
     ∧ In (HttpPutStatus taskId "closed") r.2
     ∧ In (RemoveTaskElement taskId) r.2
     ∧ (Popup.activeTimers st !! taskId = None →
        r.1.2 = storage ∧ ∀ m, ¬ In (StorageLocalSet m) r.2)
     ∧ (is_Some (Popup.activeTimers st !! taskId) →
        In (StorageLocalSet (Popup.toSave <$> Popup.activeTimers r.1.1)) r.2
        ∧ r.1.2 = if writeOk
                  then Some (Popup.toSave <$> Popup.activeTimers r.1.1)
                  else storage)).
Proof.
  intros r. split.
  - intros ->. unfold r. simpl. split; [done|]. right. right. by left.
  - intros Hne.
    assert (Hr : r.1.1
                 = {| Popup.activeTimers := delete taskId (Popup.activeTimers st);
                      Popup.allTasks :=
                        filter (λ t, id t ≠ taskId) (Popup.allTasks st) |}
                 ∧ In (RemoveTaskElement taskId) r.2
                 ∧ In (HttpPutStatus taskId "closed") r.2).
    { unfold r, Popup.completeTask, Popup.persistTimerState.
      destruct closed; [done| |];
        (destruct (Popup.activeTimers st !! taskId) as [e|] eqn:He;
         [destruct writeOk|rewrite (delete_id _ _ He)]; simpl;
         (split; [done|]); (split; [|by left]); right;
         repeat (apply in_or_app; right); by left). }
    destruct Hr as (Hr & Hrem & Hput). rewrite Hr. simpl.
    split; [done|]. split.
    { intros t. rewrite list_elem_of_filter. tauto. }
    split; [done|]. split.
    { intros other Hother. by apply lookup_delete_ne. }
    split; [done|]. split; [done|]. split.
    + intros He. unfold r, Popup.completeTask. rewrite He.
      destruct closed; [done| |]; simpl;
        (split; [done|]); intros m Hm;
        repeat (destruct Hm as [Hm|Hm]; [discriminate Hm|]); done.
    + intros [e He]. unfold r, Popup.completeTask, Popup.persistTimerState.
      rewrite He.
      destruct closed; [done| |]; destruct writeOk; simpl;
        (split; [|done]); right; apply in_or_app; left;
        apply in_or_app; right; by left.
Qed.

(** The same overwriting as for [stopTimer]: completing ["a"], which has a
    timer, replaces the persisted entry of ["b"] by the popup's copy and so
    drops the five minutes of pause the idle listener had recorded. *)
Example complete_overwrites_persisted_pause :
  let loaded := {| startTime := 1000; pausedDuration := 0; pausedAt := None;
                   intervalId := Some 3%nat |} in
  let paused := {| startTime := 1000; pausedDuration := 300000;
                   pausedAt := None; intervalId := None |} in
  let st := {| Popup.activeTimers := <["a" := loaded]> {["b" := loaded]};
               Popup.allTasks := [] |} in
  let storage := Some (<["a" := paused]> {["b" := paused]}) in
  let r := Popup.completeTask (HttpOk ()) true "a" st storage in
  Popup.activeTimers r.1.1 !! "b" = Some loaded
  ∧ pausedDuration <$> (default ∅ storage !! "b") = Some 300000
  ∧ pausedDuration <$> (default ∅ r.1.2 !! "b") = Some 0.
Proof. repeat split; vm_compute; reflexivity. Qed.

(** ** Sorting the list view *)

Section StableSort.

Import View.

Variable cmp : Item → Item → Z.

Lemma insertBy_Permutation x l : insertBy cmp x l ≡ₚ x :: l.
Proof.
  induction l as [|y l IH]; simpl; [done|].
  destruct (cmp x y <=? 0); [done|].
  rewrite IH. apply Permutation_swap.
Qed.

Lemma stableSort_Permutation l : stableSort cmp l ≡ₚ l.
Proof.
  induction l as [|x l IH]; simpl; [done|].
  fold (stableSort cmp l). by rewrite insertBy_Permutation, IH.
Qed.

(** Elements that compare as equal keep their order. *)
Lemma insertBy_filter (P : Item → bool) x l :
  (∀ y, P x = true → P y = true → cmp x y ≤ 0) →
  List.filter P (insertBy cmp x l)
  = (if P x then [x] else []) ++ List.filter P l.
Proof.
  intros Heq. induction l as [|y l IH]; simpl; [by destruct (P x)|].
  destruct (Z.leb_spec (cmp x y) 0) as [Hle|Hgt]; simpl.
  - by destruct (P x), (P y).
  - rewrite IH. destruct (P x) eqn:Hx, (P y) eqn:Hy; simpl; try done.
    specialize (Heq y eq_refl Hy). lia.
Qed.

Lemma stableSort_filter (P : Item → bool) l :
  (∀ x y, P x = true → P y = true → cmp x y ≤ 0) →
  List.filter P (stableSort cmp l) = List.filter P l.
Proof.
  intros Heq. induction l as [|x l IH]; simpl; [done|].
  fold (stableSort cmp l). rewrite insertBy_filter by (by apply Heq).
  rewrite IH. by destruct (P x).
Qed.

(** The comparator orders the elements that satisfy [ok]. *)
Variable ok : Item → Prop.
Hypothesis cmp_total : ∀ a b, ok a → ok b → cmp a b ≤ 0 ∨ cmp b a ≤ 0.
Hypothesis cmp_trans :
  ∀ a b c, ok a → ok b → ok c → cmp a b ≤ 0 → cmp b c ≤ 0 → cmp a c ≤ 0.

Lemma insertBy_sorted x l :
  ok x → Forall ok l →
  StronglySorted (λ a b, cmp a b ≤ 0) l →
  StronglySorted (λ a b, cmp a b ≤ 0) (insertBy cmp x l).
Proof.
  intros Hx Hok. induction 1 as [|y l Hs IH Hall]; simpl;
    [by repeat constructor|].
  inversion Hok as [|? ? Hy Hok']; subst.
  destruct (Z.leb_spec (cmp x y) 0) as [Hle|Hgt].
  - constructor; [by constructor|]. constructor; [done|].
    rewrite Forall_forall in Hall, Hok'. apply Forall_forall. intros z Hz.
    apply (cmp_trans x y z); auto.
  - constructor; [by apply IH|].
    rewrite (insertBy_Permutation x l). constructor; [|done].
    destruct (cmp_total x y Hx Hy); [lia|done].
Qed.

Lemma stableSort_sorted l :
  Forall ok l → StronglySorted (λ a b, cmp a b ≤ 0) (stableSort cmp l).
Proof.
  induction 1 as [|x l Hx Hok IH]; simpl; [constructor|].
  fold (stableSort cmp l). apply insertBy_sorted; [done| |done].
  by rewrite stableSort_Permutation.
Qed.

End StableSort.

Section SortedLists.

Import View.

Lemma StronglySorted_before (R : Item → Item → Prop) l : ∀ i j a b,
  StronglySorted R l → (i < j)%nat →
  l !! i = Some a → l !! j = Some b → R a b.
Proof.
  induction l as [|x l IH]; intros i j a b Hs Hij Hi Hj; [done|].
  inversion Hs as [|? ? Hs' Hall]; subst.
  destruct j as [|j]; [lia|]. destruct i as [|i]; simpl in *.
  - injection Hi as <-. rewrite Forall_forall in Hall. apply Hall.
    by apply list_elem_of_lookup_2 in Hj.
  - apply (IH i j); [done|lia|done..].
Qed.

Lemma StronglySorted_weaken (R R' : Item → Item → Prop) l :
  (∀ a b, R a b → R' a b) → StronglySorted R l → StronglySorted R' l.
Proof.
  intros Himp. induction 1 as [|x l Hs IH Hall]; constructor; [done|].
  eapply Forall_impl; [exact Hall|]. intros y. apply Himp.
Qed.

Lemma priorityRank_cases a :
  priorityRank a
  = match priority a with
    | Some p =>
        if String.eqb "urgent" p then 4
        else if String.eqb "high" p then 1
        else if String.eqb "normal" p then 2
        else if String.eqb "low" p then 3
        else 4
    | None => 4
    end.
Proof.
  unfold priorityRank, priorityOrder.
  destruct (priority a) as [p|]; [|reflexivity].
  cbn [List.find fst snd from_option Datatypes.id].
  repeat (destruct (String.eqb _ p); [reflexivity|]). reflexivity.
Qed.

End SortedLists.

(** X18. [sortTasks] only reorders: for every sort key its result is a
    permutation of the tasks given, and with a key it does not know it
    returns them in the order given. The tasks the list view shows are
    exactly those of the selected workspace (all of them for ["all"]). *)
Theorem sortTasks_only_reorders (localeCompare : string → string → Z)
    (tasks : list View.Item) (sortBy selectedWorkspace : string) :
  View.sortTasks localeCompare tasks sortBy ≡ₚ tasks
  ∧ (sortBy ∉ ["priority"; "due-time"; "estimate"; "name"]%string →
     View.sortTasks localeCompare tasks sortBy = tasks)
  ∧ ∀ t, t ∈ View.visibleTasks localeCompare selectedWorkspace sortBy tasks
         ↔ t ∈ tasks
           ∧ (selectedWorkspace = "all"%string
              ∨ View.teamId t = Some selectedWorkspace).
Proof.
  assert (Hperm : ∀ l, View.sortTasks localeCompare l sortBy ≡ₚ l).
  { intros l. unfold View.sortTasks.
    repeat (destruct (String.eqb sortBy _); [apply stableSort_Permutation|]).
    done. }
  split; [apply Hperm|]. split.
  - intros Hnot. unfold View.sortTasks.
    assert (Hin : ∀ k, In k ["priority"; "due-time"; "estimate"; "name"]%string
                       → sortBy ≠ k).
    { intros k Hk ->. by apply Hnot, list_elem_of_In. }
    destruct (String.eqb_spec sortBy "priority") as [Heq|_];
      [destruct (Hin "priority"%string ltac:(simpl; auto 10) Heq)|].
    destruct (String.eqb_spec sortBy "due-time") as [Heq|_];
      [destruct (Hin "due-time"%string ltac:(simpl; auto 10) Heq)|].
    destruct (String.eqb_spec sortBy "estimate") as [Heq|_];
      [destruct (Hin "estimate"%string ltac:(simpl; auto 10) Heq)|].
    destruct (String.eqb_spec sortBy "name") as [Heq|_];
      [destruct (Hin "name"%string ltac:(simpl; auto 10) Heq)|].
    done.
  - intros t. unfold View.visibleTasks. rewrite (Hperm _).
    destruct (String.eqb_spec selectedWorkspace "all") as [->|Hne].
    + split; [by intros ?; split; [|left]|by intros [? _]].
    + rewrite list_elem_of_In, filter_In, <- list_elem_of_In.
      split.
      * intros [Hin Hw]. split; [done|]. right.
        destruct (View.teamId t) as [w|]; [|done].
        by apply String.eqb_eq in Hw as ->.
      * intros [Hin [?|Hw]]; [done|]. split; [done|].
        rewrite Hw. apply String.eqb_refl.
Qed.

(** X19. Sorting by priority orders the tasks by the rank the code gives
    them and keeps the order of tasks of equal rank. The rank of ["urgent"]
    is 4, the same as for a task without priority, because its table entry 0
    is replaced by the default; ["high"], ["normal"] and ["low"] rank 1, 2
    and 3. So no urgent task is ever placed before a task of priority high,
    normal or low. *)
Theorem priority_sort_puts_urgent_last (localeCompare : string → string → Z)
    (tasks : list View.Item) :
  let out := View.sortTasks localeCompare tasks "priority" in
  StronglySorted (λ a b, View.priorityRank a ≤ View.priorityRank b) out
  ∧ (∀ r, List.filter (λ a, View.priorityRank a =? r) out
          = List.filter (λ a, View.priorityRank a =? r) tasks)
  ∧ (∀ a, (View.priority a = Some "urgent"%string → View.priorityRank a = 4)
          ∧ (View.priority a = Some "high"%string → View.priorityRank a = 1)
          ∧ (View.priority a = Some "normal"%string → View.priorityRank a = 2)
          ∧ (View.priority a = Some "low"%string → View.priorityRank a = 3)
          ∧ (View.priority a = None → View.priorityRank a = 4)
          ∧ 1 ≤ View.priorityRank a ≤ 4)
  ∧ ∀ i j a b, (i < j)%nat → out !! i = Some a → out !! j = Some b →
      View.priority a = Some "urgent"%string →
      View.priority b ≠ Some "high"%string
      ∧ View.priority b ≠ Some "normal"%string
      ∧ View.priority b ≠ Some "low"%string.
Proof.
  intros out.
  assert (Hsorted : StronglySorted
                      (λ a b, View.priorityRank a ≤ View.priorityRank b) out).
  { unfold out, View.sortTasks. simpl.
    eapply StronglySorted_weaken;
      [|apply (stableSort_sorted _ (λ _, True));
        [intros; lia|intros; lia|by apply Forall_true]].
    simpl. intros a b. lia. }
  assert (Hranks : ∀ a,
            (View.priority a = Some "urgent"%string → View.priorityRank a = 4)
            ∧ (View.priority a = Some "high"%string → View.priorityRank a = 1)
            ∧ (View.priority a = Some "normal"%string → View.priorityRank a = 2)
            ∧ (View.priority a = Some "low"%string → View.priorityRank a = 3)
            ∧ (View.priority a = None → View.priorityRank a = 4)
            ∧ 1 ≤ View.priorityRank a ≤ 4).
  { intros a. rewrite priorityRank_cases.
    repeat split; try (by intros ->).
    all: destruct (View.priority a) as [p|]; [|lia].
    all: repeat (destruct (String.eqb _ p); [lia|]); lia. }
  split; [exact Hsorted|]. split.
  { intros r. unfold out, View.sortTasks. simpl.
    apply stableSort_filter. intros x y Hx Hy.
    apply Z.eqb_eq in Hx, Hy. lia. }
  split; [exact Hranks|].
  intros i j a b Hij Hi Hj Ha.
  pose proof (StronglySorted_before _ out i j a b Hsorted Hij Hi Hj) as Hle.
  simpl in Hle.
  destruct (Hranks a) as (Hu & _). rewrite (Hu Ha) in Hle.
  destruct (Hranks b) as (_ & Hh & Hn & Hl & _).
  repeat split; intros Hb; [rewrite (Hh Hb) in Hle|rewrite (Hn Hb) in Hle
                           |rewrite (Hl Hb) in Hle]; lia.
Qed.

(** X20. Sorting by due time puts the tasks in ascending order of due
    date with the undated ones last, and sorting by estimate puts the larger
    estimates first (a missing estimate counts as 0); both keep the order of
    tasks that compare as equal. For the due-time order every due date must
    parse: a NaN compares as equal to everything. *)
Theorem due_time_and_estimate_orders (localeCompare : string → string → Z)
    (tasks : list View.Item) :
  (Forall (λ t, View.dueTime t ≠ View.NaN) tasks →
   let out := View.sortTasks localeCompare tasks "due-time" in
   (∀ i j a b, (i < j)%nat → out !! i = Some a → out !! j = Some b →
      match View.dueTime a, View.dueTime b with
      | View.Fin x, View.Fin y => x ≤ y
      | View.Infinity, View.Fin _ => False
      | _, _ => True
      end)
   ∧ ∀ d, List.filter (λ a, View.compareNum (View.dueTime a) (View.Fin d) =? 0)
            out
          = List.filter
              (λ a, View.compareNum (View.dueTime a) (View.Fin d) =? 0) tasks)
  ∧ (let out := View.sortTasks localeCompare tasks "estimate" in
     (∀ i j a b, (i < j)%nat → out !! i = Some a → out !! j = Some b →
        View.estimate b ≤ View.estimate a)
     ∧ ∀ n, List.filter (λ a, View.estimate a =? n) out
            = List.filter (λ a, View.estimate a =? n) tasks).
Proof.
  split.
  - intros Hok out.
    assert (Hsorted : StronglySorted
              (λ a b, View.compareNum (View.dueTime a) (View.dueTime b) ≤ 0)
              out).
    { unfold out, View.sortTasks. simpl.
      apply (stableSort_sorted _ (λ t, View.dueTime t ≠ View.NaN)); [| |done].
      - intros a b Ha Hb.
        destruct (View.dueTime a), (View.dueTime b); simpl; try done; lia.
      - intros a b c Ha Hb Hc.
        destruct (View.dueTime a), (View.dueTime b), (View.dueTime c);
          simpl; try done; lia. }
    split.
    + intros i j a b Hij Hi Hj.
      pose proof (StronglySorted_before _ out i j a b Hsorted Hij Hi Hj) as Hle.
      simpl in Hle.
      destruct (View.dueTime a), (View.dueTime b); simpl in *; try done; lia.
    + intros d. unfold out, View.sortTasks. simpl.
      apply stableSort_filter. intros x y Hx Hy.
      apply Z.eqb_eq in Hx, Hy.
      destruct (View.dueTime x), (View.dueTime y); simpl in *; try done; lia.
  - intros out.
    assert (Hsorted : StronglySorted
              (λ a b, View.estimate b - View.estimate a ≤ 0) out).
    { unfold out, View.sortTasks. simpl.
      apply (stableSort_sorted _ (λ _, True));
        [intros; lia|intros; lia|by apply Forall_true]. }
    split.
    + intros i j a b Hij Hi Hj.
      pose proof (StronglySorted_before _ out i j a b Hsorted Hij Hi Hj) as Hle.
      simpl in Hle. lia.
    + intros n. unfold out, View.sortTasks. simpl.
      apply stableSort_filter. intros x y Hx Hy.
      apply Z.eqb_eq in Hx, Hy. lia.
Qed.

(** ** Numbers as text *)

Section Decimal.

Lemma N_digit_cases (d : N) :
  (d < 10)%N →
  (d = 0 ∨ d = 1 ∨ d = 2 ∨ d = 3 ∨ d = 4 ∨ d = 5 ∨ d = 6 ∨ d = 7 ∨ d = 8
   ∨ d = 9)%N.
Proof. lia. Qed.

Lemma digit_of_pretty_char d :
  (d < 10)%N → JS.digit_of (pretty_N_char d) = Some (Z.of_N d).
Proof.
  intros Hd. destruct (N_digit_cases d Hd)
    as [->|[->|[->|[->|[->|[->|[->|[->|[->| ->]]]]]]]]]; reflexivity.
Qed.

(** [parseInt] reads a string that starts with a digit from its start. *)
Lemma parseInt_digit_head d rest :
  (d < 10)%N →
  JS.parseInt (String (pretty_N_char d) rest)
  = JS.digits None (String (pretty_N_char d) rest).
Proof.
  intros Hd. destruct (N_digit_cases d Hd)
    as [->|[->|[->|[->|[->|[->|[->|[->|[->| ->]]]]]]]]]; reflexivity.
Qed.

Lemma digits_pretty_go x : ∀ acc s,
  default 0 acc = 0 →
  JS.digits acc (pretty_N_go x s)
  = JS.digits (if decide (x = 0%N) then acc else Some (Z.of_N x)) s.
Proof.
  induction (N.lt_wf_0 x) as [x _ IH]; intros acc s Hacc.
  destruct (decide (x = 0%N)) as [->|Hx]; [by rewrite pretty_N_go_0|].
  rewrite pretty_N_go_step by lia.
  rewrite (IH (x `div` 10)%N) by (done || apply N.div_lt; lia).
  simpl. rewrite digit_of_pretty_char by (apply N.mod_lt; lia).
  f_equal. f_equal.
  pose proof (N.div_mod x 10 ltac:(lia)) as Hdm.
  pose proof (N.mod_lt x 10 ltac:(lia)) as Hlt.
  destruct (decide ((x `div` 10)%N = 0%N)) as [H0|H0]; simpl.
  - rewrite Hacc. rewrite H0 in Hdm. lia.
  - lia.
Qed.

(** The text of a positive number starts with a digit. *)
Lemma pretty_go_head x : ∀ s,
  (0 < x)%N →
  ∃ d rest, (d < 10)%N ∧ pretty_N_go x s = String (pretty_N_char d) rest.
Proof.
  induction (N.lt_wf_0 x) as [x _ IH]; intros s Hx.
  rewrite pretty_N_go_step by done.
  destruct (decide ((x `div` 10)%N = 0%N)) as [H0|H0].
  - rewrite H0, pretty_N_go_0. eexists _, _. split; [|done].
    apply N.mod_lt. lia.
  - apply IH; [apply N.div_lt; lia|by apply N.neq_0_lt_0].
Qed.

Lemma parseInt_pretty_N (n : N) : JS.parseInt (pretty n) = Some (Z.of_N n).
Proof.
  unfold pretty, pretty_N. destruct (decide (n = 0%N)) as [->|Hn]; [done|].
  destruct (pretty_go_head n "" ltac:(lia)) as (d & rest & Hd & Heq).
  rewrite Heq, (parseInt_digit_head d rest Hd), <- Heq.
  rewrite digits_pretty_go by done. by rewrite decide_False.
Qed.

(** Reading back the decimal text of an integer gives the integer. *)
Lemma parseInt_pretty (z : Z) : JS.parseInt (pretty z) = Some z.
Proof.
  destruct z as [|p|p]; [done|apply (parseInt_pretty_N (Npos p))|].
  unfold pretty, pretty_Z. change ("-" +:+ pretty p) with (String "-" (pretty p)).
  unfold JS.parseInt. cbn [JS.skip_ws JS.is_ws].
  change (JS.is_ws "-") with false. cbn iota.
  destruct (pretty_go_head (Npos p) "" ltac:(lia)) as (d & rest & Hd & Heq).
  unfold pretty, pretty_positive, pretty, pretty_N. rewrite decide_False by done.
  rewrite digits_pretty_go by done. by rewrite decide_False.
Qed.

End Decimal.

(** X21. Saving the options page without touching its two number fields
    keeps the stored numbers: the page shows a stored number as its decimal
    text, and the save handler reads that text back to the same notification
    lead time, and to the same idle threshold when that is at least 1 (a
    stored threshold below 1 is raised to 1). *)
Theorem reopening_options_keeps_numbers (n : Z) (shown : string) :
  shownNumber n = Some shown →
  JS.parseInt shown = Some n
  ∧ Options.savedNotificationMinutes shown = n
  ∧ (1 ≤ n → Options.validIdleThreshold shown = n)
  ∧ (n < 1 → Options.validIdleThreshold shown = 1).
Proof.
  unfold shownNumber. case_truthy n; [done|]. intros [= <-].
  assert (Hp : JS.parseInt (pretty n) = Some n) by apply parseInt_pretty.
  split; [exact Hp|].
  unfold Options.savedNotificationMinutes, Options.validIdleThreshold, JS.or_num.
  rewrite Hp. split; [by case_truthy n|].
  destruct (Z.ltb_spec n 1); split; intros; lia || done.
Qed.

Lemma reopening_options_keeps_numbers_witness :
  Options.savedNotificationMinutes "45" = 45
  ∧ Options.validIdleThreshold "45" = 45.
Proof.
  destruct (reopening_options_keeps_numbers 45 "45" eq_refl)
    as (_ & Hn & Hi & _).
  split; [exact Hn|]. apply Hi. lia.
Defined.

(** ** Formatting durations *)

(** X22. [formatTimeEstimate] shows nothing exactly for durations under one
    minute (absent, zero and negative ones included). Otherwise it shows the
    whole minutes of the duration split into hours and minutes below 60,
    leaving out the part that is zero. *)
Theorem estimate_shown_from_one_minute (ms : option Z) :
  let n := default 0 ms in
  let hours := n / 3600000 in
  let minutes := (n `mod` 3600000) / 60000 in
  (View.formatTimeEstimate ms = None ↔ n < 60000)
  ∧ (60000 ≤ n →
     60 * hours + minutes = n / 60000
     ∧ 0 ≤ minutes < 60
     ∧ View.formatTimeEstimate ms
       = Some (if bool_decide (minutes = 0) then pretty hours +:+ "h"
               else if bool_decide (hours = 0) then pretty minutes +:+ "m"
               else pretty hours +:+ "h " +:+ pretty minutes +:+ "m")).
Proof.
  intros n hours minutes.
  assert (Hcases : n < 60000 ∨ 60000 ≤ n) by lia.
  unfold View.formatTimeEstimate.
  destruct ms as [m|]; simpl in n; [|split; [split; [lia|done]|lia]].
  simpl. unfold JS.truthy_num. fold n.
  destruct (Z.eqb_spec n 0) as [H0|H0]; simpl;
    [split; [split; [lia|done]|lia]|].
  destruct Hcases as [Hlt|Hge].
  - assert (Hh : n / 3600000 ≤ 0).
    { assert (n / 3600000 < 1); [|lia]. apply Z.div_lt_upper_bound; lia. }
    assert (Hm : Z.rem n 3600000 / 60000 ≤ 0).
    { assert (Z.rem n 3600000 / 60000 < 1); [|lia].
      apply Z.div_lt_upper_bound; [lia|].
      destruct (Z.le_gt_cases 0 n) as [Hpos|Hneg].
      - rewrite Z.rem_mod_nonneg by lia.
        rewrite Z.mod_small by lia. lia.
      - pose proof (Z.rem_nonpos n 3600000 ltac:(lia) ltac:(lia)). lia. }
    destruct (Z.ltb_spec 0 (n / 3600000)); [lia|].
    destruct (Z.ltb_spec 0 (Z.rem n 3600000 / 60000)); [lia|].
    simpl. split; [by split|lia].
  - rewrite Z.rem_mod_nonneg by lia. fold hours minutes.
    pose proof (Z.mod_pos_bound n 3600000 ltac:(lia)) as Hmod.
    pose proof (Z.div_mod n 3600000 ltac:(lia)) as Hdm. fold hours in Hdm.
    assert (Hmin : 0 ≤ minutes < 60).
    { unfold minutes. split; [apply Z.div_pos; lia|].
      apply Z.div_lt_upper_bound; lia. }
    assert (Hh : 0 ≤ hours) by (apply Z.div_pos; lia).
    assert (Hsum : 60 * hours + minutes = n / 60000).
    { unfold minutes. rewrite Z.add_comm, <- Z.div_add by lia.
      f_equal. lia. }
    assert (Hn60 : 1 ≤ n / 60000) by (apply Z.div_le_lower_bound; lia).
    split; [|intros _; split; [done|]; split; [done|]].
    + destruct (Z.ltb_spec 0 hours), (Z.ltb_spec 0 minutes); simpl;
        (split; [done|lia]) || lia.
    + destruct (Z.ltb_spec 0 hours), (Z.ltb_spec 0 minutes); simpl.
      * rewrite bool_decide_eq_false_2 by lia.
        by rewrite bool_decide_eq_false_2 by lia.
      * by rewrite bool_decide_eq_true_2 by lia.
      * rewrite bool_decide_eq_false_2 by lia.
        by rewrite bool_decide_eq_true_2 by lia.
      * lia.
Qed.

(** ** Snoozing *)

Section SnoozeDate.

Import DateTime Snooze.

Lemma fixed_zone_todayStart off now :
  Background.todayStart (fixed_zone off) now
  = (now + off) / msPerDay * msPerDay - off.
Proof.
  unfold Background.todayStart, setHours, UTC, LocalTime, MakeDate, MakeTime,
    Day. simpl. lia.
Qed.

Lemma snoozedDueDate_fixed cal off now days :
  snoozedDueDate cal (fixed_zone off) now days
  = Background.todayStart (fixed_zone off) now + days * msPerDay
    + 9 * msPerHour.
Proof.
  rewrite fixed_zone_todayStart.
  unfold snoozedDueDate, setDate, getDate, setHours, UTC, LocalTime, MakeDate,
    MakeTime, Day, TimeWithinDay. simpl.
  set (L := now + off). set (D := L / msPerDay).
  replace (monthStart cal D + (D - monthStart cal D + 1 + days) - 1)
    with (D + days) by lia.
  replace ((D + days) * msPerDay + L `mod` msPerDay - off + off)
    with (L `mod` msPerDay + (D + days) * msPerDay) by lia.
  rewrite Z.div_add by (unfold msPerDay; lia).
  rewrite Z.mod_div by (unfold msPerDay; lia).
  unfold msPerDay, msPerHour, msPerMinute, msPerSecond. lia.
Qed.

End SnoozeDate.

(** X23. Where the clock offset does not change, snoozing by [days] days
    sets the due date to 09:00 local time of the day [days] days after
    today, whatever the hour now and whatever the month. For [days ≥ 1] the
    new due date lies after the end of today, so a task that comes back from
    the server with it passes neither the due-today filter nor the one that
    includes overdue tasks. *)
Theorem snooze_sets_nine_on_target_day (cal : Snooze.Calendar)
    (offset now days : Z) (t : Task) :
  let tz := DateTime.fixed_zone offset in
  let due := Snooze.snoozedDueDate cal tz now days in
  let start := Background.todayStart tz now in
  let endMs := Background.todayEndMs tz now in
  due = start + days * 86400000 + 9 * 3600000
  ∧ (1 ≤ days →
     endMs < due
     ∧ now < due
     ∧ ∀ includeOverdue,
         due_date t = Some (pretty due) →
         Background.dueFilter includeOverdue start endMs t = false).
Proof.
  intros tz due start endMs.
  assert (Hdue : due = start + days * 86400000 + 9 * 3600000)
    by apply snoozedDueDate_fixed.
  split; [exact Hdue|]. intros Hdays.
  destruct (fixed_zone_day offset now) as [Hend [Hlo Hhi]].
  fold tz start endMs in Hend, Hlo, Hhi.
  split; [lia|]. split; [lia|].
  intros includeOverdue Ht.
  destruct (Background.dueFilter includeOverdue start endMs t) eqn:Hf; [|done].
  apply (dueFilter_numeric includeOverdue start endMs t due) in Hf.
  - destruct includeOverdue; lia.
  - rewrite Ht. simpl. apply parseInt_pretty.
Qed.

(** X24. [snoozeTask] never touches the timers: a running timer of the
    snoozed task keeps running. Without a task id it does nothing; a
    rejected request changes nothing; otherwise (an error status included)
    the update is issued, the snooze dialog is closed, and the task
    leaves the list when its element is shown. After a snooze that settled,
    a further snooze option does nothing until a dialog is opened again. *)
Theorem snooze_leaves_timers_alone (cal : Snooze.Calendar)
    (tz : DateTime.TimeZone) (now : Z) (updated : Reply unit)
    (rendered : bool) (taskId : option string) (days : Z)
    (st : Snooze.State) :
  let r := Snooze.snoozeTask cal tz now updated rendered taskId days st in
  Popup.activeTimers (Snooze.popup r.1) = Popup.activeTimers (Snooze.popup st)
  ∧ (JS.truthy_str taskId = false → r = (st, []))
  ∧ (updated = Rejected → r.1 = st)
  ∧ (∀ i, taskId = Some i → i ≠ ""%string →
       In (Snooze.HttpPutDueDate i (Snooze.snoozedDueDate cal tz now days)) r.2
       ∧ (updated ≠ Rejected →
          Snooze.currentSnoozeTaskId r.1 = None
          ∧ Popup.allTasks (Snooze.popup r.1)
            = (if rendered
               then filter (λ t, id t ≠ i) (Popup.allTasks (Snooze.popup st))
               else Popup.allTasks (Snooze.popup st))
          ∧ ∀ now' updated' rendered' days',
              Snooze.onSnoozeOption cal tz now' updated' rendered' days' r.1
              = (r.1, []))).
Proof.
  intros r. unfold r, Snooze.snoozeTask.
  destruct taskId as [[|c i]|]; simpl.
  { split; [done|]. split; [done|]. split; [done|]. by intros i [= <-] Hi. }
  2:{ by repeat split. }
  split; [by destruct updated, rendered|].
  split; [done|]. split; [by intros ->|].
  intros i' [= <-] _. split; [by destruct updated, rendered; left|].
  intros Hne. unfold Snooze.onSnoozeOption, Snooze.snoozeTask.
  by destruct updated, rendered.
Qed.

(** ** The timer text *)

Section TimerText.

Lemma append_cons c (s t : string) : String c s +:+ t = String c (s +:+ t).
Proof. reflexivity. Qed.

Lemma append_nil_r (s : string) : s +:+ "" = s.
Proof. induction s as [|c s IH]; [done|]. by rewrite append_cons, IH. Qed.

Lemma append_assoc (s1 s2 s3 : string) :
  (s1 +:+ s2) +:+ s3 = s1 +:+ s2 +:+ s3.
Proof. induction s1 as [|c s1 IH]; [done|]. by rewrite !append_cons, IH. Qed.

Lemma pretty_N_go_append x : ∀ s, pretty_N_go x s = pretty_N_go x "" +:+ s.
Proof.
  induction (N.lt_wf_0 x) as [x _ IH]; intros s.
  destruct (decide (x = 0%N)) as [->|Hx]; [by rewrite !pretty_N_go_0|].
  rewrite !(pretty_N_go_step x) by lia.
  assert (Hlt : (x `div` 10 < x)%N) by (apply N.div_lt; lia).
  rewrite (IH _ Hlt (String _ s)), (IH _ Hlt (String _ "")).
  by rewrite append_assoc.
Qed.

Lemma readNumber_pretty_go x : ∀ acc s,
  default 0 acc = 0 →
  readNumber acc (pretty_N_go x s)
  = readNumber (if decide (x = 0%N) then acc else Some (Z.of_N x)) s.
Proof.
  induction (N.lt_wf_0 x) as [x _ IH]; intros acc s Hacc.
  destruct (decide (x = 0%N)) as [->|Hx]; [by rewrite pretty_N_go_0|].
  rewrite pretty_N_go_step by lia.
  rewrite (IH (x `div` 10)%N) by (done || apply N.div_lt; lia).
  simpl. rewrite digit_of_pretty_char by (apply N.mod_lt; lia).
  f_equal. f_equal.
  pose proof (N.div_mod x 10 ltac:(lia)) as Hdm.
  pose proof (N.mod_lt x 10 ltac:(lia)) as Hlt.
  destruct (decide ((x `div` 10)%N = 0%N)) as [H0|H0]; simpl.
  - rewrite Hacc. rewrite H0 in Hdm. lia.
  - lia.
Qed.

(** Reading the decimal text of [n ≥ 0], after zeros or nothing. *)
Lemma readNumber_pretty acc (n : Z) rest :
  0 ≤ n → default 0 acc = 0 →
  readNumber acc (pretty n +:+ rest) = readNumber (Some n) rest.
Proof.
  intros Hn Hacc. destruct n as [|p|p]; [|clear Hn|lia].
  - simpl. by rewrite Hacc.
  - unfold pretty, pretty_Z, pretty, pretty_positive, pretty, pretty_N.
    rewrite decide_False by done.
    rewrite <- pretty_N_go_append, readNumber_pretty_go by done.
    by rewrite decide_False.
Qed.

Lemma pretty_nonempty (n : Z) : pretty n ≠ ""%string.
Proof. intros He. pose proof (parseInt_pretty n) as Hp. by rewrite He in Hp. Qed.

Lemma readNumber_padded (n : Z) rest :
  0 ≤ n →
  readNumber None (View.padStart2 (pretty n) +:+ rest)
  = readNumber (Some n) rest.
Proof.
  intros Hn. unfold View.padStart2.
  destruct (pretty n) as [|c [|c' s]] eqn:Hp.
  - by destruct (pretty_nonempty n).
  - cbn [String.length]. rewrite <- Hp.
    change (("0" +:+ pretty n) +:+ rest) with (String "0" (pretty n +:+ rest)).
    cbn [readNumber]. change (JS.digit_of "0") with (Some 0).
    cbn iota. by apply readNumber_pretty.
  - cbn [String.length]. rewrite <- Hp. by apply readNumber_pretty.
Qed.

Lemma colon_append (s : string) : ":" +:+ s = String ":" s.
Proof. reflexivity. Qed.

Lemma readNumber_stop n rest :
  readNumber (Some n) (String ":" rest) = (Some n, String ":" rest).
Proof. done. Qed.

Lemma readTimer_formatTimer ms :
  0 ≤ ms → readTimer (View.formatTimer ms) = Some (ms / 1000).
Proof.
  intros Hms. unfold View.formatTimer.
  set (seconds := ms / 1000).
  assert (Hs : 0 ≤ seconds) by (apply Z.div_pos; lia).
  assert (Hm : 0 ≤ seconds / 60) by (apply Z.div_pos; lia).
  assert (Hh : 0 ≤ seconds / 60 / 60) by (apply Z.div_pos; lia).
  assert (Hsr : 0 ≤ Z.rem seconds 60) by (apply Z.rem_nonneg; lia).
  assert (Hmr : 0 ≤ Z.rem (seconds / 60) 60) by (apply Z.rem_nonneg; lia).
  pose proof (Z.rem_mod_nonneg seconds 60 Hs ltac:(lia)) as Hs'.
  pose proof (Z.rem_mod_nonneg (seconds / 60) 60 Hm ltac:(lia)) as Hm'.
  pose proof (Z.div_mod seconds 60 ltac:(lia)) as Hds.
  pose proof (Z.div_mod (seconds / 60) 60 ltac:(lia)) as Hdm.
  unfold readTimer. rewrite !colon_append.
  destruct (0 <? seconds / 60 / 60).
  - rewrite readNumber_pretty by done. rewrite readNumber_stop.
    rewrite readNumber_padded by done. rewrite readNumber_stop.
    rewrite <- (append_nil_r (View.padStart2 _)).
    rewrite readNumber_padded by done. simpl. f_equal. lia.
  - rewrite readNumber_pretty by done. rewrite readNumber_stop.
    rewrite <- (append_nil_r (View.padStart2 _)).
    rewrite readNumber_padded by done. simpl. f_equal. lia.
Qed.

End TimerText.

(** X25. The timer text determines the elapsed whole seconds: for a
    non-negative duration, reading the text written by [formatTimer]
    ([m:ss], or [h:mm:ss] from one hour on) gives back [ms / 1000]
    seconds; so two durations are shown alike exactly when they have the
    same whole seconds. *)
Theorem timer_text_reads_back (ms ms' : Z) :
  0 ≤ ms → 0 ≤ ms' →
  readTimer (View.formatTimer ms) = Some (ms / 1000)
  ∧ (View.formatTimer ms = View.formatTimer ms' ↔ ms / 1000 = ms' / 1000).
Proof.
  intros Hms Hms'. split; [by apply readTimer_formatTimer|]. split.
  - intros Heq.
    pose proof (readTimer_formatTimer ms Hms) as H1.
    pose proof (readTimer_formatTimer ms' Hms') as H2.
    rewrite Heq, H2 in H1. by injection H1.
  - intros Heq. unfold View.formatTimer. by rewrite Heq.
Qed.

Lemma timer_text_reads_back_witness :
  View.formatTimer 3725999 = "1:02:05"%string
  ∧ readTimer "1:02:05" = Some 3725.
Proof.
  destruct (timer_text_reads_back 3725999 3725999 ltac:(lia) ltac:(lia))
    as [Hread _].
  assert (Htext : View.formatTimer 3725999 = "1:02:05"%string) by reflexivity.
  split; [exact Htext|]. rewrite <- Htext. exact Hread.
Defined.

(** ** Loading the tasks in the popup *)

Section LoadTasks.

Import View Load.

Lemma filter_map_task (P : Task → bool) (items : list Item) :
  List.filter P (List.map task items)
  = List.map task (List.filter (λ t, P (task t)) items).
Proof.
  induction items as [|t items IH]; simpl; [done|].
  destruct (P (task t)); simpl; by rewrite IH.
Qed.

Lemma task_annotate team start t :
  task (annotate team start t) = Background.withTeamName team (task t).
Proof. done. Qed.

(** With a user and at least one team the list is the concatenation of
    what the teams contribute. *)
Lemma loadTasks_loaded tz now r fo fc oc cc st uid team teams' :
  getUser r = Got uid →
  getTeams r = Got (Some (team :: teams')) →
  allTasks (loadTasks tz now r fo fc oc cc st).1
  = List.flat_map
      (teamItems r (fo || oc) cc (Background.todayStart tz now)
         (Background.todayEndMs tz now) uid) (team :: teams').
Proof. intros Hu Ht. unfold loadTasks. by rewrite Hu, Ht. Qed.

Lemma teamItems_In r io ic start endMs uid team x :
  In x (teamItems r io ic start endMs uid team) →
  ∃ tasks t,
    getTasks r (Background.taskQuery io start endMs team uid) ic
    = Got (Some tasks)
    ∧ In t tasks
    ∧ Background.dueFilter io start endMs (task t) = true
    ∧ x = annotate team start t.
Proof.
  unfold teamItems. destruct (getTasks r _ ic) as [m|[tasks|]]; try done.
  intros Hx. apply in_map_iff in Hx as (t & <- & Hin).
  apply filter_In in Hin as [Hin Hf]. by exists tasks, t.
Qed.

End LoadTasks.

(** X26. The popup lists the tasks the badge counts. When both scripts
    reach the same server (same user, same teams, same answers to the task
    queries), the "show completed" toggle is off and the popup's overdue
    choice is the one of the settings, then the tasks [loadTasks] puts in the
    list are, in order, the tasks [fetchTasksWithKey] returns to the
    background; in particular there are as many. *)
Theorem popup_lists_what_the_badge_counts (h : Background.Host) (now : Z)
    (r : Load.Remote) (apiKey : option string)
    (featureOverdue featureCompletedCount overdueChecked : bool)
    (st : Load.State) (uid : string) (team : Background.Team)
    (teams' : list Background.Team) :
  let includeOverdue := featureOverdue || overdueChecked in
  let start := Background.todayStart (Background.zone h) now in
  let endMs := Background.todayEndMs (Background.zone h) now in
  JS.truthy_str apiKey = true →
  Load.getUser r = Load.Got uid →
  Background.getUser (Background.remote h) = HttpOk uid →
  Load.getTeams r = Load.Got (Some (team :: teams')) →
  Background.getTeams (Background.remote h) = HttpOk (Some (team :: teams')) →
  (∀ tm, sameAnswer
           (Load.getTasks r
              (Background.taskQuery includeOverdue start endMs tm uid) false)
           (Background.getTasks (Background.remote h)
              (Background.taskQuery includeOverdue start endMs tm uid))) →
  let listed :=
    Load.allTasks
      (Load.loadTasks (Background.zone h) now r featureOverdue
         featureCompletedCount overdueChecked false st).1 in
  let counted := Background.fetchTasksWithKey h now apiKey includeOverdue in
  List.map View.task listed = counted
  ∧ length listed = length counted.
Proof.
  intros includeOverdue start endMs Hkey Hu Hu' Ht Ht' Hsame listed counted.
  assert (Heq : List.map View.task listed = counted).
  { unfold listed, counted.
    rewrite (loadTasks_loaded _ _ _ _ _ _ _ _ uid team teams') by done.
    unfold Background.fetchTasksWithKey. rewrite Hkey, Hu', Ht'. simpl negb.
    cbv iota. fold start endMs includeOverdue.
    generalize (team :: teams'). intros l.
    induction l as [|tm l IH]; [done|].
    cbn [List.flat_map]. rewrite map_app, IH. f_equal.
    specialize (Hsame tm). unfold Load.teamItems, Background.teamTasks.
    destruct (Load.getTasks r _ false) as [m|[items|]],
             (Background.getTasks (Background.remote h) _) as [| |[tasks|]];
      simpl in Hsame; try done.
    subst tasks. rewrite filter_map_task, !List.map_map.
    by apply map_ext. }
  split; [exact Heq|]. by rewrite <- Heq, length_map.
Qed.

Lemma popup_lists_what_the_badge_counts_witness :
  let t := {| id := "86a"; name := "Water the plants";
              due_date := Some "1710090600000"; teamName := None |} in
  let item := {| View.task := t; View.teamId := None;
                 View.priority := Some "urgent"%string;
                 View.time_estimate := Some 1800000;
                 View.statusType := Some "open"%string;
                 View.isOverdue := false; View.isCompleted := false |} in
  let home := {| Background.team_id := "9001";
                 Background.team_name := "Home" |} in
  let r := {| Load.getUser := Load.Got "81"%string;
              Load.getTeams := Load.Got (Some [home]);
              Load.getSpaces := λ _, Load.Got None;
              Load.getTasks := λ _ _, Load.Got (Some [item]) |} in
  let h := configured_host (notifying_settings 15 1) [t] in
  let st := {| Load.teams := []; Load.spaces := ∅; Load.allTasks := [] |} in
  length (Load.allTasks
            (Load.loadTasks (Background.zone h) 1710090000000 r false true
               false false st).1)
  = length (Background.fetchTasksWithKey h 1710090000000 (Some "pk_1") false).
Proof.
  intros t item home r h st.
  exact (proj2 (popup_lists_what_the_badge_counts h 1710090000000 r
                  (Some "pk_1") false true false st "81" home []
                  eq_refl eq_refl eq_refl eq_refl eq_refl
                  (λ tm, eq_refl))).
Defined.

(** X27. Every task [loadTasks] puts in the list has a due date that
    parses, lies in the window asked for, and carries the id and the name of
    the team it was fetched for. It is marked overdue exactly when it is due
    before local midnight, so without overdue-inclusion no listed task is
    marked overdue; it is marked completed exactly when its status type is
    ["closed"]. *)
Theorem listed_tasks_are_annotated (tz : DateTime.TimeZone) (now : Z)
    (r : Load.Remote)
    (featureOverdue featureCompletedCount overdueChecked completedChecked : bool)
    (st : Load.State) (uid : string) (team : Background.Team)
    (teams' : list Background.Team) (x : View.Item) :
  let start := Background.todayStart tz now in
  let endMs := Background.todayEndMs tz now in
  Load.getUser r = Load.Got uid →
  Load.getTeams r = Load.Got (Some (team :: teams')) →
  In x (Load.allTasks
          (Load.loadTasks tz now r featureOverdue featureCompletedCount
             overdueChecked completedChecked st).1) →
  ∃ d tm,
    In tm (team :: teams')
    ∧ View.dueTime x = View.Fin d
    ∧ d ≤ endMs
    ∧ View.teamId x = Some (Background.team_id tm)
    ∧ teamName (View.task x) = Some (Background.team_name tm)
    ∧ View.isOverdue x = bool_decide (d < start)
    ∧ (featureOverdue || overdueChecked = false →
       View.isOverdue x = false ∧ start ≤ d)
    ∧ View.isCompleted x
      = bool_decide (View.statusType x = Some "closed"%string).
Proof.
  intros start endMs Hu Ht Hx.
  rewrite (loadTasks_loaded _ _ _ _ _ _ _ _ uid team teams') in Hx by done.
  apply in_flat_map in Hx as (tm & Htm & Hx).
  apply teamItems_In in Hx as (tasks & t & _ & _ & Hf & ->).
  fold start endMs in Hf.
  destruct (dueFilter_true_numeric _ _ _ _ Hf) as [d Hd].
  pose proof (proj1 (dueFilter_numeric _ start endMs (View.task t) d Hd) Hf)
    as Hw.
  exists d, tm. split; [done|]. split.
  { unfold View.dueTime. simpl.
    by rewrite (parseInt_field_truthy _ _ Hd), Hd. }
  split; [destruct (featureOverdue || overdueChecked); lia|].
  split; [done|]. split; [done|]. split.
  { simpl. rewrite Hd. simpl.
    destruct (Z.ltb_spec d start); case_bool_decide; done || lia. }
  split.
  { intros Hno. rewrite Hno in Hw. simpl. rewrite Hd. simpl.
    split; [apply Z.ltb_ge|]; lia. }
  simpl. destruct (View.statusType t) as [ty|].
  - destruct (String.eqb_spec ty "closed") as [->|Hne].
    + by rewrite bool_decide_eq_true_2.
    + rewrite bool_decide_eq_false_2; [done|]. by intros [= ->].
  - by rewrite bool_decide_eq_false_2.
Qed.

Lemma listed_tasks_are_annotated_witness :
  let t := {| id := "86a"; name := "Water the plants";
              due_date := Some "1710003600000"; teamName := None |} in
  let item := {| View.task := t; View.teamId := None;
                 View.priority := None; View.time_estimate := None;
                 View.statusType := Some "closed"%string;
                 View.isOverdue := false; View.isCompleted := false |} in
  let home := {| Background.team_id := "9001";
                 Background.team_name := "Home" |} in
  let r := {| Load.getUser := Load.Got "81"%string;
              Load.getTeams := Load.Got (Some [home]);
              Load.getSpaces := λ _, Load.Got None;
              Load.getTasks := λ _ _, Load.Got (Some [item]) |} in
  let st := {| Load.teams := []; Load.spaces := ∅; Load.allTasks := [] |} in
  ∃ x, Load.allTasks
         (Load.loadTasks (DateTime.fixed_zone 0) 1710090000000 r true true
            false true st).1 = [x]
       ∧ View.isOverdue x = true ∧ View.isCompleted x = true.
Proof.
  intros t item home r st.
  eexists. split; [reflexivity|].
  destruct (listed_tasks_are_annotated (DateTime.fixed_zone 0) 1710090000000
              r true true false true st "81" home [] (Load.annotate home
                (Background.todayStart (DateTime.fixed_zone 0) 1710090000000)
                item) eq_refl eq_refl (or_introl eq_refl))
    as (d & tm & _ & _ & _ & _ & _ & _ & _ & Hc).
  split; [reflexivity|exact Hc].
Defined.

(** X28. When the user or the team list cannot be fetched, [loadTasks]
    leaves its state as it was (the old task list included), shows an error
    (the invalid-key text when the error message contains "401") and does
    not ask for a badge update. With no team it shows "No workspaces found."
    and keeps the old task list. A team whose task request fails is skipped:
    the list holds what the other teams contribute. *)
Theorem loadTasks_failures (tz : DateTime.TimeZone) (now : Z) (r : Load.Remote)
    (featureOverdue featureCompletedCount overdueChecked completedChecked : bool)
    (st : Load.State) :
  let res := Load.loadTasks tz now r featureOverdue featureCompletedCount
               overdueChecked completedChecked st in
  let contribution uid :=
    Load.teamItems r (featureOverdue || overdueChecked) completedChecked
      (Background.todayStart tz now) (Background.todayEndMs tz now) uid in
  (∀ m, Load.getUser r = Load.Threw m
        ∨ (∃ uid, Load.getUser r = Load.Got uid
                  ∧ Load.getTeams r = Load.Threw m) →
        res.1 = st
        ∧ In (Load.ShowError
                (if Load.includes401 m
                 then "Invalid API key. Please check your settings."
                 else "Failed to load tasks: " +:+ m)) res.2
        ∧ ¬ In Load.UpdateBadge res.2)
  ∧ (∀ uid, Load.getUser r = Load.Got uid →
        Load.getTeams r = Load.Got None
        ∨ Load.getTeams r = Load.Got (Some []) →
        Load.allTasks res.1 = Load.allTasks st
        ∧ Load.teams res.1 = []
        ∧ res.2 = [Load.ShowLoading; Load.ShowError "No workspaces found."])
  ∧ (∀ uid before team after m,
        Load.getUser r = Load.Got uid →
        Load.getTeams r = Load.Got (Some (before ++ team :: after)) →
        Load.getTasks r
          (Background.taskQuery (featureOverdue || overdueChecked)
             (Background.todayStart tz now) (Background.todayEndMs tz now)
             team uid) completedChecked = Load.Threw m →
        Load.allTasks res.1
        = List.flat_map (contribution uid) before
          ++ List.flat_map (contribution uid) after
        ∧ In Load.UpdateBadge res.2).
Proof.
  intros res contribution. split.
  - intros m [Hu|(uid & Hu & Ht)]; unfold res, Load.loadTasks;
      rewrite Hu, ?Ht; simpl.
    + split; [done|]. split; [by right; right; left|].
      intros [|[|[|[]]]]; done.
    + split; [done|]. split; [by right; right; left|].
      intros [|[|[|[]]]]; done.
  - split.
    + intros uid Hu [Ht|Ht]; unfold res, Load.loadTasks; by rewrite Hu, Ht.
    + intros uid before team after m Hu Ht Hq.
      destruct (before ++ team :: after) as [|tm l] eqn:Hl;
        [by destruct before|].
      split.
      * unfold res. rewrite (loadTasks_loaded _ _ _ _ _ _ _ _ uid tm l) by done.
        rewrite <- Hl, flat_map_app. cbn [List.flat_map].
        fold (contribution uid). f_equal.
        assert (Hnone : contribution uid team = []).
        { unfold contribution, Load.teamItems. by rewrite Hq. }
        by rewrite Hnone.
      * unfold res, Load.loadTasks. rewrite Hu, Ht. simpl.
        right. apply in_or_app. right.
        destruct featureCompletedCount; simpl; auto.
Qed.

(** The Gregorian calendar at work: 2024-03-10 17:00 UTC is the 10th, and
    a snooze by 7 days from there lands on 2024-03-17 09:00 UTC. *)
Example snooze_in_the_gregorian_calendar :
  Snooze.getDate Snooze.gregorian (DateTime.fixed_zone 0) 1710090000000 = 10
  ∧ Snooze.snoozedDueDate Snooze.gregorian (DateTime.fixed_zone 0)
      1710090000000 7 = 1710666000000.
Proof. split; reflexivity. Qed.
